(** * Modern-ETL-Pipeline: a shallow embedding of [etl_pipeline.py]

    The development follows the Python source class by class:

    - the pandas values the pipeline manipulates (cells, [Series],
      [DataFrame]) and the pandas operations the source calls
      ([drop_duplicates], [select_dtypes], [median], [fillna], [quantile],
      boolean-mask indexing, [pd.cut], [.str.strip()], [.str.title()],
      [pd.concat]);
    - the interpreter state the methods run in: a store of DataFrame
      objects addressed by reference (Python variables hold references,
      and [df[col] = ...] mutates the object every alias sees), the
      metrics file, and the world outside the process;
    - [DataTransformer.clean_data], [DataTransformer.transform_data],
      [ETLPipeline.log_metrics] and [ETLPipeline.run_pipeline] as
      computations in a state-and-exception monad over that state.

    Conventions, stated once:
    - a number of a table is a float64 (IEEE 754 binary64) value, and the
      arithmetic of [median], [quantile] and the IQR bounds is binary64
      arithmetic, rounding to nearest even, with its infinities and NaN,
      as the Standard Library's [SpecFloat] defines it; NaN, None and NaT
      are the single missing marker [NA]; an int64 column is written
      with the float64 values of its entries (exact up to 2^53);
    - text is ASCII: [str.strip] and [str.title] are defined on the
      characters below 128, and statements about text are about strings
      of such characters;
    - a timestamp is an integer count of microseconds;
    - row labels (the pandas index) are kept as a list of integers;
    - a file is represented by what reading it gives, or raises, and by
      whether it can be opened for writing. *)

From Stdlib Require Import QArith ZArith List Ascii String Bool Lia SpecFloat.
From stdpp Require Import base list strings.

Local Open Scope string_scope.
Local Open Scope list_scope.
Local Open Scope nat_scope.

(* ================================================================== *)
(** ** float64 *)

(** A float64 value other than NaN: a signed zero, a signed infinity, or
    the value [(-1)^negative * m * 2^e]. *)
Inductive f64 : Type :=
| FZero (negative : bool)
| FInf (negative : bool)
| FFinite (negative : bool) (m : positive) (e : Z).

(** A float64 value: [None] is NaN. *)
Definition float : Type := option f64.

Definition to_spec (v : float) : spec_float :=
  match v with
  | Some (FZero s) => S754_zero s
  | Some (FInf s) => S754_infinity s
  | Some (FFinite s m e) => S754_finite s m e
  | None => S754_nan
  end.

Definition of_spec (x : spec_float) : float :=
  match x with
  | S754_zero s => Some (FZero s)
  | S754_infinity s => Some (FInf s)
  | S754_finite s m e => Some (FFinite s m e)
  | S754_nan => None
  end.

(** binary64: 53 bits of precision, exponent of the infinities 1024. *)
Definition prec : Z := 53.
Definition emax : Z := 1024.

Definition fadd (a b : float) : float := of_spec (SFadd prec emax (to_spec a) (to_spec b)).
Definition fsub (a b : float) : float := of_spec (SFsub prec emax (to_spec a) (to_spec b)).
Definition fmul (a b : float) : float := of_spec (SFmul prec emax (to_spec a) (to_spec b)).
Definition fdiv (a b : float) : float := of_spec (SFdiv prec emax (to_spec a) (to_spec b)).

(** [x == y], [x <= y] and [x < y] on values that are not NaN. *)
Definition f64_eqb (x y : f64) : bool := SFeqb (to_spec (Some x)) (to_spec (Some y)).
Definition f64_leb (x y : f64) : bool := SFleb (to_spec (Some x)) (to_spec (Some y)).
Definition f64_ltb (x y : f64) : bool := SFltb (to_spec (Some x)) (to_spec (Some y)).

Definition f64_le (x y : f64) : Prop := f64_leb x y = true.
Definition f64_lt (x y : f64) : Prop := f64_ltb x y = true.

(** [a <= b] and [a < b] on floats: False when either side is NaN. *)
Definition float_leb (a b : float) : bool := SFleb (to_spec a) (to_spec b).
Definition float_ltb (a b : float) : bool := SFltb (to_spec a) (to_spec b).

(** [float(z)] for an integer: the nearest float64. *)
Definition float_of_Z (z : Z) : float := of_spec (binary_normalize prec emax z 0 false).

(** The float a decimal literal denotes: the float64 nearest to the
    rational (numerator and denominator below 2^53). *)
Definition float_of_Q (q : Q) : float :=
  fdiv (float_of_Z (Qnum q)) (float_of_Z (Zpos (Qden q))).

Definition f64_of_Q (q : Q) : f64 :=
  match float_of_Q q with Some x => x | None => FZero false end.

(** [math.floor(x)] of a finite value. *)
Definition f64_floor (x : f64) : option Z :=
  match x with
  | FZero _ => Some 0%Z
  | FInf _ => None
  | FFinite s m e =>
      let z := if s then Zneg m else Zpos m in
      Some (if (0 <=? e)%Z then Z.shiftl z e else Z.shiftr z (- e))
  end.

(** A key under which the comparison of two values that are not NaN is
    the lexicographic comparison of their keys. *)
Definition f64_key (x : f64) : Z * Z * Z :=
  match x with
  | FInf true => (-2, 0, 0)%Z
  | FFinite true m e => (-1, - e, - Zpos m)%Z
  | FZero _ => (0, 0, 0)%Z
  | FFinite false m e => (1, e, Zpos m)%Z
  | FInf false => (2, 0, 0)%Z
  end.

Definition key_le (a b : Z * Z * Z) : Prop :=
  let '(a1, a2, a3) := a in
  let '(b1, b2, b3) := b in
  (a1 < b1 \/ (a1 = b1 /\ (a2 < b2 \/ (a2 = b2 /\ a3 <= b3))))%Z.

Definition key_lt (a b : Z * Z * Z) : Prop :=
  let '(a1, a2, a3) := a in
  let '(b1, b2, b3) := b in
  (a1 < b1 \/ (a1 = b1 /\ (a2 < b2 \/ (a2 = b2 /\ a3 < b3))))%Z.

(* ================================================================== *)
(** ** Cells, series and frames *)

(** One scalar of a table. *)
Inductive cell : Type :=
| Num (x : f64)      (* float64 value other than NaN *)
| Str (s : string)   (* Python str *)
| Stamp (t : Z)      (* datetime / Timestamp, microseconds *)
| NA.                (* NaN / None / NaT *)

(** The column dtypes the source distinguishes with [select_dtypes]. *)
Inductive dtype : Type :=
| number       (* matched by include=[np.number] *)
| object       (* matched by include=['object'] *)
| datetime64   (* what [df['processed_at'] = datetime.now()] creates *)
| category.    (* what [pd.cut(..., labels=...)] creates *)

Record Series : Type := mkSeries { sdtype : dtype; svalues : list cell }.

Record DataFrame : Type := mkFrame {
  index : list Z;                       (* row labels *)
  columns : list (string * Series)      (* in column order *)
}.

(** Python exceptions: class name and message; [str(e)] is the message. *)
Inductive exn : Type := PyErr (cls : string) (msg : string).

Definition str_of_exn (e : exn) : string :=
  match e with PyErr _ msg => msg end.

Definition isna (c : cell) : bool :=
  match c with NA => true | _ => false end.

(** The cell of a float: NaN is the missing marker. *)
Definition cell_of_float (v : float) : cell :=
  match v with Some x => Num x | None => NA end.

(** The cell a decimal literal denotes. *)
Definition num (q : Q) : cell := cell_of_float (float_of_Q q).

Definition dtype_eqb (a b : dtype) : bool :=
  match a, b with
  | number, number | object, object
  | datetime64, datetime64 | category, category => true
  | _, _ => false
  end.

Definition is_number (d : dtype) : bool := dtype_eqb d number.
Definition is_object (d : dtype) : bool := dtype_eqb d object.

(** Equality of two cells as the hash table behind [duplicated] sees it:
    equal values are equal, and two missing markers are equal. *)
Definition cell_eqb (a b : cell) : bool :=
  match a, b with
  | Num x, Num y => f64_eqb x y
  | Str s, Str t => String.eqb s t
  | Stamp s, Stamp t => Z.eqb s t
  | NA, NA => true
  | _, _ => false
  end.

Definition row : Type := list cell.

Fixpoint row_eqb (r1 r2 : row) : bool :=
  match r1, r2 with
  | [], [] => true
  | a :: r1', b :: r2' => cell_eqb a b && row_eqb r1' r2'
  | _, _ => false
  end.

(** [len(df)]. *)
Definition len (df : DataFrame) : nat := length (index df).

(** [df.empty]: no rows or no columns. *)
Definition df_empty (df : DataFrame) : bool :=
  (len df =? 0) || (length (columns df) =? 0).

(** [df.columns] *)
Definition column_names (df : DataFrame) : list string :=
  map fst (columns df).

Fixpoint assoc (name : string) (cols : list (string * Series)) : option Series :=
  match cols with
  | [] => None
  | (n, s) :: rest => if String.eqb n name then Some s else assoc name rest
  end.

(** [df[name]], [None] standing for KeyError. *)
Definition getitem (df : DataFrame) (name : string) : option Series :=
  assoc name (columns df).

(** ['name' in df.columns] *)
Definition has_column (df : DataFrame) (name : string) : bool :=
  existsb (String.eqb name) (column_names df).

Fixpoint assign (name : string) (s : Series) (cols : list (string * Series))
  : list (string * Series) :=
  match cols with
  | [] => [(name, s)]
  | (n, old) :: rest =>
      if String.eqb n name then (n, s) :: rest
      else (n, old) :: assign name s rest
  end.

(** The frame after [df[name] = s]: an existing column is replaced where
    it stands, a new one is appended at the right. *)
Definition setitem (df : DataFrame) (name : string) (s : Series) : DataFrame :=
  mkFrame (index df) (assign name s (columns df)).

(** [df.select_dtypes(include=[...]).columns] *)
Definition select_dtypes (include : dtype -> bool) (df : DataFrame) : list string :=
  map fst (filter (fun c => include (sdtype (snd c)) = true) (columns df)).

(** Boolean-mask selection on one array. *)
Fixpoint take_mask {A : Type} (mask : list bool) (l : list A) : list A :=
  match mask, l with
  | b :: mask', x :: l' => if b then x :: take_mask mask' l' else take_mask mask' l'
  | _, _ => []
  end.

(** [df[mask]]: a new frame with the rows where the mask is true. *)
Definition getitem_mask (df : DataFrame) (mask : list bool) : DataFrame :=
  mkFrame (take_mask mask (index df))
          (map (fun c => (fst c, mkSeries (sdtype (snd c)) (take_mask mask (svalues (snd c)))))
               (columns df)).

(** A column after [df[mask]]. *)
Definition mask_series (mask : list bool) (s : Series) : Series :=
  mkSeries (sdtype s) (take_mask mask (svalues s)).

(** The rows of a frame, top to bottom: row [i] lists the [i]-th value of
    every column in column order. *)
Fixpoint transpose (n : nat) (cols : list (list cell)) : list row :=
  match n with
  | O => []
  | S n' => map (fun c => hd NA c) cols :: transpose n' (map (fun c => tl c) cols)
  end.

Definition rows (df : DataFrame) : list row :=
  transpose (len df) (map (fun c => svalues (snd c)) (columns df)).

(* ================================================================== *)
(** ** [DataFrame.drop_duplicates] *)

(** [duplicated(keep='first')]: one scan, top to bottom, with a table of
    the keys met so far; a row is flagged when its key is already in the
    table and is entered in the table otherwise. *)
Fixpoint duplicated_scan (seen : list row) (rs : list row) : list bool :=
  match rs with
  | [] => []
  | r :: rs' =>
      if existsb (row_eqb r) seen
      then true :: duplicated_scan seen rs'
      else false :: duplicated_scan (seen ++ [r]) rs'
  end.

Definition duplicated (df : DataFrame) : list bool :=
  duplicated_scan [] (rows df).

(** [df.drop_duplicates()]: an empty frame is copied as it is, otherwise
    [self[-self.duplicated()]]. *)
Definition drop_duplicates (df : DataFrame) : DataFrame :=
  if df_empty df then df
  else getitem_mask df (map negb (duplicated df)).

(* ================================================================== *)
(** ** Column statistics: [median], [quantile], [fillna] *)

(** [series >= bound] and [series <= bound], element-wise: a comparison
    that involves NaN on either side is False. *)
Definition cell_ge (c : cell) (bound : float) : bool :=
  match c, bound with Num x, Some b => f64_leb b x | _, _ => false end.
Definition cell_le (c : cell) (bound : float) : bool :=
  match c, bound with Num x, Some b => f64_leb x b | _, _ => false end.

(** The non-missing numbers of a column (statistics skip NaN). *)
Fixpoint numbers (vs : list cell) : list f64 :=
  match vs with
  | [] => []
  | Num x :: vs' => x :: numbers vs'
  | _ :: vs' => numbers vs'
  end.

Fixpoint insert_sorted (x : f64) (l : list f64) : list f64 :=
  match l with
  | [] => [x]
  | y :: l' => if f64_leb x y then x :: y :: l' else y :: insert_sorted x l'
  end.

Fixpoint sort (l : list f64) : list f64 :=
  match l with
  | [] => []
  | x :: l' => insert_sorted x (sort l')
  end.

(** [xs[i]] on a non-empty list, a negative [i] counting from the end. *)
Definition item (xs : list f64) (i : Z) : f64 :=
  nth (Z.to_nat (if (i <? 0)%Z then Z.of_nat (length xs) + i else i)%Z) xs (FZero false).

(** [np.mean] of two values: their sum divided by 2. *)
Definition mean2 (a b : f64) : float :=
  fdiv (fadd (Some a) (Some b)) (float_of_Z 2).

(** [Series.median()], that is [np.nanmedian]: the middle value of the
    sorted non-missing values, the mean of the two middle ones when
    their number is even, NaN when there is none. *)
Definition median (s : Series) : float :=
  let xs := sort (numbers (svalues s)) in
  let n := length xs in
  if n =? 0 then None
  else if Nat.odd n then Some (nth (n / 2) xs (FZero false))
  else mean2 (nth (n / 2 - 1) xs (FZero false)) (nth (n / 2) xs (FZero false)).

(** numpy's [_lerp(a, b, t)]: [a + (b - a) * t], and
    [b - (b - a) * (1 - t)] where [t >= 0.5]. *)
Definition lerp (a b : f64) (t : float) : float :=
  let diff_b_a := fsub (Some b) (Some a) in
  if float_leb (float_of_Q 0.5) t
  then fsub (Some b) (fmul diff_b_a (fsub (float_of_Z 1) t))
  else fadd (Some a) (fmul diff_b_a t).

(** [Series.quantile(q)], that is [np.percentile] with the method
    'linear' on the sorted non-missing values: the virtual index
    [(n - 1) * q], its floor and the next index (both the last index
    when the virtual index is at or beyond it, both 0 when it is below
    0), and the interpolation between the values at the two indexes
    with weight [virtual index - previous index]; NaN when there is no
    value. *)
Definition quantile (q : float) (s : Series) : float :=
  let xs := sort (numbers (svalues s)) in
  let n := length xs in
  if n =? 0 then None
  else
    let last := float_of_Z (Z.of_nat (n - 1)) in
    let virtual_index := fmul last q in
    match virtual_index with
    | None => None
    | Some v =>
        match f64_floor v with
        | None => None
        | Some k =>
            let above := float_leb last virtual_index in
            let below := float_ltb virtual_index (float_of_Z 0) in
            let previous := (if above then -1 else if below then 0 else k)%Z in
            let next := (if above then -1 else if below then 0 else k + 1)%Z in
            let gamma := fsub virtual_index (float_of_Z previous) in
            lerp (item xs previous) (item xs next) gamma
        end
    end.

(** [series.fillna(value)] with a float value: NaN fills nothing. *)
Definition fillna_float (value : float) (s : Series) : Series :=
  match value with
  | Some m => mkSeries (sdtype s) (map (fun c => if isna c then Num m else c) (svalues s))
  | None => s
  end.

(** [series.fillna('Unknown')] *)
Definition fillna_str (value : string) (s : Series) : Series :=
  mkSeries (sdtype s) (map (fun c => if isna c then Str value else c) (svalues s)).

(** [df[cols] = df[cols].fillna(df[cols].median())] as one frame update:
    the right-hand side is evaluated on the frame as it stands, column by
    column, and then stored column by column. *)
Definition fill_columns (fill : Series -> Series) (cols : list string)
    (df : DataFrame) : DataFrame :=
  fold_left (fun acc name =>
               match getitem df name with
               | Some s => setitem acc name (fill s)
               | None => acc
               end) cols df.

(** Lines 105-110 for one column: the mask
    [(df[col] >= lower_bound) & (df[col] <= upper_bound)]. *)
Definition iqr_bounds (s : Series) : float * float :=
  let Q1 := quantile (float_of_Q 0.25) s in
  let Q3 := quantile (float_of_Q 0.75) s in
  let IQR := fsub Q3 Q1 in
  let lower_bound := fsub Q1 (fmul (float_of_Q 1.5) IQR) in
  let upper_bound := fadd Q3 (fmul (float_of_Q 1.5) IQR) in
  (lower_bound, upper_bound).

Definition within (bounds : float * float) (c : cell) : bool :=
  cell_ge c (fst bounds) && cell_le c (snd bounds).

Definition outlier_mask (s : Series) : list bool :=
  map (within (iqr_bounds s)) (svalues s).

(* ================================================================== *)
(** ** Python [str.strip] and [str.title], pandas [.str]

    Both are defined here for ASCII text, the characters of code below
    128: there [str.isspace] holds of the ten characters of [is_space]
    and the cased characters are the letters A-Z and a-z. *)

(** A character of code below 128, and a string of such characters. *)
Definition is_ascii (c : ascii) : bool := nat_of_ascii c <? 128.

Definition ascii_string (s : string) : Prop :=
  Forall (fun c => is_ascii c = true) (list_ascii_of_string s).

(** [str.isspace] on ASCII: tab, LF, VT, FF, CR, FS, GS, RS, US, space. *)
Definition is_space (c : ascii) : bool :=
  let n := nat_of_ascii c in
  ((9 <=? n) && (n <=? 13)) || ((28 <=? n) && (n <=? 32)).

Definition is_upper (c : ascii) : bool :=
  let n := nat_of_ascii c in (65 <=? n) && (n <=? 90).
Definition is_lower (c : ascii) : bool :=
  let n := nat_of_ascii c in (97 <=? n) && (n <=? 122).
(** A cased character: a letter. *)
Definition is_cased (c : ascii) : bool := is_upper c || is_lower c.

Definition to_upper (c : ascii) : ascii :=
  if is_lower c then ascii_of_nat (nat_of_ascii c - 32) else c.
Definition to_lower (c : ascii) : ascii :=
  if is_upper c then ascii_of_nat (nat_of_ascii c + 32) else c.

Fixpoint lstrip (s : string) : string :=
  match s with
  | String c s' => if is_space c then lstrip s' else s
  | EmptyString => EmptyString
  end.

Fixpoint rstrip (s : string) : string :=
  match s with
  | String c s' =>
      match rstrip s' with
      | EmptyString => if is_space c then EmptyString else String c EmptyString
      | r => String c r
      end
  | EmptyString => EmptyString
  end.

(** [s.strip()] of an ASCII string *)
Definition strip (s : string) : string := rstrip (lstrip s).

(** [s.title()] of an ASCII string, CPython's loop: a character that
    follows a cased character is lowercased, any other is uppercased; the
    flag is whether the character just read is cased. *)
Fixpoint title_from (previous_is_cased : bool) (s : string) : string :=
  match s with
  | String c s' =>
      String (if previous_is_cased then to_lower c else to_upper c)
             (title_from (is_cased c) s')
  | EmptyString => EmptyString
  end.

Definition title (s : string) : string := title_from false s.

Definition is_str (c : cell) : bool :=
  match c with Str _ => true | _ => false end.
Definition is_num (c : cell) : bool :=
  match c with Num _ => true | _ => false end.
Definition is_stamp (c : cell) : bool :=
  match c with Stamp _ => true | _ => false end.

(** The check behind [series.str]: the values, missing ones skipped, must
    be inferred as strings, as empty or as mixed; a column of numbers
    only, or of timestamps only, is refused. *)
Definition str_accessor_ok (s : Series) : bool :=
  let vs := filter (fun c => isna c = false) (svalues s) in
  match vs with
  | [] => true
  | _ => negb (forallb is_num vs) && negb (forallb is_stamp vs)
  end.

(** An element-wise [.str] method: applied to strings, NaN elsewhere. *)
Definition str_map (f : string -> string) (s : Series) : Series :=
  mkSeries (sdtype s)
           (map (fun c => match c with Str x => Str (f x) | _ => NA end) (svalues s)).

(** [series.str.strip().str.title()], [inl] for the AttributeError of the
    accessor. The second accessor sees the output of the first. *)
Definition str_strip_title (s : Series) : exn + Series :=
  if str_accessor_ok s then
    let s1 := str_map strip s in
    if str_accessor_ok s1 then inr (str_map title s1)
    else inl (PyErr "AttributeError" "Can only use .str accessor with string values!")
  else inl (PyErr "AttributeError" "Can only use .str accessor with string values!").

(* ================================================================== *)
(** ** [pd.cut] with explicit bin edges and labels *)

(** A bin edge: a float that is not NaN, [float('inf')] included. *)
Definition edge : Type := f64.

(** [edge < x] *)
Definition edge_lt (e : edge) (x : f64) : bool := f64_ltb e x.

(** [bins.searchsorted(x, side='left')] on sorted edges: the first
    position whose edge is not below [x]. [pd.cut] uses side 'left'
    because its default is [right=True]. *)
Fixpoint searchsorted_left (bins : list edge) (x : f64) : nat :=
  match bins with
  | [] => 0
  | b :: bins' => if edge_lt b x then S (searchsorted_left bins' x) else 0
  end.

(** One value through [_bins_to_cuts]: position 0 (at or below the first
    edge, [include_lowest] being False), position [len(bins)] and NaN
    give NaN; position [i] gives [labels[i - 1]]. *)
Definition cut_cell (bins : list edge) (labels : list string) (c : cell) : cell :=
  match c with
  | Num x =>
      let ids := searchsorted_left bins x in
      if (ids =? length bins) || (ids =? 0) then NA
      else nth (ids - 1) (map Str labels) NA
  | _ => NA
  end.

(** [pd.cut(series, bins=..., labels=...)]: a categorical series; a
    series that is not numeric is refused, its values cannot be compared
    with the numeric edges. *)
Definition pd_cut (s : Series) (bins : list edge) (labels : list string)
  : exn + Series :=
  if is_number (sdtype s)
  then inr (mkSeries category (map (cut_cell bins labels) (svalues s)))
  else inl (PyErr "TypeError" "'<' not supported between instances of 'float' and 'str'").

(** The arguments of the call at lines 127-129. *)
Definition price_bins : list edge :=
  [f64_of_Q 0; f64_of_Q 50; f64_of_Q 200; f64_of_Q 500; FInf false].
Definition price_labels : list string :=
  ["Low"; "Medium"; "High"; "Premium"].

(* ================================================================== *)
(** ** [pd.concat(frames, ignore_index=True)] *)

(** The union of the frames' columns, in order of first appearance. *)
Definition union_names (frames : list DataFrame) : list string :=
  fold_left (fun acc df =>
               fold_left (fun acc' n =>
                            if existsb (String.eqb n) acc' then acc' else acc' ++ [n])
                         (column_names df) acc)
            frames [].

(** The values a frame contributes to a column: its own, or missing
    markers when it has no such column. *)
Definition column_or_na (name : string) (df : DataFrame) : list cell :=
  match getitem df name with
  | Some s => svalues s
  | None => repeat NA (len df)
  end.

Fixpoint dtypes_of (name : string) (frames : list DataFrame) : list dtype :=
  match frames with
  | [] => []
  | df :: rest =>
      match getitem df name with
      | Some s => sdtype s :: dtypes_of name rest
      | None => dtypes_of name rest
      end
  end.

(** The dtype of a concatenated column: the one its contributors share,
    [object] when they disagree. *)
Definition concat_dtype (name : string) (frames : list DataFrame) : dtype :=
  match dtypes_of name frames with
  | [] => object
  | d :: ds => if forallb (dtype_eqb d) ds then d else object
  end.

Definition pd_concat (frames : list DataFrame) : exn + DataFrame :=
  match frames with
  | [] => inl (PyErr "ValueError" "No objects to concatenate")
  | _ =>
      inr (mkFrame
             (map Z.of_nat (seq 0 (list_sum (map len frames))))
             (map (fun name =>
                     (name, mkSeries (concat_dtype name frames)
                                     (flat_map (column_or_na name) frames)))
                  (union_names frames)))
  end.

(* ================================================================== *)
(** ** JSON values and the metrics file *)

#[local] Set Warnings "-register-all".
Inductive json : Type :=
| JNull
| JBool (b : bool)
| JNum (x : Q)
| JStr (s : string)
| JList (items : list json)
| JDict (fields : list (string * json)).
#[local] Set Warnings "register-all".

(** [value[key]] of a dict given by its items. *)
Fixpoint lookup_field (key : string) (fields : list (string * json)) : option json :=
  match fields with
  | [] => None
  | (k, v) :: rest => if String.eqb k key then Some v else lookup_field key rest
  end.

(** A file as a reader and a writer find it. *)
Inductive file : Type :=
| Absent                          (* [Path(...).exists()] is False *)
| Broken (e : exn)                (* opening the file or parsing it raises [e] *)
| Holds (v : json)                (* parsing the file returns [v] *)
| ReadOnly (f : file) (e : exn).  (* reads as [f]; [open(..., 'w')] raises [e] *)

(** The built-in subclasses of OSError, and its aliases. *)
Definition os_errors : list string :=
  ["OSError"; "IOError"; "EnvironmentError"; "BlockingIOError"; "ChildProcessError";
   "ConnectionError"; "BrokenPipeError"; "ConnectionAbortedError";
   "ConnectionRefusedError"; "ConnectionResetError"; "FileExistsError";
   "FileNotFoundError"; "InterruptedError"; "IsADirectoryError";
   "NotADirectoryError"; "PermissionError"; "ProcessLookupError"; "TimeoutError"].

(** [isinstance(e, (json.JSONDecodeError, IOError, OSError))], the test
    of the [except] clause at line 340. *)
Definition caught_on_read (e : exn) : bool :=
  match e with
  | PyErr cls _ =>
      String.eqb cls "JSONDecodeError" || existsb (String.eqb cls) os_errors
  end.

(* ================================================================== *)
(** ** Interpreter state and the monad of the methods *)

(** A reference to a DataFrame object. *)
Definition ref : Type := nat.

(** What lies outside the process: the clock, the sources and the sinks.
    Each operation observes and changes the world. A sink receives the
    table, and the target the configuration gives, whatever value that
    is. *)
Class Platform (World : Type) : Type := {
  datetime_now : World -> Z * World;
  read_csv : string -> World -> (exn + DataFrame) * World;
  mock_api : string -> World -> (exn + DataFrame) * World;
  to_sql : DataFrame -> string -> json -> World -> (exn + unit) * World;
  to_csv : DataFrame -> json -> World -> (exn + unit) * World;
  to_json : DataFrame -> json -> World -> (exn + unit) * World;
  isoformat : Z -> string
}.

Record state (World : Type) : Type := mkState {
  heap : list DataFrame;      (* the DataFrame objects, by reference *)
  metrics_file : file;
  world : World
}.
Arguments mkState {World}.
Arguments heap {World}.
Arguments metrics_file {World}.
Arguments world {World}.

(** A computation: runs in a state, ends in an exception or a value, and
    leaves a state either way. *)
Definition M (World A : Type) : Type :=
  state World -> (exn + A) * state World.

Definition ret {World A} (a : A) : M World A := fun st => (inr a, st).

Definition raise {World A} (e : exn) : M World A := fun st => (inl e, st).

Definition bind {World A B} (m : M World A) (k : A -> M World B) : M World B :=
  fun st =>
    match m st with
    | (inr a, st') => k a st'
    | (inl e, st') => (inl e, st')
    end.

(** [try: body except Exception as e: handler(e)] *)
Definition try_except {World A} (body : M World A) (handler : exn -> M World A)
  : M World A :=
  fun st =>
    match body st with
    | (inr a, st') => (inr a, st')
    | (inl e, st') => handler e st'
    end.

Declare Scope py_scope.
Delimit Scope py_scope with py.
Notation "x <- m ;; k" := (bind m (fun x => k))
  (at level 100, m at next level, right associativity) : py_scope.
Notation "m ;;; k" := (bind m (fun _ => k))
  (at level 100, right associativity) : py_scope.
Local Open Scope py_scope.

(** Lifting the result of a pandas call. *)
Definition lift {World A} (r : exn + A) : M World A :=
  match r with inr a => ret a | inl e => raise e end.

(** A new object. *)
Definition alloc {World} (df : DataFrame) : M World ref :=
  fun st => (inr (length (heap st)),
             mkState (heap st ++ [df]) (metrics_file st) (world st)).

(** The object a reference points to. *)
Definition deref {World} (r : ref) : M World DataFrame :=
  fun st =>
    match heap st !! r with
    | Some df => (inr df, st)
    | None => (inl (PyErr "ReferenceError" "no such object"), st)
    end.

(** In-place update of the object behind a reference. *)
Definition mutate {World} (r : ref) (f : DataFrame -> DataFrame) : M World unit :=
  fun st =>
    match heap st !! r with
    | Some df => (inr tt, mkState (<[r := f df]> (heap st)) (metrics_file st) (world st))
    | None => (inl (PyErr "ReferenceError" "no such object"), st)
    end.

(** An operation of the platform, run on the world. *)
Definition external {World A} (op : World -> A * World) : M World A :=
  fun st =>
    let (a, w) := op (world st) in
    (inr a, mkState (heap st) (metrics_file st) w).

(** [df[name]] inside a method. *)
Definition column {World} (df : DataFrame) (name : string) : M World Series :=
  match getitem df name with
  | Some s => ret s
  | None => raise (PyErr "KeyError" name)
  end.

(** [for x in xs: body(x)] *)
Fixpoint for_each {World A} (xs : list A) (body : A -> M World unit) : M World unit :=
  match xs with
  | [] => ret tt
  | x :: xs' => body x ;;; for_each xs' body
  end.

(** A loop that rebinds one variable on every turn. *)
Fixpoint for_fold {World A B} (xs : list A) (body : B -> A -> M World B) (b : B)
  : M World B :=
  match xs with
  | [] => ret b
  | x :: xs' => b' <- body b x ;; for_fold xs' body b'
  end.

(* ================================================================== *)
(** ** The methods of [etl_pipeline.py]

    Every method body of the source is wrapped in
    [try: ... except Exception as e: logger.error(...); raise], which
    re-raises what it caught: the wrapper and the logger calls leave the
    result and the state as they are and are not written out. *)

Section Methods.
Context {World : Type} {platform : Platform World}.

(** *** [DataExtractor] *)

(** [extract_csv(file_path)]: a new frame read from the file. *)
Definition extract_csv (file_path : string) : M World ref :=
  r <- external (read_csv file_path) ;;
  df <- lift r ;;
  alloc df.

(** [extract_api(url)]: a new frame of mock data. *)
Definition extract_api (url : string) : M World ref :=
  r <- external (mock_api url) ;;
  df <- lift r ;;
  alloc df.

(** *** [DataTransformer.clean_data], lines 87-118 *)

(** One turn of the loop at lines 104-110; [df] is rebound to a new
    frame. *)
Definition remove_outliers_step (df : ref) (col : string) : M World ref :=
  d <- deref df ;;
  s <- column d col ;;
  alloc (getitem_mask d (outlier_mask s)).

Definition clean_data (df : ref) : M World ref :=
  d <- deref df ;;
  (* df = df.drop_duplicates() *)
  df <- alloc (drop_duplicates d) ;;
  d <- deref df ;;
  let numeric_columns := select_dtypes is_number d in
  (* df[numeric_columns] = df[numeric_columns].fillna(df[numeric_columns].median()) *)
  mutate df (fill_columns (fun s => fillna_float (median s) s) numeric_columns) ;;;
  d <- deref df ;;
  let categorical_columns := select_dtypes is_object d in
  (* df[categorical_columns] = df[categorical_columns].fillna('Unknown') *)
  mutate df (fill_columns (fillna_str "Unknown") categorical_columns) ;;;
  (* for col in numeric_columns: ... df = df[...] *)
  df <- for_fold numeric_columns remove_outliers_step df ;;
  ret df.

(** *** [DataTransformer.transform_data], lines 120-144 *)

(** [df[col] = df[col].str.strip().str.title()] *)
Definition normalize_text_column (df : ref) (col : string) : M World unit :=
  if existsb (String.eqb col) ["processed_at"] then ret tt
  else
    d <- deref df ;;
    s <- column d col ;;
    s' <- lift (str_strip_title s) ;;
    mutate df (fun d => setitem d col s').

Definition transform_data (df : ref) : M World ref :=
  d <- deref df ;;
  (if has_column d "price" then
     s <- column d "price" ;;
     c <- lift (pd_cut s price_bins price_labels) ;;
     mutate df (fun d => setitem d "price_category" c)
   else ret tt) ;;;
  (* df['processed_at'] = datetime.now() *)
  t <- external datetime_now ;;
  mutate df (fun d => setitem d "processed_at"
                        (mkSeries datetime64 (repeat (Stamp t) (len d)))) ;;;
  d <- deref df ;;
  let text_columns := select_dtypes is_object d in
  for_each text_columns (normalize_text_column df) ;;;
  ret df.

(** *** [DataLoader] *)

Definition load_to_database (df : ref) (table_name : string) (connection_string : json)
  : M World unit :=
  d <- deref df ;;
  r <- external (to_sql d table_name connection_string) ;;
  lift r.

Definition load_to_csv (df : ref) (file_path : json) : M World unit :=
  d <- deref df ;;
  r <- external (to_csv d file_path) ;;
  lift r.

Definition load_to_json (df : ref) (file_path : json) : M World unit :=
  d <- deref df ;;
  r <- external (to_json d file_path) ;;
  lift r.

(** *** [ETLPipeline.log_metrics], lines 330-348 *)

(** Lines 335-341: what the method takes as the existing metrics. A
    missing file gives the empty list; so does a file whose reading
    raises an exception the [except] clause catches; any other exception
    of the reading is raised. *)
Fixpoint existing_metrics (f : file) : exn + json :=
  match f with
  | Absent => inr (JList [])
  | Broken e => if caught_on_read e then inr (JList []) else inl e
  | Holds v => inr v
  | ReadOnly f' _ => existing_metrics f'
  end.

(** What [existing_metrics.append] raises on a value that is not a list. *)
Definition refused : exn := PyErr "AttributeError" "object has no attribute 'append'".

(** Lines 344-348: [existing_metrics.append(metrics)] needs a list; the
    file is then opened for writing and the array written back whole
    (once the file is open, the write is taken to complete: the values
    are those [json.load] and the caller's dict of numbers and strings
    give). *)
Definition log_metrics (metrics : json) : M World unit :=
  fun st =>
    match existing_metrics (metrics_file st) with
    | inl e => (inl e, st)
    | inr (JList items) =>
        match metrics_file st with
        | ReadOnly _ e => (inl e, st)
        | _ => (inr tt, mkState (heap st) (Holds (JList (items ++ [metrics]))) (world st))
        end
    | inr _ => (inl refused, st)
    end.

(** *** [ETLPipeline.run_pipeline], lines 251-328

    [self.config], the dict [load_config] returned, is given by its
    items. *)

(** [value[key]] for a string key: a dict gives the value under the key
    or raises KeyError, whose text is the repr of the key; any other
    value raises TypeError. *)
Definition subscript (v : json) (key : string) : exn + json :=
  match v with
  | JDict fields =>
      match lookup_field key fields with
      | Some x => inr x
      | None => inl (PyErr "KeyError" ("'" +:+ key +:+ "'"))
      end
  | JList _ => inl (PyErr "TypeError" "list indices must be integers or slices, not str")
  | JStr _ => inl (PyErr "TypeError" "string indices must be integers, not 'str'")
  | JNull => inl (PyErr "TypeError" "'NoneType' object is not subscriptable")
  | JBool _ => inl (PyErr "TypeError" "'bool' object is not subscriptable")
  | JNum _ => inl (PyErr "TypeError" "'float' object is not subscriptable")
  end.

(** [self.config['targets'][key]], lines 289, 294 and 299. *)
Definition config_target (config : list (string * json)) (key : string) : exn + json :=
  match subscript (JDict config) "targets" with
  | inr targets => subscript targets key
  | inl e => inl e
  end.

(** [(end_time - start_time).total_seconds()] *)
Definition total_seconds (start_time end_time : Z) : Q :=
  (inject_Z (end_time - start_time) / 1000000)%Q.

Definition success_metrics (start_time end_time : Z) (rows_processed : nat) : json :=
  JDict [("execution_time", JNum (total_seconds start_time end_time));
         ("rows_processed", JNum (inject_Z (Z.of_nat rows_processed)));
         ("start_time", JStr (isoformat start_time));
         ("end_time", JStr (isoformat end_time));
         ("status", JStr "success")].

Definition failed_metrics (start_time end_time : Z) (e : exn) : json :=
  JDict [("execution_time", JNum 0);
         ("rows_processed", JNum 0);
         ("start_time", JStr (isoformat start_time));
         ("end_time", JStr (isoformat end_time));
         ("status", JStr "failed");
         ("error", JStr (str_of_exn e))].

(** [raise Exception("No data sources available")] *)
Definition NoDataAvailable : exn := PyErr "Exception" "No data sources available".

(** One guarded extraction (lines 261-265 and 268-272): the frame is
    appended on success, the exception is logged and dropped otherwise. *)
Definition guarded_extract (extract : M World ref) (extracted_data : list ref)
  : M World (list ref) :=
  try_except
    (data <- extract ;; ret (extracted_data ++ [data]))
    (fun e => ret extracted_data).

(** [pd.concat(extracted_data, ignore_index=True)] on references. *)
Definition concat_refs (extracted_data : list ref) : M World ref :=
  frames <- for_fold extracted_data
              (fun acc r => d <- deref r ;; ret (acc ++ [d])) [] ;;
  df <- lift (pd_concat frames) ;;
  alloc df.

(** Lines 258-279. *)
Definition extract_and_combine : M World ref :=
  let extracted_data := [] in
  extracted_data <- guarded_extract (extract_csv "data/raw/input.csv") extracted_data ;;
  extracted_data <- guarded_extract (extract_api "https://api.example.com/data") extracted_data ;;
  match extracted_data with
  | [] => raise NoDataAvailable
  | _ => concat_refs extracted_data
  end.

(** Lines 286-290, 292-295 and 297-300: each call evaluates its target,
    [self.config['targets'][...]], and then runs. *)
Definition write_database (config : list (string * json)) (transformed_data : ref)
  : M World unit :=
  database_path <- lift (config_target config "database_path") ;;
  load_to_database transformed_data "processed_products" database_path.

Definition write_csv (config : list (string * json)) (transformed_data : ref)
  : M World unit :=
  csv_path <- lift (config_target config "csv_path") ;;
  load_to_csv transformed_data csv_path.

Definition write_json (config : list (string * json)) (transformed_data : ref)
  : M World unit :=
  json_path <- lift (config_target config "json_path") ;;
  load_to_json transformed_data json_path.

(** Lines 254-315, the body of the [try]. *)
Definition run_pipeline_body (config : list (string * json)) (start_time : Z)
  : M World unit :=
  combined_data <- extract_and_combine ;;
  cleaned_data <- clean_data combined_data ;;
  transformed_data <- transform_data cleaned_data ;;
  write_database config transformed_data ;;;
  write_csv config transformed_data ;;;
  write_json config transformed_data ;;;
  end_time <- external datetime_now ;;
  d <- deref transformed_data ;;
  log_metrics (success_metrics start_time end_time (len d)).

(** Lines 317-328, the handler. *)
Definition run_pipeline_handler (start_time : Z) (e : exn) : M World unit :=
  end_time <- external datetime_now ;;
  log_metrics (failed_metrics start_time end_time e) ;;;
  raise e.

Definition run_pipeline (config : list (string * json)) : M World unit :=
  start_time <- external datetime_now ;;
  try_except (run_pipeline_body config start_time) (run_pipeline_handler start_time).

End Methods.

(* ================================================================== *)
(** ** What the methods compute, as functions on frames

    The methods above act on objects in the store. The functions below
    give the frame a method leaves behind; the lemmas [clean_data_run] and
    [transform_data_run] prove that the methods compute them. *)

(** The loop at lines 104-110 on a frame: each column's bounds are taken
    from the frame the previous turns have left. *)
Fixpoint remove_outliers (cols : list string) (d : DataFrame) : exn + DataFrame :=
  match cols with
  | [] => inr d
  | col :: cols' =>
      match getitem d col with
      | Some s => remove_outliers cols' (getitem_mask d (outlier_mask s))
      | None => inl (PyErr "KeyError" col)
      end
  end.

(** Lines 97-101 on a frame. *)
Definition impute_numeric (d : DataFrame) : DataFrame :=
  fill_columns (fun s => fillna_float (median s) s) (select_dtypes is_number d) d.

Definition impute_text (d : DataFrame) : DataFrame :=
  fill_columns (fillna_str "Unknown") (select_dtypes is_object d) d.

Definition impute (d : DataFrame) : DataFrame :=
  impute_text (impute_numeric d).

(** Lines 93-110 on a frame. *)
Definition clean_frame (t : DataFrame) : exn + DataFrame :=
  let d := drop_duplicates t in
  remove_outliers (select_dtypes is_number d) (impute d).

(** Line 138 on a frame. *)
Definition normalize_step (d : DataFrame) (col : string) : exn + DataFrame :=
  if existsb (String.eqb col) ["processed_at"] then inr d
  else
    match getitem d col with
    | Some s =>
        match str_strip_title s with
        | inr s' => inr (setitem d col s')
        | inl e => inl e
        end
    | None => inl (PyErr "KeyError" col)
    end.

(** Lines 136-138 on a frame: the frame reached, and the exception that
    stopped the loop if one did. *)
Fixpoint normalize_loop (cols : list string) (d : DataFrame) : option exn * DataFrame :=
  match cols with
  | [] => (None, d)
  | col :: cols' =>
      match normalize_step d col with
      | inr d' => normalize_loop cols' d'
      | inl e => (Some e, d)
      end
  end.

(** Lines 126-129 on a frame. *)
Definition add_price_category (t : DataFrame) : exn + DataFrame :=
  if has_column t "price" then
    match getitem t "price" with
    | Some s =>
        match pd_cut s price_bins price_labels with
        | inr c => inr (setitem t "price_category" c)
        | inl e => inl e
        end
    | None => inl (PyErr "KeyError" "price")
    end
  else inr t.

(** Line 132 on a frame, [t] being the clock reading. *)
Definition add_processed_at (t : Z) (d : DataFrame) : DataFrame :=
  setitem d "processed_at" (mkSeries datetime64 (repeat (Stamp t) (len d))).

(** Lines 126-138 on a frame, after a successful [pd.cut]. *)
Definition enrich_frame (now : Z) (d1 : DataFrame) : option exn * DataFrame :=
  let d2 := add_processed_at now d1 in
  normalize_loop (select_dtypes is_object d2) d2.

(* ================================================================== *)
(** ** Definitions that follow the specification's wording

    These are compared with the code above; none of them is used by it. *)

(** Binning as the specification describes it: [0,50) Low, [50,200)
    Medium, [200,500) High, [500,inf) Premium, below 0 missing. *)
Definition spec_price_category (c : cell) : cell :=
  match c with
  | Num x =>
      if f64_ltb x (f64_of_Q 0) then NA
      else if f64_ltb x (f64_of_Q 50) then Str "Low"
      else if f64_ltb x (f64_of_Q 200) then Str "Medium"
      else if f64_ltb x (f64_of_Q 500) then Str "High"
      else Str "Premium"
  | _ => NA
  end.

(** Title-casing as the specification describes it: the first character
    of each whitespace-separated token capitalized, the rest lowercased. *)
Fixpoint spec_title_from (at_token_start : bool) (s : string) : string :=
  match s with
  | String c s' =>
      String (if at_token_start then to_upper c else to_lower c)
             (spec_title_from (is_space c) s')
  | EmptyString => EmptyString
  end.

Definition spec_title (s : string) : string := spec_title_from true s.

(** Outlier removal with every column's bounds taken from the table as
    it is before any row is dropped. *)
Definition independent_mask (cols : list string) (d : DataFrame) : list bool :=
  fold_left (fun mask col =>
               match getitem d col with
               | Some s => map (fun p => fst p && snd p) (combine mask (outlier_mask s))
               | None => mask
               end)
            cols (repeat true (len d)).

Definition remove_outliers_independent (cols : list string) (d : DataFrame) : DataFrame :=
  getitem_mask d (independent_mask cols d).

(** Number of missing markers in a column; 0 for an absent column. *)
Definition count_na (d : DataFrame) (name : string) : nat :=
  match getitem d name with
  | Some s => length (filter (fun c => isna c = true) (svalues s))
  | None => 0
  end.

(* ================================================================== *)
(** ** Auxiliary notions for the statements *)

(** A frame as pandas builds it: every column is as long as the index and
    column names are distinct. *)
Definition wf_frame (d : DataFrame) : Prop :=
  Forall (fun c => length (svalues (snd c)) = len d) (columns d)
  /\ NoDup (column_names d).

(** A text column: object dtype, holding strings and missing markers. *)
Definition text_series (s : Series) : Prop :=
  sdtype s = object /\ Forall (fun c => is_str c = true \/ c = NA) (svalues s).

(** Every object column of the frame is a text column. *)
Definition text_columns_ok (d : DataFrame) : Prop :=
  Forall (fun c => sdtype (snd c) = object -> text_series (snd c)) (columns d).

(** Every string of the frame is an ASCII string. *)
Definition ascii_cell (c : cell) : Prop :=
  match c with Str v => ascii_string v | _ => True end.

Definition ascii_frame (d : DataFrame) : Prop :=
  Forall (fun c => Forall ascii_cell (svalues (snd c))) (columns d).

(** [record[key]] of a JSON object. *)
Definition field (key : string) (record : json) : option json :=
  match record with
  | JDict fields => lookup_field key fields
  | _ => None
  end.

(** The exception [log_metrics] raises on a file, if it raises: that of
    the reading when line 340 does not catch it, that of [append] when
    the file holds JSON that is not an array, that of opening the file
    for writing. *)
Definition recorder_error (f : file) : option exn :=
  match existing_metrics f with
  | inl e => Some e
  | inr (JList _) => match f with ReadOnly _ e => Some e | _ => None end
  | inr _ => Some refused
  end.

(** The metrics log is one the recorder can extend, and the records it
    is read to hold: none when the file is absent or its reading raises
    an exception that line 340 catches, the items of the JSON array it
    holds otherwise. *)
Definition log_items (f : file) : option (list json) :=
  match recorder_error f, existing_metrics f with
  | None, inr (JList items) => Some items
  | _, _ => None
  end.

Section Derived.
Context {World : Type} {platform : Platform World}.

(** The computation never writes the metrics file. *)
Definition keeps_file {A} (m : M World A) : Prop :=
  forall st, metrics_file (snd (m st)) = metrics_file st.

(** Calling the recorder once per record, in order. *)
Fixpoint record_all (records : list json) : M World unit :=
  match records with
  | [] => ret tt
  | r :: rest => log_metrics r ;;; record_all rest
  end.

(** Collection as the specification describes it, over any sequence of
    sources: each source is invoked in order, each call guarded as the
    calls of lines 261-272 are; the frames of the sources that returned
    are concatenated, and without any the collection raises. None of
    the code uses it: [run_pipeline] has its two sources written out. *)
Definition spec_collect (sources : list (M World ref)) : M World ref :=
  extracted_data <- for_fold sources
                      (fun acc extract => guarded_extract extract acc) [] ;;
  match extracted_data with
  | [] => raise NoDataAvailable
  | _ => concat_refs extracted_data
  end.

(** Every source invoked once, in order, whatever the earlier ones did;
    the outcomes in order and the state reached. *)
Fixpoint attempts (sources : list (M World ref)) (st : state World)
  : list (exn + ref) * state World :=
  match sources with
  | [] => ([], st)
  | src :: rest =>
      let (o, st1) := src st in
      let (os, st2) := attempts rest st1 in
      (o :: os, st2)
  end.

Fixpoint successes (outcomes : list (exn + ref)) : list ref :=
  match outcomes with
  | [] => []
  | inr r :: rest => r :: successes rest
  | inl _ :: rest => successes rest
  end.

(** The state after the first clock reading of [run_pipeline]. *)
Definition started (st : state World) : state World :=
  mkState (heap st) (metrics_file st) (snd (datetime_now (world st))).

(** Lines 258-300 and 303: the stages up to the second clock reading,
    yielding the transformed frame and the end time. *)
Definition run_stages (config : list (string * json)) : M World (ref * Z) :=
  combined_data <- extract_and_combine ;;
  cleaned_data <- clean_data combined_data ;;
  transformed_data <- transform_data cleaned_data ;;
  write_database config transformed_data ;;;
  write_csv config transformed_data ;;;
  write_json config transformed_data ;;;
  end_time <- external datetime_now ;;
  ret (transformed_data, end_time).

(** A stage that raises ends the stages: what [run_stages] returns is
    the exception and the state of the first stage that raised. *)
Definition first_failure_ends_stages (config : list (string * json)) (st : state World)
  : Prop :=
  (forall e s, extract_and_combine st = (inl e, s) -> run_stages config st = (inl e, s))
  /\ (forall c s1 e s,
        extract_and_combine st = (inr c, s1) ->
        clean_data c s1 = (inl e, s) -> run_stages config st = (inl e, s))
  /\ (forall c s1 cl s2 e s,
        extract_and_combine st = (inr c, s1) ->
        clean_data c s1 = (inr cl, s2) ->
        transform_data cl s2 = (inl e, s) -> run_stages config st = (inl e, s))
  /\ (forall c s1 cl s2 t s3 e s,
        extract_and_combine st = (inr c, s1) ->
        clean_data c s1 = (inr cl, s2) ->
        transform_data cl s2 = (inr t, s3) ->
        write_database config t s3 = (inl e, s) ->
        run_stages config st = (inl e, s))
  /\ (forall c s1 cl s2 t s3 u s4 e s,
        extract_and_combine st = (inr c, s1) ->
        clean_data c s1 = (inr cl, s2) ->
        transform_data cl s2 = (inr t, s3) ->
        write_database config t s3 = (inr u, s4) ->
        write_csv config t s4 = (inl e, s) ->
        run_stages config st = (inl e, s))
  /\ (forall c s1 cl s2 t s3 u s4 u' s5 e s,
        extract_and_combine st = (inr c, s1) ->
        clean_data c s1 = (inr cl, s2) ->
        transform_data cl s2 = (inr t, s3) ->
        write_database config t s3 = (inr u, s4) ->
        write_csv config t s4 = (inr u', s5) ->
        write_json config t s5 = (inl e, s) ->
        run_stages config st = (inl e, s)).

End Derived.

(* ================================================================== *)
(** ** Further notions for the statements *)

(** No two rows of the list are equal ([duplicated().sum() == 0]). *)
Fixpoint distinct_rows (rs : list row) : bool :=
  match rs with
  | [] => true
  | r :: rs' => negb (existsb (row_eqb r) rs') && distinct_rows rs'
  end.

(** The list is in ascending order. *)
Fixpoint ascending (l : list f64) : Prop :=
  match l with
  | [] => True
  | x :: l' => Forall (f64_le x) l' /\ ascending l'
  end.

(** The value of a table in a column and a row: the missing marker on a
    table without the column. *)
Definition cell_at (d : DataFrame) (c : string) (i : nat) : cell :=
  match getitem d c with
  | Some s => nth i (svalues s) NA
  | None => NA
  end.

(** [df] is the frames of the list stacked in the order of the list and
    renumbered: the index counts the rows from 0; the column names are
    those that occur in some frame, each once; row [i] of the [k]-th
    frame is the row at [i] plus the lengths of the frames before it,
    holding the frame's values, and missing markers in the columns the
    frame lacks; a column that has one dtype in every frame holding it
    keeps that dtype. *)
Definition stacked (frames : list DataFrame) (df : DataFrame) : Prop :=
  index df = map Z.of_nat (seq 0 (list_sum (map len frames)))
  /\ NoDup (column_names df)
  /\ (forall c, c ∈ column_names df <-> exists d, d ∈ frames /\ c ∈ column_names d)
  /\ (forall c, c ∈ column_names df ->
                exists s, getitem df c = Some s
                          /\ length (svalues s) = list_sum (map len frames)
                          /\ (forall t, (forall d s', d ∈ frames -> getitem d c = Some s' ->
                                                     sdtype s' = t) ->
                                        sdtype s = t))
  /\ (forall c k d i,
        c ∈ column_names df ->
        frames !! k = Some d -> (i < len d)%nat ->
        cell_at df c (list_sum (map len (take k frames)) + i) = cell_at d c i).

(** The columns [transform_data] adds to a table, in the order it adds
    them: those it assigns that the table does not have yet. *)
Definition new_columns (t : DataFrame) : list string :=
  (if has_column t "price" && negb (has_column t "price_category")
   then ["price_category"] else [])
  ++ (if has_column t "processed_at" then [] else ["processed_at"]).

(** The inner loop of [union_names]: the names not met so far are
    appended, in order. *)
Definition add_names (names acc : list string) : list string :=
  fold_left (fun acc' n => if existsb (String.eqb n) acc' then acc' else acc' ++ [n])
            names acc.

(* ================================================================== *)
(** ** [ETLPipeline.load_config], lines 200-227

    A configuration is a Python dict, written as its items in insertion
    order; YAML values are written as JSON values, mappings having string
    keys. *)

Definition default_config : list (string * json) :=
  [("sources",
    JDict [("api_url", JStr "https://api.example.com/data");
           ("database_path", JStr "data/source.db");
           ("csv_path", JStr "data/raw/input.csv")]);
   ("targets",
    JDict [("database_path", JStr "data/output/warehouse.db");
           ("csv_path", JStr "data/output/processed_data.csv");
           ("json_path", JStr "data/output/processed_data.json")]);
   ("schedule",
    JDict [("enabled", JBool true);
           ("interval_minutes", JNum 60)])].

(** [d[key] = v] on the items of a dict: the value of a present key is
    replaced where it stands, a new key goes last. *)
Fixpoint dict_set (key : string) (v : json) (fields : list (string * json))
  : list (string * json) :=
  match fields with
  | [] => [(key, v)]
  | (k, x) :: rest =>
      if String.eqb k key then (k, v) :: rest else (k, x) :: dict_set key v rest
  end.

(** [{**a, **b}] *)
Definition dict_merge (a b : list (string * json)) : list (string * json) :=
  fold_left (fun acc kv => dict_set (fst kv) (snd kv) acc) b a.

(** [load_config(config_path)], the argument being the configuration
    file as the method finds it: [Absent] when [Path(config_path).exists()]
    is False, [Broken e] when opening it or [yaml.safe_load] raises [e],
    [Holds v] when [yaml.safe_load] returns [v]. The [except Exception]
    absorbs what the reading raises, and the TypeError of unpacking a
    value that is not a mapping. *)
Fixpoint load_config (config_file : file) : list (string * json) :=
  match config_file with
  | Holds (JDict config) => dict_merge default_config config
  | ReadOnly f _ => load_config f
  | _ => default_config
  end.

(* ================================================================== *)
(** ** Sample tables and a sample platform *)

Module Demo.

(** The table of the end-to-end scenario. *)
Definition products : DataFrame :=
  mkFrame [0; 1; 2]%Z
    [("id", mkSeries number [num 1; num 1; num 2]);
     ("price", mkSeries number [num 10; num 10; num 600]);
     ("name", mkSeries object [Str " a "; Str " a "; Str "b"])].

(** Prices on and around the bin edges. *)
Definition prices : DataFrame :=
  mkFrame [0; 1; 2; 3]%Z
    [("price", mkSeries number [num 0; num 50; num 500; num (-5)])].

Definition people : DataFrame :=
  mkFrame [0; 1; 2; 3]%Z
    [("name", mkSeries object [Str "  john smith  "; Str "Unknown"; Str "o'neil"; NA])].

(** A timestamp column with missing values, two of them in equal rows. *)
Definition events : DataFrame :=
  mkFrame [0; 1; 2]%Z
    [("id", mkSeries number [num 1; num 1; num 2]);
     ("name", mkSeries object [Str "a"; Str "a"; Str "b"]);
     ("created_at", mkSeries datetime64 [NA; NA; Stamp 5])].

(** Two numeric columns: the last row is an outlier of both; once it is
    gone, 10 becomes an outlier of [b]. *)
Definition readings : DataFrame :=
  mkFrame [0; 1; 2; 3; 4]%Z
    [("label", mkSeries object [Str "p"; Str "q"; Str "r"; Str "s"; Str "t"]);
     ("a", mkSeries number [num 1; num 2; num 3; num 4; num 100]);
     ("b", mkSeries number [num 0; num 0; num 0; num 10; num 50])].

(** The same rows with the two numeric columns in the other order. *)
Definition readings_swapped : DataFrame :=
  mkFrame [0; 1; 2; 3; 4]%Z
    [("label", mkSeries object [Str "p"; Str "q"; Str "r"; Str "s"; Str "t"]);
     ("b", mkSeries number [num 0; num 0; num 0; num 10; num 50]);
     ("a", mkSeries number [num 1; num 2; num 3; num 4; num 100])].

(** An object column of numbers only, which the [.str] accessor refuses. *)
Definition codes : DataFrame :=
  mkFrame [0; 1]%Z
    [("price", mkSeries number [num 10; num 600]);
     ("code", mkSeries object [num 7; num 8])].

(** A world that is a clock ticking once per reading: the CSV source
    delivers [products], the API is down, the sinks accept everything. *)
Definition csv_only : Platform nat := {|
  datetime_now := fun w => (Z.of_nat w * 1000000, S w)%Z;
  read_csv := fun _ w => (inr products, w);
  mock_api := fun _ w => (inl (PyErr "ConnectionError" "api unreachable"), w);
  to_sql := fun _ _ _ w => (inr tt, w);
  to_csv := fun _ _ w => (inr tt, w);
  to_json := fun _ _ w => (inr tt, w);
  isoformat := fun t => if (t =? 0)%Z then "1970-01-01T00:00:00" else "1970-01-01T00:00:01"
|}.

(** A world in which no source answers. *)
Definition no_source : Platform nat := {|
  datetime_now := fun w => (Z.of_nat w * 1000000, S w)%Z;
  read_csv := fun _ w => (inl (PyErr "FileNotFoundError" "data/raw/input.csv"), w);
  mock_api := fun _ w => (inl (PyErr "ConnectionError" "api unreachable"), w);
  to_sql := fun _ _ _ w => (inr tt, w);
  to_csv := fun _ _ w => (inr tt, w);
  to_json := fun _ _ w => (inr tt, w);
  isoformat := fun t => if (t =? 0)%Z then "1970-01-01T00:00:00" else "1970-01-01T00:00:01"
|}.

(** A state whose metrics file holds the JSON object [{}]. *)
Definition boot_with_object_log : state nat :=
  mkState [] (Holds (JDict [])) 0.

(** A state with the given objects, no metrics file yet, the clock at 0. *)
Definition boot (objects : list DataFrame) : state nat :=
  mkState objects Absent 0.

End Demo.

(* ================================================================== *)
(** ** Further sample tables *)

Module Samples.

(** A numeric column without any value. *)
Definition unmeasured : DataFrame :=
  mkFrame [0; 1; 2]%Z
    [("id", mkSeries number [num 1; num 2; num 3]);
     ("weight", mkSeries number [NA; NA; NA]);
     ("name", mkSeries object [Str "a"; Str "b"; Str "c"])].

(** Two rows that differ only by a missing value which imputation fills
    with the value of the other row. *)
Definition half_known : DataFrame :=
  mkFrame [0; 1]%Z
    [("id", mkSeries number [num 1; num 1]);
     ("score", mkSeries number [NA; num 5]);
     ("name", mkSeries object [Str "a"; Str "a"])].

(** [Demo.readings] with its last row repeated. *)
Definition readings_repeated : DataFrame :=
  mkFrame [0; 1; 2; 3; 4; 5]%Z
    [("label", mkSeries object [Str "p"; Str "q"; Str "r"; Str "s"; Str "t"; Str "t"]);
     ("a", mkSeries number [num 1; num 2; num 3; num 4; num 100; num 100]);
     ("b", mkSeries number [num 0; num 0; num 0; num 10; num 50; num 50])].

(** A numeric and a text column, each with a missing value. *)
Definition gaps : DataFrame :=
  mkFrame [0; 1; 2]%Z
    [("value", mkSeries number [num 10; NA; num 30]);
     ("label", mkSeries object [Str "X"; NA; Str "Z"])].

(** A price column that holds text. *)
Definition worded_prices : DataFrame :=
  mkFrame [0; 1]%Z
    [("price", mkSeries object [Str "cheap"; Str "dear"]);
     ("name", mkSeries object [Str " ann "; Str "bob"])].

(** An object column of numbers before a text column. *)
Definition coded_names : DataFrame :=
  mkFrame [0; 1]%Z
    [("code", mkSeries object [num 7; num 8]);
     ("name", mkSeries object [Str " ann "; Str "bob"])].

(** The text of a target. *)
Definition target (path : json) : string :=
  match path with JStr p => p | _ => "(not a string)" end.

(** A world that is the journal of the calls made to it, oldest first:
    the CSV source delivers [Demo.products], the API is down, the sinks
    accept everything, the clock reads the number of calls so far. *)
Definition journal : Platform (list string) := {|
  datetime_now := fun w => (Z.of_nat (length w), w ++ ["now"]);
  read_csv := fun _ w => (inr Demo.products, w ++ ["read_csv"]);
  mock_api := fun _ w => (inl (PyErr "ConnectionError" "api unreachable"), w ++ ["api"]);
  to_sql := fun _ table path w => (inr tt, w ++ ["to_sql " +:+ table +:+ " " +:+ target path]);
  to_csv := fun _ path w => (inr tt, w ++ ["to_csv " +:+ target path]);
  to_json := fun _ path w => (inr tt, w ++ ["to_json " +:+ target path]);
  isoformat := fun t => "1970-01-01T00:00:00"
|}.

End Samples.

(* ================================================================== *)
(** * Facts *)

(** ** The order of float64 values *)

Lemma f64_compare_key (x y : f64) :
  exists c,
    SFcompare (to_spec (Some x)) (to_spec (Some y)) = Some c
    /\ match c with
       | Lt => key_lt (f64_key x) (f64_key y)
       | Eq => f64_key x = f64_key y
       | Gt => key_lt (f64_key y) (f64_key x)
       end.
Proof.
  destruct x as [sx|sx|sx mx ex], y as [sy|sy|sy my ey];
    destruct sx, sy; simpl;
    try (eexists; split; [reflexivity|]; simpl; first [reflexivity | lia]).
  - eexists. split; [reflexivity|].
    change (Pos.compare_cont Eq mx my) with (mx ?= my)%positive.
    destruct (Z.compare_spec ex ey) as [He|He|He]; simpl; try lia.
    destruct (Pos.compare_spec mx my) as [Hm|Hm|Hm]; simpl; subst; try reflexivity; lia.
  - eexists. split; [reflexivity|].
    change (Pos.compare_cont Eq mx my) with (mx ?= my)%positive.
    destruct (Z.compare_spec ex ey) as [He|He|He]; simpl; try lia.
    destruct (Pos.compare_spec mx my) as [Hm|Hm|Hm]; simpl; subst; try reflexivity; lia.
Qed.

Lemma f64_leb_key (x y : f64) :
  f64_leb x y = true <-> key_le (f64_key x) (f64_key y).
Proof.
  unfold f64_leb, SFleb.
  destruct (f64_compare_key x y) as (c & -> & Hc).
  destruct (f64_key x) as [[a1 a2] a3], (f64_key y) as [[b1 b2] b3].
  destruct c; simpl in *.
  - injection Hc as -> -> ->. split; [lia | reflexivity].
  - split; [lia | reflexivity].
  - split; [discriminate | lia].
Qed.

Lemma f64_ltb_key (x y : f64) :
  f64_ltb x y = true <-> key_lt (f64_key x) (f64_key y).
Proof.
  unfold f64_ltb, SFltb.
  destruct (f64_compare_key x y) as (c & -> & Hc).
  destruct (f64_key x) as [[a1 a2] a3], (f64_key y) as [[b1 b2] b3].
  destruct c; simpl in *.
  - injection Hc as -> -> ->. split; [discriminate | lia].
  - split; [lia | reflexivity].
  - split; [discriminate | lia].
Qed.

Lemma f64_eqb_key (x y : f64) :
  f64_eqb x y = true <-> f64_key x = f64_key y.
Proof.
  unfold f64_eqb, SFeqb.
  destruct (f64_compare_key x y) as (c & -> & Hc).
  destruct (f64_key x) as [[a1 a2] a3], (f64_key y) as [[b1 b2] b3].
  destruct c; simpl in *.
  - split; [intros _; exact Hc | reflexivity].
  - split; [discriminate | intros [= -> -> ->]; lia].
  - split; [discriminate | intros [= -> -> ->]; lia].
Qed.

Lemma f64_eqb_refl (x : f64) : f64_eqb x x = true.
Proof. apply f64_eqb_key. reflexivity. Qed.

Lemma f64_eqb_sym (x y : f64) : f64_eqb x y = f64_eqb y x.
Proof.
  apply eq_true_iff_eq. rewrite !f64_eqb_key. split; intros H; symmetry; exact H.
Qed.

Lemma f64_eqb_trans (x y z : f64) :
  f64_eqb x y = true -> f64_eqb y z = true -> f64_eqb x z = true.
Proof. rewrite !f64_eqb_key. congruence. Qed.

Lemma f64_le_refl (x : f64) : f64_le x x.
Proof.
  apply f64_leb_key. destruct (f64_key x) as [[a1 a2] a3]. simpl. lia.
Qed.

Lemma f64_le_trans (x y z : f64) : f64_le x y -> f64_le y z -> f64_le x z.
Proof.
  unfold f64_le. rewrite !f64_leb_key.
  destruct (f64_key x) as [[a1 a2] a3], (f64_key y) as [[b1 b2] b3],
           (f64_key z) as [[c1 c2] c3].
  simpl. lia.
Qed.

Lemma f64_le_total (x y : f64) : f64_leb x y = false -> f64_le y x.
Proof.
  intros H. apply f64_leb_key.
  assert (Hn : ~ key_le (f64_key x) (f64_key y)).
  { intros Hk. apply f64_leb_key in Hk. congruence. }
  destruct (f64_key x) as [[a1 a2] a3], (f64_key y) as [[b1 b2] b3].
  simpl in *. lia.
Qed.

Lemma f64_ltb_leb (x y : f64) : f64_ltb x y = negb (f64_leb y x).
Proof.
  apply eq_true_iff_eq. rewrite negb_true_iff, f64_ltb_key. split.
  - intros Hlt. destruct (f64_leb y x) eqn:E; [|reflexivity].
    apply f64_leb_key in E.
    destruct (f64_key x) as [[a1 a2] a3], (f64_key y) as [[b1 b2] b3].
    simpl in *. lia.
  - intros Hle.
    assert (Hn : ~ key_le (f64_key y) (f64_key x)).
    { intros Hk. apply f64_leb_key in Hk. congruence. }
    destruct (f64_key x) as [[a1 a2] a3], (f64_key y) as [[b1 b2] b3].
    simpl in *. lia.
Qed.

Lemma f64_lt_le_trans (x y z : f64) : f64_lt x y -> f64_le y z -> f64_lt x z.
Proof.
  unfold f64_lt, f64_le. rewrite !f64_ltb_key, f64_leb_key.
  destruct (f64_key x) as [[a1 a2] a3], (f64_key y) as [[b1 b2] b3],
           (f64_key z) as [[c1 c2] c3].
  simpl. lia.
Qed.

Lemma f64_le_lt_trans (x y z : f64) : f64_le x y -> f64_lt y z -> f64_lt x z.
Proof.
  unfold f64_lt, f64_le. rewrite !f64_ltb_key, f64_leb_key.
  destruct (f64_key x) as [[a1 a2] a3], (f64_key y) as [[b1 b2] b3],
           (f64_key z) as [[c1 c2] c3].
  simpl. lia.
Qed.

Lemma f64_lt_le (x y : f64) : f64_lt x y -> f64_le x y.
Proof.
  unfold f64_lt, f64_le. rewrite f64_ltb_key, f64_leb_key.
  destruct (f64_key x) as [[a1 a2] a3], (f64_key y) as [[b1 b2] b3].
  simpl. lia.
Qed.

Lemma f64_lt_not_le (x y : f64) : f64_lt x y -> f64_leb y x = false.
Proof.
  unfold f64_lt. rewrite f64_ltb_leb, negb_true_iff. auto.
Qed.
(** ** Equality of cells and rows *)

Lemma cell_eqb_refl (a : cell) : cell_eqb a a = true.
Proof.
  destruct a as [x|s|t|]; simpl; auto.
  - apply f64_eqb_refl.
  - apply String.eqb_refl.
  - apply Z.eqb_refl.
Qed.

Lemma cell_eqb_sym (a b : cell) : cell_eqb a b = cell_eqb b a.
Proof.
  destruct a as [x|s|t|], b as [y|u|v|]; simpl; auto.
  - apply f64_eqb_sym.
  - apply String.eqb_sym.
  - apply Z.eqb_sym.
Qed.

Lemma cell_eqb_trans (a b c : cell) :
  cell_eqb a b = true -> cell_eqb b c = true -> cell_eqb a c = true.
Proof.
  destruct a as [x|s|t|], b as [y|u|v|], c as [z|p|q|]; simpl; try congruence.
  - apply f64_eqb_trans.
  - rewrite !String.eqb_eq. congruence.
  - rewrite !Z.eqb_eq. congruence.
Qed.

Lemma row_eqb_refl (r : row) : row_eqb r r = true.
Proof.
  induction r as [|a r IH]; simpl; auto.
  rewrite cell_eqb_refl. exact IH.
Qed.

Lemma row_eqb_sym (r1 r2 : row) : row_eqb r1 r2 = row_eqb r2 r1.
Proof.
  revert r2. induction r1 as [|a r1 IH]; intros [|b r2]; simpl; auto.
  rewrite cell_eqb_sym, IH. reflexivity.
Qed.

Lemma row_eqb_trans (r1 r2 r3 : row) :
  row_eqb r1 r2 = true -> row_eqb r2 r3 = true -> row_eqb r1 r3 = true.
Proof.
  revert r2 r3. induction r1 as [|a r1 IH]; intros [|b r2] [|c r3]; simpl; try congruence.
  rewrite !andb_true_iff. intros [E1 E2] [E3 E4]. split.
  - eapply cell_eqb_trans; eauto.
  - eapply IH; eauto.
Qed.

(** ** Boolean masks *)

Lemma take_mask_nil_r {A} (mask : list bool) : take_mask mask (@nil A) = [].
Proof. destruct mask as [|[] ?]; reflexivity. Qed.

Lemma take_mask_map {A B} (f : A -> B) (mask : list bool) (l : list A) :
  take_mask mask (map f l) = map f (take_mask mask l).
Proof.
  revert l. induction mask as [|b mask IH]; intros [|x l]; simpl; auto.
  destruct b; simpl; rewrite IH; reflexivity.
Qed.

Lemma take_mask_length {A B} (mask : list bool) (l : list A) (l' : list B) :
  length l = length l' ->
  length (take_mask mask l) = length (take_mask mask l').
Proof.
  revert l l'. induction mask as [|b mask IH]; intros [|x l] [|y l']; simpl; auto; try discriminate.
  intros E. injection E as E. destruct b; simpl; auto.
Qed.

Lemma take_mask_Forall {A} (P : A -> Prop) (mask : list bool) (l : list A) :
  Forall P l -> Forall P (take_mask mask l).
Proof.
  revert l. induction mask as [|b mask IH]; intros [|x l] HF; simpl; auto.
  inversion HF; subst. destruct b; auto.
Qed.

(** The values a mask built from a test keeps all pass the test. *)
Lemma take_mask_test {A} (f : A -> bool) (l : list A) :
  Forall (fun x => f x = true) (take_mask (map f l) l).
Proof.
  induction l as [|x l IH]; simpl; auto.
  destruct (f x) eqn:E; auto.
Qed.

Lemma take_mask_all_true {A} (l : list A) :
  take_mask (repeat true (length l)) l = l.
Proof. induction l as [|x l IH]; simpl; congruence. Qed.

(** ** Rows of a masked frame *)

Lemma take_mask_cons_cols (b : bool) (mask : list bool) (k : nat) (cols : list (list cell)) :
  Forall (fun c => length c = S k) cols ->
  map (take_mask (b :: mask)) cols
  = if b then map (fun c => hd NA c :: take_mask mask (tl c)) cols
    else map (fun c => take_mask mask (tl c)) cols.
Proof.
  intros HF. destruct b.
  - induction HF as [|c cols Hc _ IH]; [reflexivity|].
    destruct c as [|x c]; [discriminate|].
    cbn [map]. rewrite IH. reflexivity.
  - induction HF as [|c cols Hc _ IH]; [reflexivity|].
    destruct c as [|x c]; [discriminate|].
    cbn [map]. rewrite IH. reflexivity.
Qed.

Lemma tl_lengths (k : nat) (cols : list (list cell)) :
  Forall (fun c => length c = S k) cols ->
  Forall (fun c => length c = k) (map (fun c => tl c) cols).
Proof.
  induction 1 as [|c cols Hc _ IH]; simpl; constructor; auto.
  destruct c; simpl in *; congruence.
Qed.

Lemma transpose_take_mask (mask : list bool) :
  forall (idx : list Z) (cols : list (list cell)),
    Forall (fun c => length c = length idx) cols ->
    transpose (length (take_mask mask idx)) (map (take_mask mask) cols)
    = take_mask mask (transpose (length idx) cols).
Proof.
  induction mask as [|b mask IH]; intros idx cols Hlen.
  - reflexivity.
  - destruct idx as [|i idx].
    + simpl. reflexivity.
    + simpl length in Hlen.
      rewrite (take_mask_cons_cols b mask (length idx) cols Hlen).
      pose proof (tl_lengths _ _ Hlen) as Htl.
      specialize (IH idx _ Htl). rewrite map_map in IH.
      destruct b; simpl.
      * rewrite !map_map. simpl. rewrite IH. reflexivity.
      * exact IH.
Qed.

Lemma rows_getitem_mask (d : DataFrame) (mask : list bool) :
  Forall (fun c => length (svalues (snd c)) = len d) (columns d) ->
  rows (getitem_mask d mask) = take_mask mask (rows d).
Proof.
  intros Hlen. unfold rows, getitem_mask, len. simpl.
  rewrite map_map. simpl.
  rewrite <- (map_map (fun c => svalues (snd c)) (take_mask mask)).
  apply transpose_take_mask.
  apply Forall_map. exact Hlen.
Qed.

Lemma rows_length (d : DataFrame) : length (rows d) = len d.
Proof.
  unfold rows. generalize (map (fun c => svalues (snd c)) (columns d)).
  induction (len d) as [|n IH]; intros cols; simpl; auto.
Qed.

(** ** [duplicated]: which rows the scan flags *)

Lemma existsb_row_trans (r r0 : row) (seen : list row) :
  row_eqb r r0 = true ->
  existsb (row_eqb r0) seen = true ->
  existsb (row_eqb r) seen = true.
Proof.
  intros E. rewrite !existsb_exists. intros (s & Hs & E0).
  exists s. split; [exact Hs|]. eapply row_eqb_trans; eauto.
Qed.

(** The flag of row [i] tells whether the row equals a key of the initial
    table or one of the rows before it. *)
Lemma duplicated_scan_lookup (rs : list row) :
  forall (seen : list row) (i : nat) (r : row),
    rs !! i = Some r ->
    duplicated_scan seen rs !! i
    = Some (existsb (row_eqb r) seen || existsb (row_eqb r) (take i rs)).
Proof.
  induction rs as [|r0 rs IH]; intros seen i r Hi; [discriminate|].
  destruct i as [|i]; simpl in Hi.
  - injection Hi as ->. simpl.
    destruct (existsb (row_eqb r) seen); reflexivity.
  - simpl. destruct (existsb (row_eqb r0) seen) eqn:E0; simpl.
    + rewrite (IH seen i r Hi). f_equal.
      destruct (row_eqb r r0) eqn:E; simpl; [|reflexivity].
      rewrite (existsb_row_trans r r0 seen E E0). reflexivity.
    + rewrite (IH (seen ++ [r0]) i r Hi). f_equal.
      rewrite existsb_app. simpl. rewrite orb_false_r.
      rewrite orb_assoc. reflexivity.
Qed.

Lemma duplicated_scan_length (rs : list row) :
  forall seen, length (duplicated_scan seen rs) = length rs.
Proof.
  induction rs as [|r rs IH]; intros seen; simpl; auto.
  destruct (existsb (row_eqb r) seen); simpl; rewrite IH; reflexivity.
Qed.

Lemma existsb_take_earlier (r : row) (rs : list row) (i : nat) :
  existsb (row_eqb r) (take i rs) = true
  <-> exists j r', j < i /\ rs !! j = Some r' /\ row_eqb r' r = true.
Proof.
  rewrite existsb_exists. split.
  - intros (r' & Hin & E).
    apply list_elem_of_In in Hin. apply list_elem_of_lookup in Hin as [j Hj].
    apply lookup_take_Some in Hj as [Hj Hlt].
    exists j, r'. rewrite row_eqb_sym. auto.
  - intros (j & r' & Hlt & Hj & E).
    exists r'. split.
    + apply list_elem_of_In. apply list_elem_of_lookup. exists j.
      apply lookup_take_Some. auto.
    + rewrite row_eqb_sym. exact E.
Qed.

(** ** Columns of a frame: lookup and assignment *)

Lemma assoc_assign_eq (name : string) (s : Series) (cols : list (string * Series)) :
  assoc name (assign name s cols) = Some s.
Proof.
  induction cols as [|[n old] cols IH]; simpl.
  - rewrite String.eqb_refl. reflexivity.
  - destruct (String.eqb n name) eqn:E; simpl; rewrite E; auto.
Qed.

Lemma assoc_assign_ne (n name : string) (s : Series) (cols : list (string * Series)) :
  n <> name -> assoc n (assign name s cols) = assoc n cols.
Proof.
  intros Hne. induction cols as [|[m old] cols IH]; simpl.
  - destruct (String.eqb name n) eqn:E; auto.
    apply String.eqb_eq in E. congruence.
  - destruct (String.eqb m name) eqn:E; simpl.
    + apply String.eqb_eq in E. subst m.
      destruct (String.eqb name n) eqn:E'; auto.
      apply String.eqb_eq in E'. congruence.
    + rewrite IH. reflexivity.
Qed.

Lemma getitem_setitem_eq (d : DataFrame) (name : string) (s : Series) :
  getitem (setitem d name s) name = Some s.
Proof. apply assoc_assign_eq. Qed.

Lemma getitem_setitem_ne (d : DataFrame) (n name : string) (s : Series) :
  n <> name -> getitem (setitem d name s) n = getitem d n.
Proof. apply assoc_assign_ne. Qed.

Lemma assoc_Some_elem (n : string) (s : Series) (cols : list (string * Series)) :
  assoc n cols = Some s -> (n, s) ∈ cols.
Proof.
  induction cols as [|[m s'] cols IH]; simpl; [discriminate|].
  destruct (String.eqb m n) eqn:E.
  - apply String.eqb_eq in E. intros [= ->]. subst. left.
  - intros Hs. right. auto.
Qed.

Lemma assoc_None_names (n : string) (cols : list (string * Series)) :
  assoc n cols = None <-> n ∉ map fst cols.
Proof.
  induction cols as [|[m s'] cols IH]; simpl.
  - split; [intros _; apply not_elem_of_nil | reflexivity].
  - rewrite not_elem_of_cons. destruct (String.eqb m n) eqn:E.
    + apply String.eqb_eq in E. split; [discriminate|]. intros [Hne _]. congruence.
    + apply String.eqb_neq in E. rewrite IH. split; [intros; split; auto | tauto].
Qed.

Lemma elem_assoc_NoDup (n : string) (s : Series) (cols : list (string * Series)) :
  NoDup (map fst cols) -> (n, s) ∈ cols -> assoc n cols = Some s.
Proof.
  induction cols as [|[m s'] cols IH]; simpl; intros Hnd Hin.
  - apply elem_of_nil in Hin. contradiction.
  - apply NoDup_cons in Hnd as [Hm Hnd].
    apply elem_of_cons in Hin as [[= -> ->]|Hin].
    + rewrite String.eqb_refl. reflexivity.
    + destruct (String.eqb m n) eqn:E.
      * apply String.eqb_eq in E. subst m. exfalso. apply Hm.
        apply list_elem_of_fmap. exists (n, s). auto.
      * auto.
Qed.

Lemma names_assign_present (name : string) (s : Series) (cols : list (string * Series)) :
  name ∈ map fst cols -> map fst (assign name s cols) = map fst cols.
Proof.
  induction cols as [|[m s'] cols IH]; simpl; intros Hin.
  - apply elem_of_nil in Hin. contradiction.
  - destruct (String.eqb m name) eqn:E; simpl; [reflexivity|].
    apply String.eqb_neq in E.
    apply elem_of_cons in Hin as [->|Hin]; [congruence|].
    rewrite IH; auto.
Qed.

Lemma names_assign_absent (name : string) (s : Series) (cols : list (string * Series)) :
  name ∉ map fst cols -> map fst (assign name s cols) = map fst cols ++ [name].
Proof.
  induction cols as [|[m s'] cols IH]; simpl; intros Hin; [reflexivity|].
  apply not_elem_of_cons in Hin as [Hne Hin].
  destruct (String.eqb m name) eqn:E.
  - apply String.eqb_eq in E. congruence.
  - simpl. rewrite IH; auto.
Qed.

Lemma NoDup_names_assign (name : string) (s : Series) (cols : list (string * Series)) :
  NoDup (map fst cols) -> NoDup (map fst (assign name s cols)).
Proof.
  intros Hnd. destruct (decide (name ∈ map fst cols)) as [Hin|Hin].
  - rewrite names_assign_present; auto.
  - rewrite names_assign_absent; auto.
    apply NoDup_app. split; [exact Hnd|]. split.
    + intros x Hx Hx'. apply list_elem_of_singleton in Hx'. subst. auto.
    + apply NoDup_singleton.
Qed.

(** With distinct names, a property of every column found by name is a
    property of every column. *)
Lemma Forall_columns_getitem (P : Series -> Prop) (d : DataFrame) :
  NoDup (column_names d) ->
  (forall c s, getitem d c = Some s -> P s) ->
  Forall (fun c => P (snd c)) (columns d).
Proof.
  intros Hnd HP. apply Forall_forall. intros [n s] Hin. simpl.
  apply (HP n). apply elem_assoc_NoDup; auto.
Qed.

Lemma getitem_Forall (P : Series -> Prop) (d : DataFrame) (c : string) (s : Series) :
  Forall (fun c => P (snd c)) (columns d) -> getitem d c = Some s -> P s.
Proof.
  intros HF Hs. apply assoc_Some_elem in Hs.
  rewrite Forall_forall in HF. apply (HF _ Hs).
Qed.

(** *** [select_dtypes] *)

Lemma elem_of_select_dtypes (p : dtype -> bool) (d : DataFrame) (c : string) :
  NoDup (column_names d) ->
  c ∈ select_dtypes p d <-> exists s, getitem d c = Some s /\ p (sdtype s) = true.
Proof.
  intros Hnd. unfold select_dtypes. rewrite list_elem_of_fmap. split.
  - intros ([n s] & -> & Hin). apply list_elem_of_filter in Hin as [Hp Hin].
    exists s. split; [|exact Hp]. apply elem_assoc_NoDup; auto.
  - intros (s & Hs & Hp). exists (c, s). split; [reflexivity|].
    apply list_elem_of_filter. split; [exact Hp|]. apply assoc_Some_elem. exact Hs.
Qed.

Lemma select_dtypes_present (p : dtype -> bool) (d : DataFrame) (c : string) :
  c ∈ select_dtypes p d -> c ∈ column_names d.
Proof.
  unfold select_dtypes, column_names. rewrite !list_elem_of_fmap.
  intros (x & -> & Hin). apply list_elem_of_filter in Hin as [_ Hin]. eauto.
Qed.

Lemma NoDup_select_dtypes (p : dtype -> bool) (d : DataFrame) :
  NoDup (column_names d) -> NoDup (select_dtypes p d).
Proof.
  unfold select_dtypes, column_names.
  induction (columns d) as [|[n s] cols IH]; simpl; intros Hnd.
  - constructor.
  - apply NoDup_cons in Hnd as [Hn Hnd].
    rewrite filter_cons. destruct (decide (p (sdtype (snd (n, s))) = true)); simpl; auto.
    apply NoDup_cons. split; auto.
    intros Hin. apply Hn. apply list_elem_of_fmap in Hin as (x & -> & Hx).
    apply list_elem_of_filter in Hx as [_ Hx]. apply list_elem_of_fmap. eauto.
Qed.

(** *** Mask selection on a frame *)

Lemma getitem_getitem_mask (d : DataFrame) (mask : list bool) (c : string) :
  getitem (getitem_mask d mask) c = mask_series mask <$> getitem d c.
Proof.
  unfold getitem, getitem_mask. simpl.
  induction (columns d) as [|[n s] cols IH]; simpl; [reflexivity|].
  destruct (String.eqb n c); auto.
Qed.

Lemma column_names_getitem_mask (d : DataFrame) (mask : list bool) :
  column_names (getitem_mask d mask) = column_names d.
Proof.
  unfold column_names, getitem_mask. simpl. rewrite map_map. reflexivity.
Qed.

Lemma select_dtypes_getitem_mask (p : dtype -> bool) (d : DataFrame) (mask : list bool) :
  select_dtypes p (getitem_mask d mask) = select_dtypes p d.
Proof.
  unfold select_dtypes, getitem_mask. simpl.
  induction (columns d) as [|[n s] cols IH]; simpl; [reflexivity|].
  rewrite !filter_cons. simpl.
  destruct (decide (p (sdtype s) = true)); simpl; rewrite IH; reflexivity.
Qed.

Lemma wf_getitem_mask (d : DataFrame) (mask : list bool) :
  wf_frame d -> wf_frame (getitem_mask d mask).
Proof.
  intros [Hlen Hnd]. split.
  - unfold getitem_mask, len. simpl. apply Forall_map. simpl.
    eapply Forall_impl; [exact Hlen|]. simpl. intros c Hc.
    apply take_mask_length. exact Hc.
  - rewrite column_names_getitem_mask. exact Hnd.
Qed.

(** *** [fill_columns] *)

Lemma in_names_getitem (d : DataFrame) (c : string) :
  c ∈ column_names d <-> exists s, getitem d c = Some s.
Proof.
  unfold getitem, column_names. split.
  - intros Hin. destruct (assoc c (columns d)) eqn:E; eauto.
    apply assoc_None_names in E. contradiction.
  - intros [s Hs]. destruct (decide (c ∈ map fst (columns d))) as [|Hn]; auto.
    apply assoc_None_names in Hn. congruence.
Qed.

Lemma fill_columns_fold (fill : Series -> Series) (d : DataFrame) (c : string)
    (cols : list string) :
  forall acc : DataFrame,
    getitem (fold_left (fun acc name =>
                          match getitem d name with
                          | Some s => setitem acc name (fill s)
                          | None => acc
                          end) cols acc) c
    = if decide (c ∈ cols)
      then match getitem d c with
           | Some s => Some (fill s)
           | None => getitem acc c
           end
      else getitem acc c.
Proof.
  induction cols as [|n cols IH]; intros acc; simpl.
  - destruct (decide (c ∈ [])) as [Hin|_]; [|reflexivity].
    apply elem_of_nil in Hin. contradiction.
  - rewrite IH. destruct (decide (c = n)) as [->|Hne].
    + destruct (decide (n ∈ n :: cols)) as [_|Hn]; [|exfalso; apply Hn; left].
      destruct (getitem d n) as [s|] eqn:E.
      * rewrite getitem_setitem_eq. destruct (decide (n ∈ cols)); reflexivity.
      * destruct (decide (n ∈ cols)); reflexivity.
    + assert (Hacc : getitem (match getitem d n with
                              | Some s => setitem acc n (fill s)
                              | None => acc
                              end) c = getitem acc c).
      { destruct (getitem d n); [apply getitem_setitem_ne; exact Hne | reflexivity]. }
      rewrite Hacc.
      destruct (decide (c ∈ cols)) as [Hin|Hnin];
        destruct (decide (c ∈ n :: cols)) as [Hin'|Hnin']; try reflexivity.
      * exfalso. apply Hnin'. right. exact Hin.
      * exfalso. apply elem_of_cons in Hin' as [?|?]; auto.
Qed.

Lemma getitem_fill_columns (fill : Series -> Series) (cols : list string)
    (d : DataFrame) (c : string) :
  getitem (fill_columns fill cols d) c
  = if decide (c ∈ cols) then fill <$> getitem d c else getitem d c.
Proof.
  unfold fill_columns. rewrite fill_columns_fold.
  destruct (decide (c ∈ cols)); [|reflexivity].
  destruct (getitem d c); reflexivity.
Qed.

Lemma fill_columns_shape (fill : Series -> Series) (d : DataFrame) (cols : list string) :
  forall acc : DataFrame,
    column_names acc = column_names d ->
    let r := fold_left (fun acc name =>
                          match getitem d name with
                          | Some s => setitem acc name (fill s)
                          | None => acc
                          end) cols acc in
    column_names r = column_names d /\ index r = index acc.
Proof.
  induction cols as [|n cols IH]; intros acc Hacc; simpl; [auto|].
  destruct (getitem d n) as [s|] eqn:E.
  - assert (Hn : n ∈ column_names acc).
    { rewrite Hacc. apply in_names_getitem. eauto. }
    assert (Hnames : column_names (setitem acc n (fill s)) = column_names d).
    { unfold column_names, setitem. simpl. rewrite names_assign_present; auto. }
    destruct (IH _ Hnames) as [H1 H2]. split; [exact H1|]. rewrite H2. reflexivity.
  - apply IH. exact Hacc.
Qed.

Lemma column_names_fill_columns (fill : Series -> Series) (cols : list string) (d : DataFrame) :
  column_names (fill_columns fill cols d) = column_names d.
Proof. apply (fill_columns_shape fill d cols d eq_refl). Qed.

Lemma index_fill_columns (fill : Series -> Series) (cols : list string) (d : DataFrame) :
  index (fill_columns fill cols d) = index d.
Proof. apply (fill_columns_shape fill d cols d eq_refl). Qed.

Lemma wf_fill_columns (fill : Series -> Series) (cols : list string) (d : DataFrame) :
  (forall s, length (svalues (fill s)) = length (svalues s)) ->
  wf_frame d -> wf_frame (fill_columns fill cols d).
Proof.
  intros Hfill [Hlen Hnd].
  assert (Hnd' : NoDup (column_names (fill_columns fill cols d))).
  { rewrite column_names_fill_columns. exact Hnd. }
  split; [|exact Hnd'].
  apply (Forall_columns_getitem
           (fun s => length (svalues s) = len (fill_columns fill cols d))); [exact Hnd'|].
  intros c s'. rewrite getitem_fill_columns. unfold len. rewrite index_fill_columns.
  destruct (decide (c ∈ cols)).
  - destruct (getitem d c) as [s|] eqn:E; [|discriminate].
    intros [= <-]. rewrite Hfill.
    apply (getitem_Forall (fun s => length (svalues s) = len d) d c s Hlen E).
  - intros E.
    apply (getitem_Forall (fun s => length (svalues s) = len d) d c s' Hlen E).
Qed.

Lemma fillna_float_length (v : float) (s : Series) :
  length (svalues (fillna_float v s)) = length (svalues s).
Proof. destruct v; simpl; [apply length_map | reflexivity]. Qed.

Lemma fillna_float_dtype (v : float) (s : Series) :
  sdtype (fillna_float v s) = sdtype s.
Proof. destruct v; reflexivity. Qed.

Lemma fillna_str_length (v : string) (s : Series) :
  length (svalues (fillna_str v s)) = length (svalues s).
Proof. simpl. apply length_map. Qed.

(** *** [impute] *)

Lemma column_names_impute (d : DataFrame) : column_names (impute d) = column_names d.
Proof.
  unfold impute, impute_text, impute_numeric.
  rewrite !column_names_fill_columns. reflexivity.
Qed.

Lemma index_impute (d : DataFrame) : index (impute d) = index d.
Proof.
  unfold impute, impute_text, impute_numeric.
  rewrite !index_fill_columns. reflexivity.
Qed.

Lemma wf_impute (d : DataFrame) : wf_frame d -> wf_frame (impute d).
Proof.
  intros Hwf. unfold impute, impute_text, impute_numeric.
  apply wf_fill_columns; [apply fillna_str_length|].
  apply wf_fill_columns; [intros s; apply fillna_float_length|]. exact Hwf.
Qed.

(** What imputation does to one column, by its dtype. *)
Lemma getitem_impute (d : DataFrame) (c : string) (s : Series) :
  NoDup (column_names d) ->
  getitem d c = Some s ->
  getitem (impute d) c
  = Some (match sdtype s with
          | number => fillna_float (median s) s
          | object => fillna_str "Unknown" s
          | _ => s
          end).
Proof.
  intros Hnd Hs.
  assert (H1 : getitem (impute_numeric d) c
               = Some (if is_number (sdtype s) then fillna_float (median s) s else s)).
  { unfold impute_numeric. rewrite getitem_fill_columns, Hs.
    destruct (decide (c ∈ select_dtypes is_number d)) as [Hin|Hnin].
    - apply elem_of_select_dtypes in Hin as (s' & Hs' & Hp); [|exact Hnd].
      rewrite Hs in Hs'. injection Hs' as <-. rewrite Hp. reflexivity.
    - destruct (is_number (sdtype s)) eqn:Hp; [|reflexivity].
      exfalso. apply Hnin. apply elem_of_select_dtypes; eauto. }
  assert (Hnd1 : NoDup (column_names (impute_numeric d))).
  { unfold impute_numeric. rewrite column_names_fill_columns. exact Hnd. }
  unfold impute, impute_text. rewrite getitem_fill_columns, H1.
  destruct (decide (c ∈ select_dtypes is_object (impute_numeric d))) as [Hin|Hnin].
  - apply elem_of_select_dtypes in Hin as (s' & Hs' & Hp); [|exact Hnd1].
    rewrite H1 in Hs'. injection Hs' as <-.
    destruct (sdtype s) eqn:Hd; simpl in *;
      try rewrite fillna_float_dtype in Hp; try rewrite Hd in Hp; try discriminate.
    reflexivity.
  - destruct (sdtype s) eqn:Hd; simpl; try reflexivity.
    exfalso. apply Hnin. apply elem_of_select_dtypes; [exact Hnd1|].
    exists s. rewrite H1. simpl. split; [reflexivity|]. rewrite Hd. reflexivity.
Qed.

(** *** [drop_duplicates] *)

Lemma wf_drop_duplicates (t : DataFrame) : wf_frame t -> wf_frame (drop_duplicates t).
Proof.
  intros Hwf. unfold drop_duplicates. destruct (df_empty t); [exact Hwf|].
  apply wf_getitem_mask. exact Hwf.
Qed.

(** *** [remove_outliers] *)

Lemma within_not_na (bounds : float * float) (c : cell) :
  within bounds c = true -> isna c = false.
Proof. destruct c; simpl; auto. Qed.

Lemma remove_outliers_ok (cols : list string) :
  forall d : DataFrame,
    (forall c, c ∈ cols -> c ∈ column_names d) ->
    exists d', remove_outliers cols d = inr d'.
Proof.
  induction cols as [|col cols IH]; intros d Hcols; simpl; [eauto|].
  assert (Hc : col ∈ column_names d) by (apply Hcols; left).
  apply in_names_getitem in Hc as [s Hs]. rewrite Hs.
  apply IH. intros c Hc. rewrite column_names_getitem_mask. apply Hcols. right. exact Hc.
Qed.

Lemma remove_outliers_preserves (P : DataFrame -> Prop) (cols : list string) :
  (forall d mask, P d -> P (getitem_mask d mask)) ->
  forall d d', P d -> remove_outliers cols d = inr d' -> P d'.
Proof.
  intros Hmask. induction cols as [|col cols IH]; intros d d' HP; simpl.
  - intros [= <-]. exact HP.
  - destruct (getitem d col) as [s|]; [|discriminate].
    apply IH. apply Hmask. exact HP.
Qed.

(** After the turn of column [c], no value of [c] is missing. *)
Lemma remove_outliers_no_na (c : string) (cols : list string) :
  forall d d',
    c ∈ cols ->
    remove_outliers cols d = inr d' ->
    forall s, getitem d' c = Some s -> Forall (fun x => isna x = false) (svalues s).
Proof.
  induction cols as [|col cols IH]; intros d d' Hin Hrun.
  - apply elem_of_nil in Hin. contradiction.
  - simpl in Hrun. destruct (getitem d col) as [s0|] eqn:E0; [|discriminate].
    destruct (decide (c = col)) as [->|Hne].
    + revert Hrun.
      apply (remove_outliers_preserves
               (fun d => forall s, getitem d col = Some s ->
                                   Forall (fun x => isna x = false) (svalues s))).
      * intros d1 mask H1 s. rewrite getitem_getitem_mask.
        destruct (getitem d1 col) as [s1|] eqn:E1; [|discriminate].
        intros [= <-]. simpl. apply take_mask_Forall. apply (H1 s1 eq_refl).
      * intros s. rewrite getitem_getitem_mask, E0. intros [= <-]. simpl.
        unfold outlier_mask.
        eapply Forall_impl; [apply take_mask_test|].
        simpl. intros x. apply within_not_na.
    + apply elem_of_cons in Hin as [?|Hin]; [contradiction|].
      eapply IH; eauto.
Qed.

(** ** The store *)

Section Store.
Context {World : Type}.
Implicit Types (st : state World) (h : list DataFrame) (f : file) (w : World).

Lemma bind_inr {A B} (m : M World A) (k : A -> M World B) st a st' :
  m st = (inr a, st') -> bind m k st = k a st'.
Proof. unfold bind. intros ->. reflexivity. Qed.

Lemma bind_inl {A B} (m : M World A) (k : A -> M World B) st e st' :
  m st = (inl e, st') -> bind m k st = (inl e, st').
Proof. unfold bind. intros ->. reflexivity. Qed.

Lemma deref_Some (r : ref) (d : DataFrame) st :
  heap st !! r = Some d -> deref r st = (inr d, st).
Proof. unfold deref. intros ->. reflexivity. Qed.

Lemma deref_None (r : ref) st :
  heap st !! r = None -> deref r st = (inl (PyErr "ReferenceError" "no such object"), st).
Proof. unfold deref. intros ->. reflexivity. Qed.

Lemma deref_fresh h (d : DataFrame) f w :
  deref (length h) (mkState (h ++ [d]) f w) = (inr d, mkState (h ++ [d]) f w).
Proof. apply deref_Some. simpl. apply list_lookup_middle. reflexivity. Qed.

Lemma mutate_Some (r : ref) (g : DataFrame -> DataFrame) (d : DataFrame) st :
  heap st !! r = Some d ->
  mutate r g st = (inr tt, mkState (<[r := g d]> (heap st)) (metrics_file st) (world st)).
Proof. unfold mutate. intros ->. reflexivity. Qed.

Lemma mutate_fresh h (g : DataFrame -> DataFrame) (d : DataFrame) f w :
  mutate (length h) g (mkState (h ++ [d]) f w) = (inr tt, mkState (h ++ [g d]) f w).
Proof.
  rewrite (mutate_Some _ _ d); [|simpl; apply list_lookup_middle; reflexivity].
  simpl. f_equal. f_equal.
  rewrite insert_app_r_alt by lia. rewrite Nat.sub_diag. reflexivity.
Qed.

(** The loop at lines 104-110 allocates one frame per turn, touches no
    existing object, and ends on the frame [remove_outliers] computes. *)
Lemma remove_outliers_loop (cols : list string) :
  forall st (r : ref) (d : DataFrame),
    heap st !! r = Some d ->
    exists out fresh,
      for_fold cols remove_outliers_step r st
      = (out, mkState (heap st ++ fresh) (metrics_file st) (world st))
      /\ match remove_outliers cols d with
         | inr d' => exists r', out = inr r' /\ (heap st ++ fresh) !! r' = Some d'
                                /\ (r' = r \/ length (heap st) <= r')
         | inl e => out = inl e
         end.
Proof.
  induction cols as [|col cols IH]; intros [h f w] r d Hr; simpl in Hr.
  - exists (inr r), []. simpl. rewrite app_nil_r. split; [reflexivity|].
    exists r. auto.
  - cbn [for_fold remove_outliers]. unfold remove_outliers_step.
    destruct (getitem d col) as [s|] eqn:Hs.
    + set (d1 := getitem_mask d (outlier_mask s)).
      destruct (IH (mkState (h ++ [d1]) f w) (length h) d1) as (out & fresh & Hrun & Hres).
      { simpl. apply list_lookup_middle. reflexivity. }
      exists out, (d1 :: fresh). split.
      * simpl in Hrun. rewrite <- app_assoc in Hrun. simpl in Hrun.
        cbn [heap metrics_file world]. rewrite <- Hrun.
        apply bind_inr.
        rewrite (bind_inr _ _ _ d (mkState h f w)); [|apply deref_Some; exact Hr].
        rewrite (bind_inr _ _ _ s (mkState h f w)); [|unfold column; rewrite Hs; reflexivity].
        reflexivity.
      * simpl. simpl in Hres. rewrite <- app_assoc in Hres. simpl in Hres.
        destruct (remove_outliers cols d1) as [e|d']; [exact Hres|].
        destruct Hres as (r' & -> & Hr' & Hge). exists r'. split; [reflexivity|].
        split; [exact Hr'|]. right. destruct Hge as [->|Hge]; [lia|].
        rewrite length_app in Hge. simpl in Hge. lia.
    + exists (inl (PyErr "KeyError" col)), []. simpl. rewrite app_nil_r. split; [|reflexivity].
      apply bind_inl.
      rewrite (bind_inr _ _ _ d (mkState h f w)); [|apply deref_Some; exact Hr].
      apply bind_inl. unfold column. rewrite Hs. reflexivity.
Qed.

Lemma clean_frame_total (t : DataFrame) : exists d', clean_frame t = inr d'.
Proof.
  unfold clean_frame. apply remove_outliers_ok.
  intros c Hc. rewrite column_names_impute. eapply select_dtypes_present. exact Hc.
Qed.

(** [clean_data] allocates new frames after the existing ones, changes
    nothing else, and returns a reference to [clean_frame] of its input. *)
Lemma clean_data_run st (r : ref) (t : DataFrame) :
  heap st !! r = Some t ->
  exists r' d' fresh,
    clean_data r st = (inr r', mkState (heap st ++ fresh) (metrics_file st) (world st))
    /\ clean_frame t = inr d'
    /\ (heap st ++ fresh) !! r' = Some d'
    /\ length (heap st) <= r'.
Proof.
  destruct st as [h f w]. simpl. intros Hr.
  destruct (clean_frame_total t) as [d' Hd'].
  set (d0 := drop_duplicates t).
  destruct (remove_outliers_loop (select_dtypes is_number d0)
              (mkState (h ++ [impute d0]) f w) (length h) (impute d0))
    as (out & fresh & Hrun & Hres).
  { simpl. apply list_lookup_middle. reflexivity. }
  unfold clean_frame in Hd'. fold d0 in Hd'. rewrite Hd' in Hres.
  destruct Hres as (r' & -> & Hr' & Hge).
  simpl in Hrun, Hr', Hge. rewrite <- app_assoc in Hrun, Hr'. simpl in Hrun, Hr'.
  exists r', d', (impute d0 :: fresh). split; [|split; [|split]].
  - unfold clean_data.
    rewrite (bind_inr _ _ _ t (mkState h f w)); [|apply deref_Some; exact Hr].
    rewrite (bind_inr _ _ _ (length h) (mkState (h ++ [d0]) f w)); [|reflexivity].
    rewrite (bind_inr _ _ _ d0 (mkState (h ++ [d0]) f w)); [|apply deref_fresh].
    rewrite (bind_inr _ _ _ tt (mkState (h ++ [impute_numeric d0]) f w));
      [|exact (mutate_fresh h (fill_columns (fun s => fillna_float (median s) s)
                                            (select_dtypes is_number d0)) d0 f w)].
    rewrite (bind_inr _ _ _ (impute_numeric d0) (mkState (h ++ [impute_numeric d0]) f w));
      [|apply deref_fresh].
    rewrite (bind_inr _ _ _ tt (mkState (h ++ [impute d0]) f w));
      [|exact (mutate_fresh h (fill_columns (fillna_str "Unknown")
                                            (select_dtypes is_object (impute_numeric d0)))
                            (impute_numeric d0) f w)].
    rewrite (bind_inr _ _ _ r' (mkState (h ++ impute d0 :: fresh) f w)); [reflexivity|].
    exact Hrun.
  - unfold clean_frame. exact Hd'.
  - exact Hr'.
  - destruct Hge as [->|Hge]; [lia|]. rewrite length_app in Hge. simpl in Hge. lia.
Qed.

Lemma clean_data_dangling st (r : ref) :
  heap st !! r = None ->
  clean_data r st = (inl (PyErr "ReferenceError" "no such object"), st).
Proof.
  intros Hr. unfold clean_data. apply bind_inl. apply deref_None. exact Hr.
Qed.

End Store.

Section Enrich.
Context {World : Type} {platform : Platform World}.
Implicit Types (st : state World) (h : list DataFrame) (f : file) (w : World).

Lemma external_run {A} (op : World -> A * World) st :
  external op st
  = (inr (fst (op (world st))),
     mkState (heap st) (metrics_file st) (snd (op (world st)))).
Proof. unfold external. destruct (op (world st)). reflexivity. Qed.

(** One turn of the loop at lines 136-138 updates the object in place. *)
Lemma normalize_text_column_run (r : ref) (col : string) (d : DataFrame) st :
  heap st !! r = Some d ->
  normalize_text_column r col st
  = match normalize_step d col with
    | inr d' => (inr tt, mkState (<[r := d']> (heap st)) (metrics_file st) (world st))
    | inl e => (inl e, st)
    end.
Proof.
  intros Hr. unfold normalize_text_column, normalize_step.
  destruct (existsb (String.eqb col) ["processed_at"]).
  - rewrite list_insert_id by exact Hr. destruct st; reflexivity.
  - rewrite (bind_inr _ _ _ d st); [|apply deref_Some; exact Hr].
    unfold column. destruct (getitem d col) as [s|]; [|reflexivity].
    rewrite (bind_inr _ _ _ s st); [|reflexivity].
    destruct (str_strip_title s) as [e|s']; [reflexivity|].
    rewrite (bind_inr _ _ _ s' st); [|reflexivity].
    exact (mutate_Some r (fun d => setitem d col s') d st Hr).
Qed.

Lemma normalize_loop_run (r : ref) (cols : list string) :
  forall st (d : DataFrame),
    heap st !! r = Some d ->
    for_each cols (normalize_text_column r) st
    = (match fst (normalize_loop cols d) with None => inr tt | Some e => inl e end,
       mkState (<[r := snd (normalize_loop cols d)]> (heap st))
               (metrics_file st) (world st)).
Proof.
  induction cols as [|col cols IH]; intros st d Hr.
  - simpl. rewrite list_insert_id by exact Hr. destruct st; reflexivity.
  - cbn [for_each normalize_loop].
    pose proof (normalize_text_column_run r col d st Hr) as Hstep.
    destruct (normalize_step d col) as [e|d1].
    + rewrite (bind_inl _ _ _ _ _ Hstep). simpl.
      rewrite list_insert_id by exact Hr. destruct st; reflexivity.
    + rewrite (bind_inr _ _ _ _ _ Hstep).
      rewrite (IH _ d1).
      * simpl. rewrite list_insert_insert_eq. reflexivity.
      * simpl. apply list_lookup_insert_eq. eapply lookup_lt_Some. exact Hr.
Qed.

(** [transform_data] works on the object it is given: the frame behind
    the reference is replaced by the enriched one and the same reference
    is returned; when [pd.cut] raises nothing has been changed, when the
    text loop raises the object keeps what had been done so far. *)
Lemma transform_data_run st (r : ref) (t : DataFrame) :
  heap st !! r = Some t ->
  transform_data r st
  = match add_price_category t with
    | inl e => (inl e, st)
    | inr d1 =>
        let now := fst (datetime_now (world st)) in
        let w' := snd (datetime_now (world st)) in
        (match fst (enrich_frame now d1) with None => inr r | Some e => inl e end,
         mkState (<[r := snd (enrich_frame now d1)]> (heap st)) (metrics_file st) w')
    end.
Proof.
  intros Hr. destruct st as [h f w]. simpl in Hr. unfold transform_data.
  rewrite (bind_inr _ _ _ t (mkState h f w)); [|apply deref_Some; exact Hr].
  assert (Hlt : r < length h) by (eapply lookup_lt_Some; exact Hr).
  assert (Hcut :
    (if has_column t "price"
     then s <- column t "price" ;;
          c <- lift (pd_cut s price_bins price_labels) ;;
          mutate r (fun d => setitem d "price_category" c)
     else ret tt) (mkState h f w)
    = match add_price_category t with
      | inl e => (inl e, mkState h f w)
      | inr d1 => (inr tt, mkState (<[r := d1]> h) f w)
      end).
  { unfold add_price_category. destruct (has_column t "price").
    - unfold column. destruct (getitem t "price") as [s|]; [|reflexivity].
      rewrite (bind_inr _ _ _ s (mkState h f w)); [|reflexivity].
      destruct (pd_cut s price_bins price_labels) as [e|c]; [reflexivity|].
      rewrite (bind_inr _ _ _ c (mkState h f w)); [|reflexivity].
      exact (mutate_Some r (fun d => setitem d "price_category" c) t (mkState h f w) Hr).
    - rewrite list_insert_id by exact Hr. reflexivity. }
  destruct (add_price_category t) as [e|d1].
  - apply bind_inl. exact Hcut.
  - rewrite (bind_inr _ _ _ _ _ Hcut).
    rewrite (bind_inr _ _ _ _ _ (external_run datetime_now _)).
    cbn [heap metrics_file world].
    set (now := fst (datetime_now w)). set (w' := snd (datetime_now w)).
    rewrite (bind_inr _ _ _ tt (mkState (<[r := add_processed_at now d1]> h) f w')).
    2:{ rewrite (mutate_Some r _ d1); [|simpl; apply list_lookup_insert_eq; exact Hlt].
        simpl. rewrite list_insert_insert_eq. reflexivity. }
    rewrite (bind_inr _ _ _ (add_processed_at now d1)
               (mkState (<[r := add_processed_at now d1]> h) f w')).
    2:{ apply deref_Some. simpl. apply list_lookup_insert_eq. exact Hlt. }
    unfold enrich_frame. fold (add_processed_at now d1).
    pose proof (normalize_loop_run r (select_dtypes is_object (add_processed_at now d1))
                  (mkState (<[r := add_processed_at now d1]> h) f w')
                  (add_processed_at now d1)) as Hloop.
    cbn [heap metrics_file world] in Hloop.
    rewrite list_insert_insert_eq in Hloop.
    specialize (Hloop (list_lookup_insert_eq _ _ _ Hlt)).
    destruct (fst (normalize_loop _ _)).
    + apply bind_inl. exact Hloop.
    + rewrite (bind_inr _ _ _ _ _ Hloop). reflexivity.
Qed.

End Enrich.

(** ** Enrichment on frames *)

Lemma has_column_getitem (d : DataFrame) (c : string) :
  has_column d c = true <-> exists s, getitem d c = Some s.
Proof.
  rewrite <- in_names_getitem. unfold has_column. rewrite existsb_exists. split.
  - intros (x & Hin & E). apply String.eqb_eq in E. subst x.
    apply list_elem_of_In. exact Hin.
  - intros Hin. exists c. split; [apply list_elem_of_In; exact Hin | apply String.eqb_refl].
Qed.

Lemma column_names_setitem_NoDup (d : DataFrame) (name : string) (s : Series) :
  NoDup (column_names d) -> NoDup (column_names (setitem d name s)).
Proof. apply NoDup_names_assign. Qed.

(** *** [pd.cut] on the price bins *)

Lemma f64_leb_inf (x : f64) : f64_leb x (FInf false) = true.
Proof. destruct x as [[]|[]|[] m e]; reflexivity. Qed.

Lemma cut_cell_price (x : f64) :
  cut_cell price_bins price_labels (Num x)
  = if f64_leb x (f64_of_Q 0) then NA
    else if f64_leb x (f64_of_Q 50) then Str "Low"
    else if f64_leb x (f64_of_Q 200) then Str "Medium"
    else if f64_leb x (f64_of_Q 500) then Str "High"
    else Str "Premium".
Proof.
  unfold cut_cell, price_bins, price_labels.
  generalize (f64_of_Q 0) (f64_of_Q 50) (f64_of_Q 200) (f64_of_Q 500).
  intros c0 c50 c200 c500.
  cbn [searchsorted_left length map]. unfold edge_lt.
  rewrite !f64_ltb_leb, f64_leb_inf.
  destruct (f64_leb x c0); cbn; [reflexivity|].
  destruct (f64_leb x c50); cbn; [reflexivity|].
  destruct (f64_leb x c200); cbn; [reflexivity|].
  destruct (f64_leb x c500); cbn; reflexivity.
Qed.

(** *** The [.str] accessor *)

Lemma str_accessor_ok_str_map (f : string -> string) (s : Series) :
  str_accessor_ok (str_map f s) = true.
Proof.
  unfold str_accessor_ok, str_map. simpl.
  induction (svalues s) as [|c vs IH]; simpl; [reflexivity|].
  rewrite filter_cons. destruct c; simpl; auto.
Qed.

Lemma str_strip_title_ok (s : Series) :
  str_accessor_ok s = true ->
  str_strip_title s = inr (str_map title (str_map strip s)).
Proof.
  intros Hok. unfold str_strip_title. rewrite Hok, str_accessor_ok_str_map. reflexivity.
Qed.

Lemma text_series_accessor_ok (s : Series) :
  text_series s -> str_accessor_ok s = true.
Proof.
  intros [_ Hvals]. unfold str_accessor_ok.
  induction Hvals as [|c vs Hc _ IH]; simpl; [reflexivity|].
  rewrite filter_cons. destruct Hc as [Hc| ->]; simpl.
  - destruct c; try discriminate. simpl. reflexivity.
  - exact IH.
Qed.

Lemma str_map_strip_title (s : Series) :
  str_map title (str_map strip s)
  = mkSeries (sdtype s)
             (map (fun c => match c with Str v => Str (title (strip v)) | _ => NA end)
                  (svalues s)).
Proof.
  unfold str_map. simpl. f_equal. rewrite map_map.
  apply map_ext. intros [x|v|t|]; reflexivity.
Qed.

(** *** The text loop *)

Lemma normalize_loop_untouched (c : string) (cols : list string) :
  forall d, c ∉ cols -> getitem (snd (normalize_loop cols d)) c = getitem d c.
Proof.
  induction cols as [|col cols IH]; intros d Hc; simpl; [reflexivity|].
  apply not_elem_of_cons in Hc as [Hne Hc].
  unfold normalize_step.
  destruct (existsb (String.eqb col) ["processed_at"]); [apply IH; exact Hc|].
  destruct (getitem d col) as [s|]; [|reflexivity].
  destruct (str_strip_title s) as [e|s']; [reflexivity|].
  rewrite IH by exact Hc. apply getitem_setitem_ne. exact Hne.
Qed.

Lemma normalize_loop_index (cols : list string) :
  forall d, index (snd (normalize_loop cols d)) = index d.
Proof.
  induction cols as [|col cols IH]; intros d; simpl; [reflexivity|].
  unfold normalize_step.
  destruct (existsb (String.eqb col) ["processed_at"]); [apply IH|].
  destruct (getitem d col) as [s|]; [|reflexivity].
  destruct (str_strip_title s) as [e|s']; [reflexivity|].
  rewrite IH. reflexivity.
Qed.

Lemma processed_at_test (col : string) :
  existsb (String.eqb col) ["processed_at"] = true <-> col = "processed_at".
Proof.
  simpl. rewrite orb_false_r. apply String.eqb_eq.
Qed.

(** When every listed column (other than ['processed_at']) is present and
    passes the accessor's check, the loop runs to its end and rewrites
    exactly those columns. *)
Lemma normalize_loop_ok (cols : list string) :
  NoDup cols ->
  forall d,
    (forall c, c ∈ cols -> c <> "processed_at" ->
               exists s, getitem d c = Some s /\ str_accessor_ok s = true) ->
    fst (normalize_loop cols d) = None
    /\ forall c,
         getitem (snd (normalize_loop cols d)) c
         = if decide (c ∈ cols /\ c <> "processed_at")
           then (fun s => str_map title (str_map strip s)) <$> getitem d c
           else getitem d c.
Proof.
  induction 1 as [|col cols Hcol Hnd IH]; intros d Hok.
  - simpl. split; [reflexivity|]. intros c.
    destruct (decide (c ∈ [] /\ c <> "processed_at")) as [[Hin _]|_]; [|reflexivity].
    apply elem_of_nil in Hin. contradiction.
  - cbn [normalize_loop]. unfold normalize_step.
    destruct (existsb (String.eqb col) ["processed_at"]) eqn:Epa.
    + apply processed_at_test in Epa. subst col.
      destruct (IH d) as [H1 H2].
      { intros c Hc Hne. apply Hok; [right; exact Hc | exact Hne]. }
      split; [exact H1|]. intros c. rewrite H2.
      destruct (decide (c ∈ cols /\ c <> "processed_at")) as [[Hc Hne]|Hn];
        destruct (decide (c ∈ "processed_at" :: cols /\ c <> "processed_at"))
          as [[Hc' Hne']|Hn']; try reflexivity.
      * exfalso. apply Hn'. split; [right; exact Hc | exact Hne].
      * exfalso. apply Hn. split; [|exact Hne'].
        apply elem_of_cons in Hc' as [?|?]; [contradiction | assumption].
    + assert (Hne : col <> "processed_at").
      { intros ->. simpl in Epa. discriminate. }
      destruct (Hok col) as (s & Hs & Hsok); [left | exact Hne |].
      rewrite Hs, (str_strip_title_ok s Hsok).
      set (d1 := setitem d col (str_map title (str_map strip s))).
      destruct (IH d1) as [H1 H2].
      { intros c Hc Hcne. destruct (Hok c) as (s' & Hs' & Hs'ok); [right; exact Hc | exact Hcne |].
        exists s'. split; [|exact Hs'ok]. unfold d1. rewrite getitem_setitem_ne; [exact Hs'|].
        intros ->. contradiction. }
      split; [exact H1|]. intros c. rewrite H2.
      destruct (decide (c = col)) as [->|Hcne].
      * destruct (decide (col ∈ cols /\ col <> "processed_at")) as [[Hc _]|_]; [contradiction|].
        destruct (decide (col ∈ col :: cols /\ col <> "processed_at")) as [_|Hn'].
        -- unfold d1. rewrite getitem_setitem_eq, Hs. reflexivity.
        -- exfalso. apply Hn'. split; [left | exact Hne].
      * unfold d1. rewrite getitem_setitem_ne by exact Hcne.
        destruct (decide (c ∈ cols /\ c <> "processed_at")) as [[Hc Hne1]|Hn];
          destruct (decide (c ∈ col :: cols /\ c <> "processed_at")) as [[Hc' Hne']|Hn'];
          try reflexivity.
        -- exfalso. apply Hn'. split; [right; exact Hc | exact Hne1].
        -- exfalso. apply Hn. split; [|exact Hne'].
           apply elem_of_cons in Hc' as [?|?]; [contradiction | assumption].
Qed.

(** *** [enrich_frame] column by column *)

Lemma getitem_add_processed_at_ne (now : Z) (d : DataFrame) (c : string) :
  c <> "processed_at" -> getitem (add_processed_at now d) c = getitem d c.
Proof. intros Hne. unfold add_processed_at. apply getitem_setitem_ne. exact Hne. Qed.

Lemma enrich_frame_getitem (now : Z) (d1 : DataFrame) :
  NoDup (column_names d1) ->
  (forall c s, getitem d1 c = Some s -> sdtype s <> object -> c <> "processed_at" ->
               getitem (snd (enrich_frame now d1)) c = Some s)
  /\ getitem (snd (enrich_frame now d1)) "processed_at"
     = Some (mkSeries datetime64 (repeat (Stamp now) (len d1)))
  /\ ((forall c s, getitem d1 c = Some s -> sdtype s = object -> c <> "processed_at" ->
                   str_accessor_ok s = true) ->
      fst (enrich_frame now d1) = None
      /\ forall c s, getitem d1 c = Some s -> sdtype s = object -> c <> "processed_at" ->
                     getitem (snd (enrich_frame now d1)) c
                     = Some (str_map title (str_map strip s))).
Proof.
  intros Hnd. unfold enrich_frame.
  set (d2 := add_processed_at now d1).
  assert (Hnd2 : NoDup (column_names d2)) by (apply column_names_setitem_NoDup; exact Hnd).
  assert (Hpa : getitem d2 "processed_at"
                = Some (mkSeries datetime64 (repeat (Stamp now) (len d1)))).
  { apply getitem_setitem_eq. }
  split; [|split].
  - intros c s Hs Hdt Hne.
    rewrite normalize_loop_untouched.
    + unfold d2. rewrite getitem_add_processed_at_ne by exact Hne. exact Hs.
    + intros Hin. apply elem_of_select_dtypes in Hin as (s' & Hs' & Hp); [|exact Hnd2].
      unfold d2 in Hs'. rewrite getitem_add_processed_at_ne in Hs' by exact Hne.
      rewrite Hs in Hs'. injection Hs' as <-.
      destruct (sdtype s); simpl in Hp; congruence.
  - rewrite normalize_loop_untouched; [exact Hpa|].
    intros Hin. apply elem_of_select_dtypes in Hin as (s' & Hs' & Hp); [|exact Hnd2].
    rewrite Hpa in Hs'. injection Hs' as <-. discriminate.
  - intros Hok.
    destruct (normalize_loop_ok (select_dtypes is_object d2)
                (NoDup_select_dtypes _ _ Hnd2) d2) as [H1 H2].
    { intros c Hin Hne. apply elem_of_select_dtypes in Hin as (s & Hs & Hp); [|exact Hnd2].
      exists s. split; [exact Hs|].
      unfold d2 in Hs. rewrite getitem_add_processed_at_ne in Hs by exact Hne.
      apply (Hok c s Hs); [|exact Hne].
      destruct (sdtype s); simpl in Hp; congruence. }
    split; [exact H1|]. intros c s Hs Hdt Hne. rewrite H2.
    assert (Hs2 : getitem d2 c = Some s).
    { unfold d2. rewrite getitem_add_processed_at_ne by exact Hne. exact Hs. }
    destruct (decide (c ∈ select_dtypes is_object d2 /\ c <> "processed_at")) as [_|Hn].
    + rewrite Hs2. reflexivity.
    + exfalso. apply Hn. split; [|exact Hne].
      apply elem_of_select_dtypes; [exact Hnd2|]. exists s. rewrite Hdt. auto.
Qed.

Lemma text_columns_getitem (t : DataFrame) (c : string) (s : Series) :
  text_columns_ok t -> getitem t c = Some s -> sdtype s = object ->
  str_accessor_ok s = true.
Proof.
  intros Hok Hs Hdt. apply text_series_accessor_ok.
  apply (getitem_Forall (fun s => sdtype s = object -> text_series s) t c s Hok Hs Hdt).
Qed.

(** Lines 126-129 on a frame with a numeric price column. *)
Lemma add_price_category_number (t : DataFrame) (s : Series) :
  getitem t "price" = Some s -> sdtype s = number ->
  add_price_category t
  = inr (setitem t "price_category"
                 (mkSeries category (map (cut_cell price_bins price_labels) (svalues s)))).
Proof.
  intros Hs Hdt. unfold add_price_category.
  assert (Hh : has_column t "price" = true) by (apply has_column_getitem; eauto).
  rewrite Hh, Hs. unfold pd_cut. rewrite Hdt. reflexivity.
Qed.

Lemma add_price_category_absent (t : DataFrame) :
  getitem t "price" = None -> add_price_category t = inr t.
Proof.
  intros Hs. unfold add_price_category.
  destruct (has_column t "price") eqn:Hh; [|reflexivity].
  apply has_column_getitem in Hh as [s Hs']. congruence.
Qed.

Lemma add_price_category_dtype (t d1 : DataFrame) :
  add_price_category t = inr d1 ->
  (getitem t "price" = None /\ d1 = t)
  \/ exists s, getitem t "price" = Some s /\ sdtype s = number
               /\ d1 = setitem t "price_category"
                         (mkSeries category
                            (map (cut_cell price_bins price_labels) (svalues s))).
Proof.
  unfold add_price_category. destruct (has_column t "price") eqn:Hh.
  - destruct (getitem t "price") as [s|] eqn:Hs; [|discriminate].
    unfold pd_cut. destruct (sdtype s) eqn:Hdt; simpl; try discriminate.
    intros [= <-]. right. exists s. auto.
  - intros [= <-]. left. split; [|reflexivity].
    destruct (getitem t "price") as [s|] eqn:Hs; [|reflexivity].
    assert (has_column t "price" = true) by (apply has_column_getitem; eauto).
    congruence.
Qed.


(** ** The shape of the cleaned table *)

Lemma take_mask_sublist {A} (mask : list bool) (l : list A) :
  sublist (take_mask mask l) l.
Proof.
  revert l. induction mask as [|b mask IH]; intros [|x l]; simpl;
    try apply sublist_nil_l.
  destruct b; [apply sublist_skip | apply sublist_cons]; apply IH.
Qed.

Lemma take_mask_length_le {A} (mask : list bool) (l : list A) :
  length (take_mask mask l) <= length l.
Proof. apply sublist_length. apply take_mask_sublist. Qed.

Lemma getitem_drop_duplicates (t : DataFrame) (c : string) (s0 : Series) :
  getitem (drop_duplicates t) c = Some s0 ->
  exists s mask, getitem t c = Some s /\ s0 = mask_series mask s.
Proof.
  unfold drop_duplicates. destruct (df_empty t).
  - intros Hs. exists s0, (repeat true (length (svalues s0))). split; [exact Hs|].
    unfold mask_series. rewrite take_mask_all_true. destruct s0; reflexivity.
  - rewrite getitem_getitem_mask. destruct (getitem t c) as [s|]; [|discriminate].
    intros [= <-]. eauto.
Qed.

Lemma column_names_drop_duplicates (t : DataFrame) :
  column_names (drop_duplicates t) = column_names t.
Proof.
  unfold drop_duplicates. destruct (df_empty t); [reflexivity|].
  apply column_names_getitem_mask.
Qed.

Lemma index_drop_duplicates (t : DataFrame) :
  sublist (index (drop_duplicates t)) (index t).
Proof.
  unfold drop_duplicates. destruct (df_empty t); [reflexivity|].
  apply take_mask_sublist.
Qed.

Lemma wf_remove_outliers (cols : list string) (d d' : DataFrame) :
  wf_frame d -> remove_outliers cols d = inr d' -> wf_frame d'.
Proof.
  apply (remove_outliers_preserves wf_frame). intros d0 mask. apply wf_getitem_mask.
Qed.

Lemma shape_remove_outliers (cols : list string) (d d' : DataFrame) :
  remove_outliers cols d = inr d' ->
  column_names d' = column_names d /\ sublist (index d') (index d).
Proof.
  apply (remove_outliers_preserves
           (fun x => column_names x = column_names d /\ sublist (index x) (index d))).
  - intros d0 mask [Hn Hi]. split.
    + rewrite column_names_getitem_mask. exact Hn.
    + etransitivity; [apply take_mask_sublist | exact Hi].
  - split; reflexivity.
Qed.


(* ================================================================== *)
(** * The claims about the transform stage *)

(** ** C1: price bins *)

(** C1, as stated, fails on the bin edges. On the prices 0, 50, 500 and
    -5, [transform_data] stores the categories missing, Low, High and
    missing, whereas left-inclusive bins would give Low, Medium, Premium
    and missing: [pd.cut] is called with its default [right=True], so each
    bin contains its right edge and not its left one. *)
Lemma price_category_edges_counterexample :
  exists t' : DataFrame,
    heap (snd (transform_data (platform := Demo.csv_only) 0 (Demo.boot [Demo.prices]))) !! 0
    = Some t'
    /\ getitem t' "price_category"
       = Some (mkSeries category [NA; Str "Low"; Str "High"; NA])
    /\ map spec_price_category [num 0; num 50; num 500; num (-5)]
       = [Str "Low"; Str "Medium"; Str "Premium"; NA]
    /\ getitem t' "price_category"
       <> Some (mkSeries category
                         (map spec_price_category [num 0; num 50; num 500; num (-5)])).
Proof.
  eexists. split; [vm_compute; reflexivity|].
  split; [vm_compute; reflexivity|].
  split; [vm_compute; reflexivity|].
  vm_compute. discriminate.
Qed.

(** C1, amended: for every table with a numeric column named 'price',
    [transform_data] stores in the table a categorical column
    'price_category' (and returns when the table's object columns hold
    text) whose value for a price [x] is: Low when 0 < x <= 50, Medium when
    50 < x <= 200, High when 200 < x <= 500, Premium when 500 < x, and
    missing when x <= 0 or the price is missing. So 50 maps to Low, 500 to
    High, and 0 and every negative price to the missing category. The
    comparisons are those of float64, and [x] is any float64 value, the
    infinities included. *)
Theorem price_category_right_closed_bins
    {World : Type} {platform : Platform World}
    (st : state World) (r : ref) (t : DataFrame) (s : Series) :
  heap st !! r = Some t ->
  NoDup (column_names t) ->
  getitem t "price" = Some s ->
  sdtype s = number ->
  exists out t' w',
    transform_data r st
    = (out, mkState (<[r := t']> (heap st)) (metrics_file st) w')
    /\ (text_columns_ok t -> out = inr r)
    /\ getitem t' "price_category"
       = Some (mkSeries category (map (cut_cell price_bins price_labels) (svalues s)))
    /\ cut_cell price_bins price_labels NA = NA
    /\ forall x : f64,
         (f64_le x (f64_of_Q 0) -> cut_cell price_bins price_labels (Num x) = NA)
         /\ (f64_lt (f64_of_Q 0) x -> f64_le x (f64_of_Q 50) ->
             cut_cell price_bins price_labels (Num x) = Str "Low")
         /\ (f64_lt (f64_of_Q 50) x -> f64_le x (f64_of_Q 200) ->
             cut_cell price_bins price_labels (Num x) = Str "Medium")
         /\ (f64_lt (f64_of_Q 200) x -> f64_le x (f64_of_Q 500) ->
             cut_cell price_bins price_labels (Num x) = Str "High")
         /\ (f64_lt (f64_of_Q 500) x ->
             cut_cell price_bins price_labels (Num x) = Str "Premium").
Proof.
  intros Hr Hnd Hs Hdt.
  set (cat := mkSeries category (map (cut_cell price_bins price_labels) (svalues s))).
  set (d1 := setitem t "price_category" cat).
  assert (Hnd1 : NoDup (column_names d1)) by (apply column_names_setitem_NoDup; exact Hnd).
  set (now := fst (datetime_now (world st))).
  destruct (enrich_frame_getitem now d1 Hnd1) as (Hkeep & _ & Htext).
  exists (match fst (enrich_frame now d1) with None => inr r | Some e => inl e end),
         (snd (enrich_frame now d1)), (snd (datetime_now (world st))).
  split; [|split; [|split; [|split]]].
  - rewrite (transform_data_run st r t Hr).
    rewrite (add_price_category_number t s Hs Hdt). reflexivity.
  - intros Hok. destruct Htext as [Hnone _]; [|rewrite Hnone; reflexivity].
    intros c s' Hs' Hdt' Hne.
    destruct (decide (c = "price_category")) as [->|Hc].
    + unfold d1 in Hs'. rewrite getitem_setitem_eq in Hs'. injection Hs' as <-.
      discriminate.
    + unfold d1 in Hs'. rewrite getitem_setitem_ne in Hs' by exact Hc.
      eapply text_columns_getitem; eauto.
  - apply Hkeep; [apply getitem_setitem_eq | discriminate | discriminate].
  - reflexivity.
  - intros x. rewrite cut_cell_price.
    assert (H050 : f64_lt (f64_of_Q 0) (f64_of_Q 50)) by (vm_compute; reflexivity).
    assert (H50200 : f64_lt (f64_of_Q 50) (f64_of_Q 200)) by (vm_compute; reflexivity).
    assert (H200500 : f64_lt (f64_of_Q 200) (f64_of_Q 500)) by (vm_compute; reflexivity).
    revert H050 H50200 H200500.
    generalize (f64_of_Q 0) (f64_of_Q 50) (f64_of_Q 200) (f64_of_Q 500).
    intros c0 c50 c200 c500 H050 H50200 H200500.
    assert (Hgt : forall a b, f64_lt a b -> f64_lt b x -> f64_leb x a = false).
    { intros a b Hab Hbx. apply f64_lt_not_le.
      apply (f64_lt_le_trans a b x Hab). apply f64_lt_le. exact Hbx. }
    repeat split.
    + intros H0. rewrite H0. reflexivity.
    + intros H0 H1. rewrite (f64_lt_not_le _ _ H0), H1. reflexivity.
    + intros H0 H1.
      rewrite (Hgt c0 c50 H050 H0), (f64_lt_not_le _ _ H0), H1. reflexivity.
    + intros H0 H1.
      assert (H50 : f64_lt c50 x).
      { apply (f64_lt_le_trans c50 c200 x H50200). apply f64_lt_le. exact H0. }
      rewrite (Hgt c0 c50 H050 H50), (f64_lt_not_le _ _ H50), (f64_lt_not_le _ _ H0), H1.
      reflexivity.
    + intros H0.
      assert (H200 : f64_lt c200 x).
      { apply (f64_lt_le_trans c200 c500 x H200500). apply f64_lt_le. exact H0. }
      assert (H50 : f64_lt c50 x).
      { apply (f64_lt_le_trans c50 c200 x H50200). apply f64_lt_le. exact H200. }
      rewrite (Hgt c0 c50 H050 H50), (f64_lt_not_le _ _ H50), (f64_lt_not_le _ _ H200),
              (f64_lt_not_le _ _ H0).
      reflexivity.
Qed.

Lemma price_category_right_closed_bins_witness :
  exists out t' w',
    transform_data (platform := Demo.csv_only) 0 (Demo.boot [Demo.prices])
    = (out, mkState (<[0 := t']> [Demo.prices]) Absent w')
    /\ getitem t' "price_category"
       = Some (mkSeries category [NA; Str "Low"; Str "High"; NA]).
Proof.
  destruct (price_category_right_closed_bins
              (platform := Demo.csv_only) (Demo.boot [Demo.prices]) 0 Demo.prices
              (mkSeries number [num 0; num 50; num 500; num (-5)]))
    as (out & t' & w' & Hrun & _ & Hcat & _).
  - reflexivity.
  - vm_compute. repeat constructor. intros Hin. inversion Hin.
  - reflexivity.
  - reflexivity.
  - exists out, t', w'. split; [exact Hrun | exact Hcat].
Defined.

(** ** C8: text normalisation *)

Lemma cased_not_space (c : ascii) : is_cased c = true -> is_space c = false.
Proof.
  unfold is_cased, is_upper, is_lower, is_space.
  generalize (nat_of_ascii c). intros n Hn.
  apply orb_true_iff in Hn.
  apply orb_false_iff. rewrite !andb_false_iff, !Nat.leb_gt.
  rewrite !andb_true_iff, !Nat.leb_le in Hn. lia.
Qed.

(** On letters and whitespace the two title-casings agree: the flag of
    the one is the negation of the flag of the other. *)
Lemma title_from_spec (v : string) :
  forall b : bool,
    forallb (fun ch => is_cased ch || is_space ch) (list_ascii_of_string v) = true ->
    title_from b v = spec_title_from (negb b) v.
Proof.
  induction v as [|c v IH]; intros b Hall; simpl; [reflexivity|].
  simpl in Hall. apply andb_true_iff in Hall as [Hc Hall].
  f_equal.
  - destruct b; reflexivity.
  - rewrite (IH _ Hall). f_equal.
    destruct (is_cased c) eqn:E.
    + rewrite (cased_not_space c E). reflexivity.
    + simpl in Hc. rewrite Hc. reflexivity.
Qed.

(** The character [title] writes at each position: lowercase after a
    letter, uppercase elsewhere. *)
Lemma title_from_get (v : string) :
  forall (b : bool) (i : nat) (ch : ascii),
    String.get i v = Some ch ->
    String.get i (title_from b v)
    = Some (if match i with
               | O => b
               | S j => match String.get j v with
                        | Some p => is_cased p
                        | None => false
                        end
               end
            then to_lower ch else to_upper ch).
Proof.
  induction v as [|c v IH]; intros b i ch Hi; simpl in Hi; [discriminate|].
  destruct i as [|i]; simpl.
  - injection Hi as ->. reflexivity.
  - rewrite (IH _ i ch Hi). destruct i as [|j]; reflexivity.
Qed.

(** C8, as stated, fails on tokens that contain a character which is not
    a letter. [transform_data] turns "o'neil" into "O'Neil", whereas
    capitalizing the first letter of each whitespace-separated token and
    lowercasing the rest gives "O'neil". It also fails on tables that
    enrichment refuses: with a 'price' column of text [pd.cut] raises
    before the text loop, and with an object column of numbers the
    [.str] accessor raises at that column; either way the text column
    'name' is left as it was, " ann " untrimmed. *)
Lemma title_case_tokens_counterexample :
  (exists t' : DataFrame,
    heap (snd (transform_data (platform := Demo.csv_only) 0 (Demo.boot [Demo.people]))) !! 0
    = Some t'
    /\ getitem t' "name"
       = Some (mkSeries object [Str "John Smith"; Str "Unknown"; Str "O'Neil"; NA])
    /\ spec_title (strip "o'neil") = "O'neil"
    /\ getitem t' "name"
       <> Some (mkSeries object
                  (map (fun x => match x with
                                 | Str v => Str (spec_title (strip v))
                                 | _ => NA
                                 end)
                       [Str "  john smith  "; Str "Unknown"; Str "o'neil"; NA])))
  /\ (exists t' : DataFrame,
        fst (transform_data (platform := Demo.csv_only) 0 (Demo.boot [Samples.worded_prices]))
        = inl (PyErr "TypeError"
                 "'<' not supported between instances of 'float' and 'str'")
        /\ heap (snd (transform_data (platform := Demo.csv_only) 0
                        (Demo.boot [Samples.worded_prices]))) !! 0 = Some t'
        /\ getitem t' "name" = Some (mkSeries object [Str " ann "; Str "bob"]))
  /\ (exists t' : DataFrame,
        fst (transform_data (platform := Demo.csv_only) 0 (Demo.boot [Samples.coded_names]))
        = inl (PyErr "AttributeError" "Can only use .str accessor with string values!")
        /\ heap (snd (transform_data (platform := Demo.csv_only) 0
                        (Demo.boot [Samples.coded_names]))) !! 0 = Some t'
        /\ getitem t' "name" = Some (mkSeries object [Str " ann "; Str "bob"])).
Proof.
  split; [|split].
  - eexists. split; [vm_compute; reflexivity|].
    split; [vm_compute; reflexivity|].
    split; [vm_compute; reflexivity|].
    vm_compute. discriminate.
  - eexists. split; [vm_compute; reflexivity|].
    split; vm_compute; reflexivity.
  - eexists. split; [vm_compute; reflexivity|].
    split; vm_compute; reflexivity.
Qed.

(** C8, amended: for every table with distinct column names whose object
    columns hold ASCII text (strings and missing values) and whose
    'price' column, if any, is numeric, [transform_data] returns and has
    rewritten every text column other than 'processed_at' (and other than
    a text column 'price_category' that the derived column replaces)
    value by value: a string becomes the title-casing of its trimmed form
    and a missing value stays missing. Title-casing is Python's: a
    character that follows a letter is lowercased and any other
    character is uppercased, so a capital starts after every character
    that is not a letter; on strings made of letters and whitespace only
    this is the capitalization of each whitespace-separated token.
    "  john smith  " becomes "John Smith" and "Unknown" stays
    "Unknown". *)
Theorem text_columns_stripped_and_titled
    {World : Type} {platform : Platform World}
    (st : state World) (r : ref) (t : DataFrame) :
  heap st !! r = Some t ->
  NoDup (column_names t) ->
  text_columns_ok t ->
  ascii_frame t ->
  (forall s, getitem t "price" = Some s -> sdtype s = number) ->
  exists t' w',
    transform_data r st
    = (inr r, mkState (<[r := t']> (heap st)) (metrics_file st) w')
    /\ (forall c s,
          getitem t c = Some s -> sdtype s = object -> c <> "processed_at" ->
          (c = "price_category" -> getitem t "price" = None) ->
          getitem t' c
          = Some (mkSeries object
                    (map (fun x => match x with
                                   | Str v => Str (title (strip v))
                                   | _ => NA
                                   end)
                         (svalues s))))
    /\ (forall v i ch,
          ascii_string v ->
          String.get i v = Some ch ->
          String.get i (title v)
          = Some (if match i with
                     | O => false
                     | S j => match String.get j v with
                              | Some p => is_cased p
                              | None => false
                              end
                     end
                  then to_lower ch else to_upper ch))
    /\ (forall v,
          ascii_string v ->
          forallb (fun ch => is_cased ch || is_space ch) (list_ascii_of_string v) = true ->
          title v = spec_title v)
    /\ title (strip "  john smith  ") = "John Smith"
    /\ title (strip "Unknown") = "Unknown".
Proof.
  intros Hr Hnd Hok _ Hprice.
  set (now := fst (datetime_now (world st))).
  assert (Hd1 : exists d1,
             add_price_category t = inr d1
             /\ NoDup (column_names d1)
             /\ forall c s, getitem t c = Some s -> sdtype s = object ->
                            (c = "price_category" -> getitem t "price" = None) ->
                            getitem d1 c = Some s).
  { destruct (getitem t "price") as [s|] eqn:Hs.
    - eexists. split; [apply (add_price_category_number t s Hs (Hprice s eq_refl))|].
      split; [apply column_names_setitem_NoDup; exact Hnd|].
      intros c s' Hs' _ Hc. rewrite getitem_setitem_ne; [exact Hs'|].
      intros ->. specialize (Hc eq_refl). discriminate.
    - exists t. split; [apply add_price_category_absent; exact Hs|].
      split; [exact Hnd|]. auto. }
  destruct Hd1 as (d1 & Hadd & Hnd1 & Hsame).
  assert (Hok1 : forall c s, getitem d1 c = Some s -> sdtype s = object ->
                             c <> "processed_at" -> str_accessor_ok s = true).
  { intros c s Hs Hdt _. revert Hadd Hs. unfold add_price_category.
    destruct (has_column t "price").
    - destruct (getitem t "price") as [p|]; [|discriminate].
      destruct (pd_cut p price_bins price_labels) as [e|cat] eqn:Hcut; [discriminate|].
      intros [= <-]. destruct (decide (c = "price_category")) as [->|Hc].
      + rewrite getitem_setitem_eq. intros [= <-].
        unfold pd_cut in Hcut. destruct (is_number (sdtype p)); [|discriminate].
        injection Hcut as <-. discriminate.
      + rewrite getitem_setitem_ne by exact Hc. intros Hs.
        eapply text_columns_getitem; eauto.
    - intros [= <-] Hs. eapply text_columns_getitem; eauto. }
  destruct (enrich_frame_getitem now d1 Hnd1) as (_ & _ & Htext).
  destruct (Htext Hok1) as [Hnone Hcols].
  exists (snd (enrich_frame now d1)), (snd (datetime_now (world st))).
  split; [|split; [|split; [|split; [|split]]]].
  - rewrite (transform_data_run st r t Hr), Hadd. cbn zeta. fold now.
    rewrite Hnone. reflexivity.
  - intros c s Hs Hdt Hne Hpc.
    rewrite (Hcols c s (Hsame c s Hs Hdt Hpc) Hdt Hne).
    rewrite str_map_strip_title, Hdt. reflexivity.
  - intros v i ch _ Hi. apply (title_from_get v false i ch Hi).
  - intros v _ Hv. apply (title_from_spec v false Hv).
  - vm_compute. reflexivity.
  - vm_compute. reflexivity.
Qed.

Lemma text_columns_stripped_and_titled_witness :
  exists t' w',
    transform_data (platform := Demo.csv_only) 0 (Demo.boot [Demo.people])
    = (inr 0, mkState (<[0 := t']> [Demo.people]) Absent w')
    /\ getitem t' "name"
       = Some (mkSeries object
                 (map (fun x => match x with
                                | Str v => Str (title (strip v))
                                | _ => NA
                                end)
                      [Str "  john smith  "; Str "Unknown"; Str "o'neil"; NA])).
Proof.
  destruct (text_columns_stripped_and_titled
              (platform := Demo.csv_only) (Demo.boot [Demo.people]) 0 Demo.people)
    as (t' & w' & Hrun & Hcols & _).
  - reflexivity.
  - vm_compute. repeat constructor. intros Hin. inversion Hin.
  - constructor; [|constructor]. intros _. split; [reflexivity|].
    repeat (constructor; [first [left; reflexivity | right; reflexivity]|]). constructor.
  - repeat constructor.
  - intros s Hs. vm_compute in Hs. discriminate.
  - exists t', w'. split; [exact Hrun|].
    apply (Hcols "name" (mkSeries object
                           [Str "  john smith  "; Str "Unknown"; Str "o'neil"; NA])).
    + reflexivity.
    + reflexivity.
    + discriminate.
    + discriminate.
Defined.

(** ** C3: deduplication *)

Lemma map_lookup {A B} (f : A -> B) (l : list A) (i : nat) :
  map f l !! i = f <$> l !! i.
Proof. exact (list_lookup_fmap f l i). Qed.

Lemma duplicated_length (t : DataFrame) : length (duplicated t) = len t.
Proof. unfold duplicated. rewrite duplicated_scan_length. apply rows_length. Qed.

Lemma rows_drop_duplicates (t : DataFrame) :
  wf_frame t -> columns t <> [] ->
  rows (drop_duplicates t) = take_mask (map negb (duplicated t)) (rows t).
Proof.
  intros [Hlen _] Hcols. unfold drop_duplicates, df_empty.
  destruct (len t =? 0) eqn:E0; simpl.
  - apply Nat.eqb_eq in E0. pose proof (rows_length t) as Hr. rewrite E0 in Hr.
    destruct (rows t); [|discriminate]. rewrite take_mask_nil_r. reflexivity.
  - destruct (columns t) as [|c cols] eqn:Ec; [contradiction|]. simpl.
    rewrite <- Ec in *. apply rows_getitem_mask. exact Hlen.
Qed.

(** C3, as stated, fails on the table [clean_data] returns: the outlier
    pass that follows deduplication removes rows as well. In
    [Samples.readings_repeated] the rows labelled 4 and 5 are equal and
    the row labelled 3 equals no earlier row; [clean_data] returns the
    rows labelled 0, 1 and 2 only, so that no occurrence of the repeated
    row is kept and a row that is no duplicate is removed. On a table
    without any column, whose rows are all equal, [df.empty] holds and
    [drop_duplicates] keeps every row. *)
Lemma cleaning_drops_first_occurrences_counterexample :
  exists d' : DataFrame,
    fst (clean_data 0 (Demo.boot [Samples.readings_repeated])) = inr 3
    /\ heap (snd (clean_data 0 (Demo.boot [Samples.readings_repeated]))) !! 3 = Some d'
    /\ index d' = [0; 1; 2]%Z
    /\ (exists row4 row5,
          rows Samples.readings_repeated !! 4 = Some row4
          /\ rows Samples.readings_repeated !! 5 = Some row5
          /\ row_eqb row4 row5 = true
          /\ forall j row', j < 4 -> rows Samples.readings_repeated !! j = Some row' ->
                            row_eqb row' row4 = false)
    /\ (exists row3,
          rows Samples.readings_repeated !! 3 = Some row3
          /\ forall j row', j < 3 -> rows Samples.readings_repeated !! j = Some row' ->
                            row_eqb row' row3 = false)
    /\ (rows (mkFrame [0; 1]%Z []) = [[]; []]
        /\ row_eqb [] [] = true
        /\ drop_duplicates (mkFrame [0; 1]%Z []) = mkFrame [0; 1]%Z []).
Proof.
  eexists. split; [vm_compute; reflexivity|].
  split; [vm_compute; reflexivity|].
  split; [vm_compute; reflexivity|].
  split; [|split; [|split; [|split]; vm_compute; reflexivity]].
  - do 2 eexists. split; [vm_compute; reflexivity|].
    split; [vm_compute; reflexivity|].
    split; [vm_compute; reflexivity|].
    intros j row' Hj. do 4 (destruct j as [|j]; [intros [= <-]; vm_compute; reflexivity|]).
    lia.
  - eexists. split; [vm_compute; reflexivity|].
    intros j row' Hj. do 3 (destruct j as [|j]; [intros [= <-]; vm_compute; reflexivity|]).
    lia.
Qed.

Lemma index_drop_duplicates_mask (t : DataFrame) :
  columns t <> [] ->
  index (drop_duplicates t) = take_mask (map negb (duplicated t)) (index t).
Proof.
  intros Hcols. unfold drop_duplicates, df_empty.
  destruct (len t =? 0) eqn:E0; simpl.
  - apply Nat.eqb_eq in E0. unfold len in E0.
    destruct (index t); [|discriminate]. rewrite take_mask_nil_r. reflexivity.
  - destruct (columns t) as [|c cols] eqn:Ec; [contradiction|]. reflexivity.
Qed.

(** C3, amended: for every table with at least one column, the
    deduplication step of [clean_data], [drop_duplicates], keeps the rows
    of the table in their order, with their labels, and removes exactly
    the rows that equal an earlier row, column by column, two missing
    markers counting as equal: row [i] is removed if and only if some row
    [j < i] equals it, so of several equal rows the first one is the one
    kept at that step. The table [clean_data] returns holds, in order, a
    part of these first occurrences, as their labels show: the steps
    that follow remove rows and add none. *)
Theorem drop_duplicates_keeps_first_occurrences
    {World : Type} (st : state World) (r : ref) (t : DataFrame) :
  heap st !! r = Some t ->
  wf_frame t ->
  columns t <> [] ->
  exists keep : list bool,
    length keep = len t
    /\ rows (drop_duplicates t) = take_mask keep (rows t)
    /\ index (drop_duplicates t) = take_mask keep (index t)
    /\ (forall i row,
          rows t !! i = Some row ->
          (keep !! i = Some false
           <-> exists j row', j < i /\ rows t !! j = Some row' /\ row_eqb row' row = true)
          /\ (keep !! i = Some true
              <-> forall j row', j < i -> rows t !! j = Some row' -> row_eqb row' row = false))
    /\ cell_eqb NA NA = true
    /\ exists r' d' fresh,
         clean_data r st
         = (inr r', mkState (heap st ++ fresh) (metrics_file st) (world st))
         /\ (heap st ++ fresh) !! r' = Some d'
         /\ remove_outliers (select_dtypes is_number (drop_duplicates t))
                            (impute (drop_duplicates t)) = inr d'
         /\ sublist (index d') (take_mask keep (index t)).
Proof.
  intros Hr Hwf Hcols. exists (map negb (duplicated t)).
  split; [rewrite length_map; apply duplicated_length|].
  split; [apply rows_drop_duplicates; assumption|].
  split; [apply index_drop_duplicates_mask; assumption|].
  split; [|split; [reflexivity|]].
  - intros i row Hi. rewrite map_lookup. unfold duplicated.
    rewrite (duplicated_scan_lookup (rows t) [] i row Hi). simpl.
    pose proof (existsb_take_earlier row (rows t) i) as Hex.
    destruct (existsb (row_eqb row) (take i (rows t))) eqn:E; simpl.
    + split.
      * split; [intros _; apply Hex; reflexivity | reflexivity].
      * split; [discriminate|]. intros Hall.
        destruct Hex as [Hex _]. destruct (Hex eq_refl) as (j & row' & Hlt & Hj & Heq).
        rewrite (Hall j row' Hlt Hj) in Heq. discriminate.
    + split.
      * split; [discriminate|]. intros Hdup. apply Hex in Hdup. discriminate.
      * split; [|reflexivity]. intros _ j row' Hlt Hj.
        destruct (row_eqb row' row) eqn:Heq; [|reflexivity].
        assert (Hd : false = true) by (apply Hex; eauto). discriminate.
  - destruct (clean_data_run st r t Hr) as (r' & d' & fresh & Hrun & Hframe & Hd' & _).
    exists r', d', fresh. split; [exact Hrun|]. split; [exact Hd'|].
    split; [exact Hframe|].
    destruct (shape_remove_outliers _ _ _ Hframe) as [_ Hidx].
    rewrite index_impute, (index_drop_duplicates_mask t Hcols) in Hidx. exact Hidx.
Qed.

Lemma drop_duplicates_keeps_first_occurrences_witness :
  exists keep : list bool,
    length keep = 6
    /\ rows (drop_duplicates Samples.readings_repeated)
       = take_mask keep (rows Samples.readings_repeated)
    /\ index (drop_duplicates Samples.readings_repeated)
       = take_mask keep (index Samples.readings_repeated).
Proof.
  destruct (drop_duplicates_keeps_first_occurrences
              (Demo.boot [Samples.readings_repeated]) 0 Samples.readings_repeated)
    as (keep & Hlen & Hrows & Hidx & _).
  - reflexivity.
  - split; [repeat constructor|].
    apply (bool_decide_unpack _). vm_compute. exact I.
  - discriminate.
  - exists keep. split; [exact Hlen|]. split; [exact Hrows | exact Hidx].
Defined.

(** ** C4: imputation *)

Lemma insert_sorted_length (x : f64) (l : list f64) :
  length (insert_sorted x l) = S (length l).
Proof.
  induction l as [|y l IH]; simpl; [reflexivity|].
  destruct (f64_leb x y); simpl; auto.
Qed.

Lemma sort_length (l : list f64) : length (sort l) = length l.
Proof.
  induction l as [|x l IH]; simpl; [reflexivity|].
  rewrite insert_sorted_length, IH. reflexivity.
Qed.

Lemma insert_sorted_Forall (P : f64 -> Prop) (x : f64) (l : list f64) :
  P x -> Forall P l -> Forall P (insert_sorted x l).
Proof.
  intros Hx. induction 1 as [|y l Hy Hl IH]; simpl; [auto|].
  destruct (f64_leb x y); auto.
Qed.

Lemma insert_sorted_ascending (x : f64) (l : list f64) :
  ascending l -> ascending (insert_sorted x l).
Proof.
  induction l as [|y l IH]; simpl; [auto|]. intros [Hy Hl].
  destruct (f64_leb x y) eqn:E; simpl.
  - split; [|auto]. constructor; [exact E|].
    eapply Forall_impl; [exact Hy|]. simpl. intros z Hz.
    apply (f64_le_trans x y z E Hz).
  - split; [|auto].
    apply insert_sorted_Forall; [apply f64_le_total; exact E | exact Hy].
Qed.

Lemma sort_ascending (l : list f64) : ascending (sort l).
Proof.
  induction l as [|x l IH]; simpl; [exact I|].
  apply insert_sorted_ascending. exact IH.
Qed.

Lemma insert_sorted_Permutation (x : f64) (l : list f64) :
  Permutation (insert_sorted x l) (x :: l).
Proof.
  induction l as [|y l IH]; simpl; [reflexivity|].
  destruct (f64_leb x y); [reflexivity|].
  rewrite IH. apply perm_swap.
Qed.

Lemma sort_Permutation (l : list f64) : Permutation (sort l) l.
Proof.
  induction l as [|x l IH]; simpl; [reflexivity|].
  rewrite insert_sorted_Permutation, IH. reflexivity.
Qed.

Lemma map_na_id (vs : list cell) :
  map (fun x => if isna x then NA else x) vs = vs.
Proof.
  induction vs as [|x vs IH]; simpl; [reflexivity|].
  rewrite IH. destruct x; reflexivity.
Qed.

(** Without any number the median is NaN. *)
Lemma median_None (s : Series) : numbers (svalues s) = [] -> median s = None.
Proof. unfold median. intros ->. reflexivity. Qed.

Lemma count_na_zero (d : DataFrame) (c : string) (s : Series) :
  getitem d c = Some s ->
  Forall (fun x => isna x = false) (svalues s) ->
  count_na d c = 0.
Proof.
  intros Hs Hall. unfold count_na. rewrite Hs.
  induction Hall as [|x vs Hx _ IH]; simpl; [reflexivity|].
  rewrite filter_cons. destruct (decide (isna x = true)); [congruence | exact IH].
Qed.

Lemma fillna_str_no_na (v : string) (s : Series) :
  Forall (fun x => isna x = false) (svalues (fillna_str v s)).
Proof.
  simpl. apply Forall_map. apply Forall_forall. intros x _.
  destruct x; reflexivity.
Qed.

(** In the frame [remove_outliers] returns, a column has the dtype it had
    at the start, and a property of all its values is kept. *)
Lemma remove_outliers_column (c : string) (cols : list string) :
  forall d d' s',
    remove_outliers cols d = inr d' ->
    getitem d' c = Some s' ->
    exists s, getitem d c = Some s /\ sdtype s = sdtype s'
              /\ forall P : cell -> Prop, Forall P (svalues s) -> Forall P (svalues s').
Proof.
  induction cols as [|col cols IH]; intros d d' s' Hrun Hs'; simpl in Hrun.
  - injection Hrun as <-. exists s'. auto.
  - destruct (getitem d col) as [s0|]; [|discriminate].
    destruct (IH _ _ _ Hrun Hs') as (s1 & Hs1 & Hdt & Hall).
    rewrite getitem_getitem_mask in Hs1.
    destruct (getitem d c) as [s|]; [|discriminate].
    injection Hs1 as <-. exists s. split; [reflexivity|]. split; [exact Hdt|].
    intros P HP. apply Hall. simpl. apply take_mask_Forall. exact HP.
Qed.

(** C4, as stated, fails for a column that is neither numeric nor text. A
    timestamp column is not imputed by [clean_data]: with the values
    missing, missing, 5 (the first two rows being equal), the cleaned
    table keeps one missing marker, which is neither 0 nor the 2 of the
    input. *)
Lemma timestamp_column_counterexample :
  exists (r' : ref) (d' : DataFrame),
    fst (clean_data 0 (Demo.boot [Demo.events])) = inr r'
    /\ heap (snd (clean_data 0 (Demo.boot [Demo.events]))) !! r' = Some d'
    /\ count_na Demo.events "created_at" = 2
    /\ count_na d' "created_at" = 1
    /\ ~ (count_na d' "created_at" = 0
          \/ count_na d' "created_at" = count_na Demo.events "created_at").
Proof.
  eexists. eexists. split; [vm_compute; reflexivity|].
  split; [vm_compute; reflexivity|].
  split; [vm_compute; reflexivity|].
  split; [vm_compute; reflexivity|].
  vm_compute. intros [H|H]; discriminate.
Qed.

(** C4, amended: in [clean_data], after deduplication, each missing
    value of a numeric column is replaced by the median of the column's
    non-missing values and each missing value of a text (object) column
    by "Unknown"; the median is the middle one of the non-missing values
    in ascending order, or the mean of the two middle ones; a numeric
    column without any non-missing value has no median and its missing
    values remain; columns of other dtypes (timestamps) are not imputed.
    In the table [clean_data] returns, the count of missing markers of
    every numeric and of every text column is 0, or unchanged from the
    input for an entirely missing numeric column. *)
Theorem numeric_and_text_columns_imputed
    {World : Type} (st : state World) (r : ref) (t : DataFrame) :
  heap st !! r = Some t ->
  wf_frame t ->
  (forall c s,
      getitem (drop_duplicates t) c = Some s ->
      getitem (impute (drop_duplicates t)) c
      = Some (match sdtype s with
              | number =>
                  mkSeries number
                    (map (fun x => if isna x then cell_of_float (median s) else x)
                         (svalues s))
              | object =>
                  mkSeries object
                    (map (fun x => if isna x then Str "Unknown" else x) (svalues s))
              | _ => s
              end))
  /\ (forall s,
        exists sorted : list f64,
          Permutation sorted (numbers (svalues s))
          /\ ascending sorted
          /\ median s
             = let n := length sorted in
               if n =? 0 then None
               else if Nat.odd n then Some (nth (n / 2) sorted (FZero false))
               else fdiv (fadd (Some (nth (n / 2 - 1) sorted (FZero false)))
                               (Some (nth (n / 2) sorted (FZero false))))
                         (float_of_Z 2))
  /\ (forall s, numbers (svalues s) = [] ->
                 map (fun x => if isna x then cell_of_float (median s) else x) (svalues s)
                 = svalues s)
  /\ exists r' d' fresh,
       clean_data r st
       = (inr r', mkState (heap st ++ fresh) (metrics_file st) (world st))
       /\ (heap st ++ fresh) !! r' = Some d'
       /\ forall c s',
            getitem d' c = Some s' ->
            sdtype s' = number \/ sdtype s' = object ->
            count_na d' c = 0
            \/ (exists s, getitem t c = Some s /\ sdtype s = number
                           /\ numbers (svalues s) = []
                           /\ count_na d' c = count_na t c).
Proof.
  intros Hr Hwf.
  pose proof (wf_drop_duplicates t Hwf) as [_ Hnd].
  set (d := drop_duplicates t) in *.
  split; [|split; [|split]].
  - intros c s Hs. rewrite (getitem_impute d c s Hnd Hs).
    destruct (sdtype s) eqn:Hdt; try reflexivity.
    + unfold fillna_float. destruct (median s) as [m|]; simpl.
      * rewrite Hdt. reflexivity.
      * rewrite map_na_id. destruct s as [dt vs]. simpl in *. subst dt. reflexivity.
    + unfold fillna_str. rewrite Hdt. reflexivity.
  - intros s. exists (sort (numbers (svalues s))).
    split; [apply sort_Permutation|]. split; [apply sort_ascending|]. reflexivity.
  - intros s Hn. rewrite (median_None s Hn). apply map_na_id.
  - destruct (clean_data_run st r t Hr) as (r' & d' & fresh & Hrun & Hframe & Hd' & _).
    exists r', d', fresh. split; [exact Hrun|]. split; [exact Hd'|].
    unfold clean_frame in Hframe. fold d in Hframe.
    intros c s' Hs' Hdt. left.
    apply (count_na_zero d' c s' Hs').
    destruct (remove_outliers_column c _ _ _ _ Hframe Hs') as (s1 & Hs1 & Hdt1 & Hall).
    destruct (getitem d c) as [s|] eqn:Hs.
    2:{ assert (Hin : c ∈ column_names (impute d)) by (apply in_names_getitem; eauto).
        rewrite column_names_impute in Hin. apply in_names_getitem in Hin as [s Hs0].
        congruence. }
    rewrite (getitem_impute d c s Hnd Hs) in Hs1. injection Hs1 as <-.
    destruct (sdtype s) eqn:Hds.
    + (* number: the column has its own outlier pass *)
      assert (Hin : c ∈ select_dtypes is_number d).
      { apply elem_of_select_dtypes; [exact Hnd|]. exists s. rewrite Hds. auto. }
      apply (remove_outliers_no_na c _ _ _ Hin Hframe s' Hs').
    + (* object: filled with "Unknown" *)
      apply Hall. apply fillna_str_no_na.
    + rewrite <- Hdt1 in Hdt. rewrite Hds in Hdt. destruct Hdt; discriminate.
    + rewrite <- Hdt1 in Hdt. rewrite Hds in Hdt. destruct Hdt; discriminate.
Qed.

Lemma numeric_and_text_columns_imputed_witness :
  getitem (impute (drop_duplicates Samples.gaps)) "value"
  = Some (mkSeries number [num 10; num 20; num 30])
  /\ getitem (impute (drop_duplicates Samples.gaps)) "label"
     = Some (mkSeries object [Str "X"; Str "Unknown"; Str "Z"])
  /\ exists r' d' fresh,
       clean_data 0 (Demo.boot [Samples.gaps])
       = (inr r', mkState ([Samples.gaps] ++ fresh) Absent 0)
       /\ ([Samples.gaps] ++ fresh) !! r' = Some d'
       /\ count_na d' "value" = 0.
Proof.
  destruct (numeric_and_text_columns_imputed (Demo.boot [Samples.gaps]) 0 Samples.gaps)
    as (Himpute & _ & _ & r' & d' & fresh & Hrun & Hd' & Hcount).
  - reflexivity.
  - split; [repeat constructor|].
    apply (bool_decide_unpack _). vm_compute. exact I.
  - split; [|split].
    + rewrite (Himpute "value" (mkSeries number [num 10; NA; num 30]));
        [vm_compute; reflexivity | vm_compute; reflexivity].
    + rewrite (Himpute "label" (mkSeries object [Str "X"; NA; Str "Z"]));
        [vm_compute; reflexivity | vm_compute; reflexivity].
    + exists r', d', fresh. split; [exact Hrun|]. split; [exact Hd'|].
      assert (Hd : exists s', getitem d' "value" = Some s' /\ sdtype s' = number).
      { revert Hd'. revert Hrun. vm_compute. intros [= <- <-]. vm_compute.
        intros [= <-]. eexists. split; reflexivity. }
      destruct Hd as (s' & Hs' & Hdt).
      destruct (Hcount "value" s' Hs' (or_introl Hdt)) as [H0|(s & Hs & _ & Hn & _)];
        [exact H0|].
      revert Hs. vm_compute. intros [= <-]. vm_compute in Hn. discriminate.
Defined.

(** ** C2: outlier removal *)

(** The test of lines 105-110 on one value: at least the lower and at
    most the upper bound, neither bound being NaN. *)
Lemma within_iqr_bounds (s : Series) (x : f64) :
  within (iqr_bounds s) (Num x) = true
  <-> exists lower upper : f64,
        iqr_bounds s = (Some lower, Some upper)
        /\ f64_le lower x /\ f64_le x upper.
Proof.
  unfold within. destruct (iqr_bounds s) as [[lo|] [hi|]]; simpl.
  - rewrite andb_true_iff. split.
    + intros [H1 H2]. exists lo, hi. auto.
    + intros (a & b & [= <- <-] & H1 & H2). auto.
  - split; [rewrite andb_true_iff; intros [_ H]; discriminate H|].
    intros (a & b & H & _). discriminate H.
  - split; [discriminate|]. intros (a & b & H & _). discriminate H.
  - split; [discriminate|]. intros (a & b & H & _). discriminate H.
Qed.

Lemma within_not_number (bounds : float * float) (c : cell) :
  is_num c = false -> within bounds c = false.
Proof. destruct c; simpl; auto; discriminate. Qed.

(** C2: [clean_data] removes outliers one numeric column after the
    other, in the column order of the table: the turn of column [col]
    takes Q1 and Q3 from the values [col] has in the table as the earlier
    turns have left it, and keeps exactly the rows whose value in [col]
    lies within [Q1 - 1.5 (Q3 - Q1), Q3 + 1.5 (Q3 - Q1)], the quartiles,
    the bounds and the two comparisons being those of float64 as lines
    105-110 compute them. The result depends on that order: for the
    table [Demo.readings] three rows survive, whereas four survive when
    every column's bounds are taken from the table before any row is
    dropped, and four survive when the two columns are swapped. The
    arithmetic is that of the floats: on the column 0.1, 0.1, 0.5, 1.3,
    3.1 the upper bound is the float next below 3.1 and the last row is
    dropped, and on 0.1, 0.1, 0.2, 0.3, 0.6 every row is kept. *)
Theorem outliers_removed_column_after_column
    {World : Type} (st : state World) (r : ref) (t : DataFrame) :
  heap st !! r = Some t ->
  wf_frame t ->
  (exists r' d' fresh,
      clean_data r st
      = (inr r', mkState (heap st ++ fresh) (metrics_file st) (world st))
      /\ (heap st ++ fresh) !! r' = Some d'
      /\ remove_outliers (select_dtypes is_number (drop_duplicates t))
                         (impute (drop_duplicates t)) = inr d')
  /\ sublist (select_dtypes is_number (drop_duplicates t))
             (column_names (drop_duplicates t))
  /\ (forall col cols d s,
        getitem d col = Some s ->
        remove_outliers (col :: cols) d
        = remove_outliers cols (getitem_mask d (outlier_mask s)))
  /\ (forall d col s,
        wf_frame d -> getitem d col = Some s ->
        rows (getitem_mask d (outlier_mask s))
        = take_mask (map (within (iqr_bounds s)) (svalues s)) (rows d))
  /\ (forall s,
        iqr_bounds s
        = let Q1 := quantile (float_of_Q 0.25) s in
          let Q3 := quantile (float_of_Q 0.75) s in
          (fsub Q1 (fmul (float_of_Q 1.5) (fsub Q3 Q1)),
           fadd Q3 (fmul (float_of_Q 1.5) (fsub Q3 Q1))))
  /\ (forall s x,
        within (iqr_bounds s) (Num x) = true
        <-> exists lower upper : f64,
              iqr_bounds s = (Some lower, Some upper)
              /\ f64_le lower x /\ f64_le x upper)
  /\ (forall s c, is_num c = false -> within (iqr_bounds s) c = false)
  /\ (exists d_seq d_swapped,
        clean_frame Demo.readings = inr d_seq
        /\ clean_frame Demo.readings_swapped = inr d_swapped
        /\ len d_seq = 3
        /\ len (remove_outliers_independent
                  (select_dtypes is_number (drop_duplicates Demo.readings))
                  (impute (drop_duplicates Demo.readings))) = 4
        /\ len d_swapped = 4)
  /\ (iqr_bounds (mkSeries number [num 0.1; num 0.1; num 0.5; num 1.3; num 3.1])
      = (Some (FFinite true 7656119366529842 (-52)),
         Some (FFinite false 6980579422424268 (-51)))
      /\ float_ltb (Some (FFinite false 6980579422424268 (-51))) (float_of_Q 3.1) = true
      /\ outlier_mask (mkSeries number [num 0.1; num 0.1; num 0.5; num 1.3; num 3.1])
         = [true; true; true; true; false]
      /\ outlier_mask (mkSeries number [num 0.1; num 0.1; num 0.2; num 0.3; num 0.6])
         = [true; true; true; true; true]).
Proof.
  intros Hr Hwf.
  split; [|split; [|split; [|split; [|split; [|split; [|split; [|split]]]]]]].
  - destruct (clean_data_run st r t Hr) as (r' & d' & fresh & Hrun & Hframe & Hd' & _).
    exists r', d', fresh. auto.
  - unfold select_dtypes, column_names. apply (fmap_sublist fst). apply sublist_filter.
  - intros col cols d s Hs. simpl. rewrite Hs. reflexivity.
  - intros d col s [Hlen _] Hs. apply rows_getitem_mask. exact Hlen.
  - reflexivity.
  - apply within_iqr_bounds.
  - intros s c. apply within_not_number.
  - eexists. eexists. split; [vm_compute; reflexivity|].
    split; [vm_compute; reflexivity|].
    split; [vm_compute; reflexivity|].
    split; vm_compute; reflexivity.
  - split; [vm_compute; reflexivity|]. split; [vm_compute; reflexivity|].
    split; vm_compute; reflexivity.
Qed.

Lemma outliers_removed_column_after_column_witness :
  exists r' d' fresh,
    clean_data 0 (Demo.boot [Demo.readings])
    = (inr r', mkState ([Demo.readings] ++ fresh) Absent 0)
    /\ ([Demo.readings] ++ fresh) !! r' = Some d'
    /\ remove_outliers (select_dtypes is_number (drop_duplicates Demo.readings))
                       (impute (drop_duplicates Demo.readings)) = inr d'.
Proof.
  destruct (outliers_removed_column_after_column (Demo.boot [Demo.readings]) 0 Demo.readings)
    as (Hrun & _).
  - reflexivity.
  - split; [repeat constructor|].
    apply (bool_decide_unpack _). vm_compute. exact I.
  - exact Hrun.
Defined.

(** ** C9: which stage works on a copy *)

Lemma normalize_loop_processed_at (cols : list string) :
  forall d,
    getitem (snd (normalize_loop cols d)) "processed_at" = getitem d "processed_at".
Proof.
  induction cols as [|col cols IH]; intros d; simpl; [reflexivity|].
  unfold normalize_step.
  destruct (existsb (String.eqb col) ["processed_at"]) eqn:Epa; [apply IH|].
  destruct (getitem d col) as [s|]; [|reflexivity].
  destruct (str_strip_title s) as [e|s']; [reflexivity|].
  rewrite IH. apply getitem_setitem_ne.
  intros <-. simpl in Epa. discriminate.
Qed.

Lemma len_add_price_category (t d1 : DataFrame) :
  add_price_category t = inr d1 -> len d1 = len t.
Proof.
  unfold add_price_category. destruct (has_column t "price").
  - destruct (getitem t "price") as [s|]; [|discriminate].
    destruct (pd_cut s price_bins price_labels); [discriminate|].
    intros [= <-]. reflexivity.
  - intros [= <-]. reflexivity.
Qed.

(** C9, as stated, fails for [transform_data]: it assigns into the frame
    it is given. After enriching the object that holds
    [Demo.products], that same object holds the enriched table; and when
    the text loop raises on [Demo.codes], the object keeps the two columns
    added before the failure. *)
Lemma enrich_in_place_counterexample :
  fst (transform_data (platform := Demo.csv_only) 0 (Demo.boot [Demo.products])) = inr 0
  /\ heap (snd (transform_data (platform := Demo.csv_only) 0 (Demo.boot [Demo.products]))) !! 0
     <> Some Demo.products
  /\ fst (transform_data (platform := Demo.csv_only) 0 (Demo.boot [Demo.codes]))
     = inl (PyErr "AttributeError" "Can only use .str accessor with string values!")
  /\ heap (snd (transform_data (platform := Demo.csv_only) 0 (Demo.boot [Demo.codes]))) !! 0
     <> Some Demo.codes.
Proof.
  split; [vm_compute; reflexivity|].
  split; [vm_compute; discriminate|].
  split; [vm_compute; reflexivity|].
  vm_compute. discriminate.
Qed.

(** C9, amended: [clean_data] produces new record sets and leaves every
    table that existed before the call, the caller's included, exactly as
    it was; the reference it returns is a new one. [transform_data] does
    not copy: it returns the reference it was given, no other object
    changes, and the caller's table itself is updated in place, so that
    after a successful call it holds the 'processed_at' column of the
    call. When [transform_data] raises, the caller's table is as it was
    if [pd.cut] raised, nothing having been assigned yet; if the text
    loop raised, the table keeps the columns assigned before the loop:
    'processed_at', and 'price_category' when there is a 'price'
    column. *)
Theorem clean_copies_and_enrich_updates_in_place
    {World : Type} {platform : Platform World}
    (st : state World) (r : ref) (t : DataFrame) :
  heap st !! r = Some t ->
  (exists r' fresh,
      clean_data r st
      = (inr r', mkState (heap st ++ fresh) (metrics_file st) (world st))
      /\ length (heap st) <= r'
      /\ forall r0 d0, heap st !! r0 = Some d0 -> (heap st ++ fresh) !! r0 = Some d0)
  /\ (exists out t' w',
        transform_data r st
        = (out, mkState (<[r := t']> (heap st)) (metrics_file st) w')
        /\ (forall r0, r0 <> r -> <[r := t']> (heap st) !! r0 = heap st !! r0)
        /\ (forall r', out = inr r' ->
              r' = r
              /\ <[r := t']> (heap st) !! r = Some t'
              /\ getitem t' "processed_at"
                 = Some (mkSeries datetime64
                           (repeat (Stamp (fst (datetime_now (world st)))) (len t))))
        /\ (forall e, out = inl e ->
              (add_price_category t = inl e /\ t' = t)
              \/ (exists d1,
                    add_price_category t = inr d1
                    /\ fst (normalize_loop
                              (select_dtypes is_object
                                 (add_processed_at (fst (datetime_now (world st))) d1))
                              (add_processed_at (fst (datetime_now (world st))) d1))
                       = Some e
                    /\ getitem t' "processed_at"
                       = Some (mkSeries datetime64
                                 (repeat (Stamp (fst (datetime_now (world st)))) (len t)))
                    /\ forall s, NoDup (column_names t) ->
                                 getitem t "price" = Some s ->
                                 getitem t' "price_category"
                                 = Some (mkSeries category
                                           (map (cut_cell price_bins price_labels)
                                                (svalues s)))))).
Proof.
  intros Hr. split.
  - destruct (clean_data_run st r t Hr) as (r' & d' & fresh & Hrun & _ & _ & Hge).
    exists r', fresh. split; [exact Hrun|]. split; [exact Hge|].
    intros r0 d0 H0. apply lookup_app_l_Some. exact H0.
  - rewrite (transform_data_run st r t Hr).
    destruct (add_price_category t) as [e|d1] eqn:Hadd.
    + exists (inl e), t, (world st). split.
      * rewrite list_insert_id by exact Hr. destruct st; reflexivity.
      * split; [intros r0 Hne; apply list_lookup_insert_ne; auto|].
        split; [discriminate|]. intros e' [= <-]. left. auto.
    + set (now := fst (datetime_now (world st))).
      exists (match fst (enrich_frame now d1) with None => inr r | Some e => inl e end),
             (snd (enrich_frame now d1)), (snd (datetime_now (world st))).
      split; [reflexivity|].
      split; [intros r0 Hne; apply list_lookup_insert_ne; auto|].
      assert (Hpa : getitem (snd (enrich_frame now d1)) "processed_at"
                    = Some (mkSeries datetime64 (repeat (Stamp now) (len t)))).
      { unfold enrich_frame. rewrite normalize_loop_processed_at.
        unfold add_processed_at. rewrite getitem_setitem_eq.
        rewrite (len_add_price_category t d1 Hadd). reflexivity. }
      split.
      * intros r' Hout. destruct (fst (enrich_frame now d1)); [discriminate|].
        injection Hout as <-. split; [reflexivity|]. split; [|exact Hpa].
        apply list_lookup_insert_eq. eapply lookup_lt_Some. exact Hr.
      * intros e Hout. right. exists d1. split; [reflexivity|].
        split.
        { change (fst (enrich_frame now d1) = Some e).
          destruct (fst (enrich_frame now d1)); [congruence | discriminate]. }
        split; [exact Hpa|].
        intros s Hnd Hs. unfold enrich_frame.
        destruct (add_price_category_dtype t d1 Hadd) as [[Hnone _]|(s0 & Hs0 & Hdt & Hd1)];
          [congruence|].
        rewrite Hs in Hs0. injection Hs0 as <-.
        assert (Hcat : getitem (add_processed_at now d1) "price_category"
                       = Some (mkSeries category
                                 (map (cut_cell price_bins price_labels) (svalues s)))).
        { unfold add_processed_at. rewrite getitem_setitem_ne by discriminate.
          rewrite Hd1. apply getitem_setitem_eq. }
        rewrite normalize_loop_untouched; [exact Hcat|].
        intros Hin. apply elem_of_select_dtypes in Hin as (s1 & Hs1 & Hobj).
        -- rewrite Hcat in Hs1. injection Hs1 as <-. discriminate Hobj.
        -- apply column_names_setitem_NoDup. rewrite Hd1.
           apply column_names_setitem_NoDup. exact Hnd.
Qed.

Lemma clean_copies_and_enrich_updates_in_place_witness :
  exists r' fresh,
    clean_data 0 (Demo.boot [Demo.products])
    = (inr r', mkState ([Demo.products] ++ fresh) Absent 0)
    /\ 1 <= r'
    /\ forall r0 d0, [Demo.products] !! r0 = Some d0 ->
                     ([Demo.products] ++ fresh) !! r0 = Some d0.
Proof.
  destruct (clean_copies_and_enrich_updates_in_place
              (platform := Demo.csv_only) (Demo.boot [Demo.products]) 0 Demo.products)
    as (Hclean & _).
  - reflexivity.
  - exact Hclean.
Defined.

(* ================================================================== *)
(** * The claims about the run *)

(** ** What a computation leaves alone *)

Section Frames.
Context {World : Type} {platform : Platform World}.
Implicit Types (st : state World).

Lemma keeps_file_ret {A} (a : A) : keeps_file (ret (World := World) a).
Proof. intros st. reflexivity. Qed.

Lemma keeps_file_raise {A} (e : exn) : keeps_file (raise (World := World) (A := A) e).
Proof. intros st. reflexivity. Qed.

Lemma keeps_file_bind {A B} (m : M World A) (k : A -> M World B) :
  keeps_file m -> (forall a, keeps_file (k a)) -> keeps_file (bind m k).
Proof.
  intros Hm Hk st. unfold bind. specialize (Hm st).
  destruct (m st) as [[e|a] st1]; simpl in *; [exact Hm|].
  rewrite (Hk a st1). exact Hm.
Qed.

Lemma keeps_file_try_except {A} (m : M World A) (h : exn -> M World A) :
  keeps_file m -> (forall e, keeps_file (h e)) -> keeps_file (try_except m h).
Proof.
  intros Hm Hh st. unfold try_except. specialize (Hm st).
  destruct (m st) as [[e|a] st1]; simpl in *; [|exact Hm].
  rewrite (Hh e st1). exact Hm.
Qed.

Lemma keeps_file_lift {A} (r : exn + A) : keeps_file (lift (World := World) r).
Proof. destruct r; intros st; reflexivity. Qed.

Lemma keeps_file_alloc (d : DataFrame) : keeps_file (alloc (World := World) d).
Proof. intros st. reflexivity. Qed.

Lemma keeps_file_deref (r : ref) : keeps_file (deref (World := World) r).
Proof. intros st. unfold deref. destruct (heap st !! r); reflexivity. Qed.

Lemma keeps_file_mutate (r : ref) (g : DataFrame -> DataFrame) :
  keeps_file (mutate (World := World) r g).
Proof. intros st. unfold mutate. destruct (heap st !! r); reflexivity. Qed.

Lemma keeps_file_external {A} (op : World -> A * World) : keeps_file (external op).
Proof. intros st. rewrite external_run. reflexivity. Qed.

Lemma keeps_file_column (d : DataFrame) (c : string) :
  keeps_file (column (World := World) d c).
Proof. unfold column. destruct (getitem d c); intros st; reflexivity. Qed.

Lemma keeps_file_for_each {A} (xs : list A) (body : A -> M World unit) :
  (forall x, keeps_file (body x)) -> keeps_file (for_each xs body).
Proof.
  intros Hb. induction xs as [|x xs IH]; simpl.
  - apply keeps_file_ret.
  - apply keeps_file_bind; auto.
Qed.

Lemma keeps_file_for_fold {A B} (xs : list A) (body : B -> A -> M World B) :
  (forall b x, keeps_file (body b x)) -> forall b, keeps_file (for_fold xs body b).
Proof.
  intros Hb. induction xs as [|x xs IH]; intros b; simpl.
  - apply keeps_file_ret.
  - apply keeps_file_bind; auto.
Qed.

Lemma keeps_file_if {A} (b : bool) (m1 m2 : M World A) :
  keeps_file m1 -> keeps_file m2 -> keeps_file (if b then m1 else m2).
Proof. destruct b; auto. Qed.

Create HintDb keeps discriminated.
#[local] Hint Resolve keeps_file_ret keeps_file_raise keeps_file_lift keeps_file_alloc
  keeps_file_deref keeps_file_mutate keeps_file_external keeps_file_column : keeps.
#[local] Hint Extern 2 (keeps_file (bind _ _)) =>
  apply keeps_file_bind; [|intros ?] : keeps.
#[local] Hint Extern 2 (keeps_file (try_except _ _)) =>
  apply keeps_file_try_except; [|intros ?] : keeps.
#[local] Hint Extern 2 (keeps_file (for_each _ _)) =>
  apply keeps_file_for_each; intros ? : keeps.
#[local] Hint Extern 2 (keeps_file (for_fold _ _ _)) =>
  apply keeps_file_for_fold; intros ? ? : keeps.
#[local] Hint Extern 2 (keeps_file (if _ then _ else _)) =>
  apply keeps_file_if : keeps.
#[local] Hint Extern 3 (keeps_file (match ?x with _ => _ end)) => destruct x : keeps.

Lemma keeps_file_clean_data (r : ref) : keeps_file (clean_data (World := World) r).
Proof. unfold clean_data, remove_outliers_step. auto 20 with keeps. Qed.

Lemma keeps_file_transform_data (r : ref) : keeps_file (transform_data r).
Proof. unfold transform_data, normalize_text_column. auto 20 with keeps. Qed.

Lemma keeps_file_extract_and_combine : keeps_file extract_and_combine.
Proof.
  unfold extract_and_combine, guarded_extract, extract_csv, extract_api, concat_refs.
  auto 30 with keeps.
Qed.

Lemma keeps_file_run_stages (config : list (string * json)) :
  keeps_file (run_stages config).
Proof.
  unfold run_stages, write_database, write_csv, write_json,
    load_to_database, load_to_csv, load_to_json.
  pose proof keeps_file_clean_data. pose proof keeps_file_transform_data.
  pose proof keeps_file_extract_and_combine.
  auto 30 with keeps.
Qed.

(** *** Taking a sequence apart *)

Lemma bind_inr_inv {A B} (m : M World A) (k : A -> M World B) st b st' :
  bind m k st = (inr b, st') ->
  exists a st1, m st = (inr a, st1) /\ k a st1 = (inr b, st').
Proof.
  unfold bind. destruct (m st) as [[e|a] st1]; [discriminate|]. eauto.
Qed.

Lemma load_success (op : DataFrame -> World -> (exn + unit) * World) (r : ref) st st' u :
  (d <- deref r ;; res <- external (op d) ;; lift res) st = (inr u, st') ->
  heap st' = heap st /\ exists d, heap st !! r = Some d.
Proof.
  intros Hrun. apply bind_inr_inv in Hrun as (d & st1 & Hd & Hrun).
  unfold deref in Hd. destruct (heap st !! r) as [d0|] eqn:E; [|discriminate].
  injection Hd as <- <-.
  apply bind_inr_inv in Hrun as (res & st2 & Hop & Hrun).
  rewrite external_run in Hop. injection Hop as <- <-.
  destruct (fst (op d0 (world st))); [discriminate|].
  injection Hrun as <- <-. simpl. eauto.
Qed.

(** A sink write that returns: its target was in the configuration,
    the table behind the reference went to the sink, which accepted it;
    only the world has changed. *)
Lemma write_returns (key : string)
    (op : DataFrame -> json -> World -> (exn + unit) * World)
    (config : list (string * json)) (r : ref) st st' u :
  (path <- lift (config_target config key) ;;
   d <- deref r ;; res <- external (op d path) ;; lift res) st = (inr u, st') ->
  exists path d,
    config_target config key = inr path
    /\ heap st !! r = Some d
    /\ fst (op d path (world st)) = inr tt
    /\ st' = mkState (heap st) (metrics_file st) (snd (op d path (world st))).
Proof.
  intros Hrun. apply bind_inr_inv in Hrun as (path & st0 & Hp & Hrun).
  destruct (config_target config key) as [e|p]; [discriminate|].
  injection Hp as <- <-.
  apply bind_inr_inv in Hrun as (d & st1 & Hd & Hrun).
  unfold deref in Hd. destruct (heap st !! r) as [d0|] eqn:E; [|discriminate].
  injection Hd as <- <-.
  apply bind_inr_inv in Hrun as (res & st2 & Hop & Hrun).
  rewrite external_run in Hop. injection Hop as <- <-.
  exists p, d0. split; [reflexivity|]. split; [reflexivity|].
  destruct (fst (op d0 p (world st))) as [e|[]]; [discriminate|].
  injection Hrun as _ <-. auto.
Qed.

(** When the stages succeed, the reference they yield is valid. *)
Lemma run_stages_ref (config : list (string * json)) st tr end_time st2 :
  run_stages config st = (inr (tr, end_time), st2) ->
  exists d, heap st2 !! tr = Some d.
Proof.
  unfold run_stages. intros Hrun.
  apply bind_inr_inv in Hrun as (c & s1 & _ & Hrun).
  apply bind_inr_inv in Hrun as (cl & s2 & _ & Hrun).
  apply bind_inr_inv in Hrun as (t & s3 & _ & Hrun).
  apply bind_inr_inv in Hrun as (u1 & s4 & H1 & Hrun).
  apply bind_inr_inv in Hrun as (u2 & s5 & H2 & Hrun).
  apply bind_inr_inv in Hrun as (u3 & s6 & H3 & Hrun).
  apply bind_inr_inv in Hrun as (e & s7 & H4 & Hrun).
  injection Hrun as <- <- <-.
  rewrite external_run in H4. injection H4 as <- <-. simpl.
  apply (write_returns "json_path" (fun d => to_json d)) in H3
    as (path & d & _ & Hd & _ & ->).
  simpl. eauto.
Qed.

(** The body of the [try] is the stages followed by the success record. *)
Lemma run_pipeline_body_stages (config : list (string * json)) (start_time : Z) st :
  run_pipeline_body config start_time st
  = match run_stages config st with
    | (inr (transformed_data, end_time), st2) =>
        (d <- deref transformed_data ;;
         log_metrics (success_metrics start_time end_time (len d))) st2
    | (inl e, st2) => (inl e, st2)
    end.
Proof.
  unfold run_pipeline_body, run_stages. unfold bind at 1 9.
  destruct (extract_and_combine st) as [[e|c] s1]; [reflexivity|].
  unfold bind at 1 8.
  destruct (clean_data c s1) as [[e|cl] s2]; [reflexivity|].
  unfold bind at 1 7.
  destruct (transform_data cl s2) as [[e|t] s3]; [reflexivity|].
  unfold bind at 1 6.
  destruct (write_database config t s3) as [[e|u1] s4]; [reflexivity|].
  unfold bind at 1 5.
  destruct (write_csv config t s4) as [[e|u2] s5]; [reflexivity|].
  unfold bind at 1 4.
  destruct (write_json config t s5) as [[e|u3] s6]; [reflexivity|].
  unfold bind at 1 3.
  destruct (external datetime_now s6) as [[e|en] s7]; reflexivity.
Qed.

End Frames.

(** ** The columns of a concatenation *)

Lemma existsb_eqb_elem (n : string) (acc : list string) :
  existsb (String.eqb n) acc = true <-> n ∈ acc.
Proof.
  rewrite existsb_exists, list_elem_of_In. split.
  - intros (x & Hx & E). apply String.eqb_eq in E. subst. exact Hx.
  - intros Hn. exists n. split; [exact Hn | apply String.eqb_refl].
Qed.

Lemma add_names_cons (n : string) (names acc : list string) :
  add_names (n :: names) acc
  = add_names names (if existsb (String.eqb n) acc then acc else acc ++ [n]).
Proof. reflexivity. Qed.

Lemma add_names_elem (names : list string) :
  forall acc c, c ∈ add_names names acc <-> c ∈ acc \/ c ∈ names.
Proof.
  induction names as [|n names IH]; intros acc c.
  - simpl. split; [auto|]. intros [H|H]; [exact H|]. apply elem_of_nil in H. contradiction.
  - rewrite add_names_cons, IH, elem_of_cons.
    destruct (existsb (String.eqb n) acc) eqn:E.
    + apply existsb_eqb_elem in E. split; [tauto|].
      intros [H|[->|H]]; auto.
    + rewrite elem_of_app, list_elem_of_singleton. tauto.
Qed.

Lemma add_names_NoDup (names : list string) :
  forall acc, NoDup acc -> NoDup (add_names names acc).
Proof.
  induction names as [|n names IH]; intros acc Hnd; [exact Hnd|].
  rewrite add_names_cons. apply IH.
  destruct (existsb (String.eqb n) acc) eqn:E; [exact Hnd|].
  apply NoDup_app. split; [exact Hnd|]. split; [|apply NoDup_singleton].
  intros x Hx Hx'. apply list_elem_of_singleton in Hx'. subst.
  apply existsb_eqb_elem in Hx. congruence.
Qed.

Lemma add_names_prefix (names : list string) :
  forall acc, exists more, add_names names acc = acc ++ more.
Proof.
  induction names as [|n names IH]; intros acc.
  - exists []. simpl. rewrite app_nil_r. reflexivity.
  - rewrite add_names_cons. destruct (existsb (String.eqb n) acc).
    + apply IH.
    + destruct (IH (acc ++ [n])) as [more ->]. exists (n :: more).
      rewrite <- app_assoc. reflexivity.
Qed.

Lemma add_names_fresh (names : list string) :
  forall acc,
    NoDup names -> (forall n, n ∈ names -> n ∉ acc) ->
    add_names names acc = acc ++ names.
Proof.
  induction names as [|n names IH]; intros acc Hnd Hfresh.
  - simpl. rewrite app_nil_r. reflexivity.
  - rewrite add_names_cons. apply NoDup_cons in Hnd as [Hn Hnd].
    destruct (existsb (String.eqb n) acc) eqn:E.
    + apply existsb_eqb_elem in E. exfalso. apply (Hfresh n); [left | exact E].
    + rewrite IH; [rewrite <- app_assoc; reflexivity | exact Hnd |].
      intros x Hx Hin. apply elem_of_app in Hin as [Hin|Hin].
      * apply (Hfresh x); [right; exact Hx | exact Hin].
      * apply list_elem_of_singleton in Hin. subst. contradiction.
Qed.

Lemma union_names_add (frames : list DataFrame) :
  union_names frames
  = fold_left (fun acc df => add_names (column_names df) acc) frames [].
Proof. reflexivity. Qed.

Lemma fold_names_elem (frames : list DataFrame) :
  forall acc c,
    c ∈ fold_left (fun acc df => add_names (column_names df) acc) frames acc
    <-> c ∈ acc \/ exists d, d ∈ frames /\ c ∈ column_names d.
Proof.
  induction frames as [|d frames IH]; intros acc c; simpl.
  - split; [auto|]. intros [H|(d & Hd & _)]; [exact H|].
    apply elem_of_nil in Hd. contradiction.
  - rewrite IH, add_names_elem. split.
    + intros [[H|H]|(d' & Hd' & Hc)]; [auto| |].
      * right. exists d. split; [left | exact H].
      * right. exists d'. split; [right; exact Hd' | exact Hc].
    + intros [H|(d' & Hd' & Hc)]; [auto|].
      apply elem_of_cons in Hd' as [->|Hd']; [auto|].
      right. exists d'. auto.
Qed.

Lemma fold_names_NoDup (frames : list DataFrame) :
  forall acc,
    NoDup acc ->
    NoDup (fold_left (fun acc df => add_names (column_names df) acc) frames acc).
Proof.
  induction frames as [|d frames IH]; intros acc Hnd; simpl; [exact Hnd|].
  apply IH, add_names_NoDup, Hnd.
Qed.

Lemma fold_names_prefix (frames : list DataFrame) :
  forall acc,
    exists more,
      fold_left (fun acc df => add_names (column_names df) acc) frames acc = acc ++ more.
Proof.
  induction frames as [|d frames IH]; intros acc; simpl.
  - exists []. rewrite app_nil_r. reflexivity.
  - destruct (add_names_prefix (column_names d) acc) as [m1 ->].
    destruct (IH (acc ++ m1)) as [m2 ->]. exists (m1 ++ m2).
    rewrite app_assoc. reflexivity.
Qed.

Lemma column_or_na_length (c : string) (d : DataFrame) :
  wf_frame d -> length (column_or_na c d) = len d.
Proof.
  intros [Hlen _]. unfold column_or_na.
  destruct (getitem d c) as [s|] eqn:Hs.
  - apply (getitem_Forall (fun x => length (svalues x) = len d) d c s Hlen Hs).
  - apply repeat_length.
Qed.

Lemma flat_map_column_length (c : string) (frames : list DataFrame) :
  Forall wf_frame frames ->
  length (flat_map (column_or_na c) frames) = list_sum (map len frames).
Proof.
  induction 1 as [|d frames Hd _ IH]; simpl; [reflexivity|].
  rewrite length_app, IH, (column_or_na_length c d Hd). reflexivity.
Qed.


(** ** C7: the metrics recorder *)

Section Recorder.
Context {World : Type}.
Implicit Types (st : state World).

Lemma log_metrics_run (metrics : json) (items : list json) st :
  log_items (metrics_file st) = Some items ->
  log_metrics metrics st
  = (inr tt, mkState (heap st) (Holds (JList (items ++ [metrics]))) (world st)).
Proof.
  unfold log_items, recorder_error, log_metrics.
  destruct (existing_metrics (metrics_file st)) as [e|v]; [discriminate|].
  destruct v; try discriminate.
  destruct (metrics_file st); try discriminate; intros [= ->]; reflexivity.
Qed.

Lemma log_metrics_raises (metrics : json) (err : exn) st :
  recorder_error (metrics_file st) = Some err ->
  log_metrics metrics st = (inl err, st).
Proof.
  unfold recorder_error, log_metrics.
  destruct (existing_metrics (metrics_file st)) as [e|v]; [intros [= ->]; reflexivity|].
  destruct v; try (intros [= <-]; reflexivity).
  destruct (metrics_file st); try discriminate. intros [= ->]. reflexivity.
Qed.

(** The recorder raises exactly on the logs it cannot extend. *)
Lemma log_items_None (f : file) :
  log_items f = None <-> exists err, recorder_error f = Some err.
Proof.
  unfold log_items. destruct (recorder_error f) as [err|] eqn:E.
  - split; [eauto | reflexivity].
  - split; [|intros [err H]; discriminate H].
    unfold recorder_error in E.
    destruct (existing_metrics f) as [e|v]; [discriminate|].
    destruct v; discriminate.
Qed.

(** From a log that can be extended, a series of calls extends it by the
    records of the calls, in call order. *)
Lemma record_all_run (records : list json) :
  forall (items : list json) (h : list DataFrame) (f : file) (w : World),
    log_items f = Some items ->
    record_all records (mkState h f w)
    = (inr tt,
       mkState h (match records with
                  | [] => f
                  | _ => Holds (JList (items ++ records))
                  end) w).
Proof.
  induction records as [|m records IH]; intros items h f w Hf; [reflexivity|].
  cbn [record_all].
  rewrite (bind_inr _ _ _ tt (mkState h (Holds (JList (items ++ [m]))) w)).
  2:{ apply (log_metrics_run m items (mkState h f w)). exact Hf. }
  rewrite (IH (items ++ [m]) h (Holds (JList (items ++ [m]))) w eq_refl).
  destruct records as [|m' records].
  - reflexivity.
  - rewrite <- app_assoc. reflexivity.
Qed.

(** C7, the code at a metrics file that is not valid UTF-8: [json.load]
    raises UnicodeDecodeError, a ValueError that is none of the classes
    line 340 names, so the recorder raises it and appends nothing,
    whereas a file that raises JSONDecodeError is read as the empty
    array. *)
Lemma recorder_surfaces_undecodable_log
    (metrics : json) (h : list DataFrame) (w : World) :
  let undecodable :=
    PyErr "UnicodeDecodeError" "'utf-8' codec can't decode byte 0xff in position 0" in
  log_metrics metrics (mkState h (Broken undecodable) w)
  = (inl undecodable, mkState h (Broken undecodable) w)
  /\ log_metrics metrics
       (mkState h (Broken (PyErr "JSONDecodeError" "Expecting value")) w)
     = (inr tt, mkState h (Holds (JList [metrics])) w).
Proof. split; reflexivity. Qed.

(** X15: calling the recorder once for each of N records, starting with
    no metrics file, or with one whose reading raises an exception that
    line 340 catches, raises nothing and leaves a file that holds the
    JSON array of exactly those N records in call order. Each call on a
    log the recorder can extend appends its record to the records read
    and writes the whole array back. *)
Theorem recorder_log_in_call_order
    (records : list json) (h : list DataFrame) (w : World) :
  (forall f,
      f = Absent \/ (exists e, f = Broken e /\ caught_on_read e = true) ->
      record_all records (mkState h f w)
      = (inr tt, mkState h (match records with
                            | [] => f
                            | _ => Holds (JList records)
                            end) w)
      /\ existing_metrics (match records with
                           | [] => f
                           | _ => Holds (JList records)
                           end) = inr (JList records))
  /\ (forall (metrics : json) (items : list json) (st : state World),
        log_items (metrics_file st) = Some items ->
        log_metrics metrics st
        = (inr tt, mkState (heap st) (Holds (JList (items ++ [metrics]))) (world st))).
Proof.
  split.
  - intros f Hf.
    assert (Hitems : log_items f = Some []).
    { destruct Hf as [-> | (e & -> & He)]; [reflexivity|].
      unfold log_items, recorder_error. simpl. rewrite He. reflexivity. }
    rewrite (record_all_run records [] h f w Hitems). simpl.
    split; [reflexivity|].
    destruct records; [|reflexivity].
    destruct Hf as [-> | (e & -> & He)]; [reflexivity|]. simpl. rewrite He. reflexivity.
  - intros metrics items st Hex. apply log_metrics_run. exact Hex.
Qed.

End Recorder.

(** ** C5: collecting from the sources *)

Section Collect.
Context {World : Type} {platform : Platform World}.
Implicit Types (st : state World).

Lemma guarded_extract_run (extract : M World ref) (acc : list ref) st :
  guarded_extract extract acc st
  = (inr (acc ++ successes [fst (extract st)]), snd (extract st)).
Proof.
  unfold guarded_extract, try_except, bind.
  destruct (extract st) as [[e|r] st1]; simpl.
  - rewrite app_nil_r. reflexivity.
  - reflexivity.
Qed.

Lemma successes_cons (o : exn + ref) (os : list (exn + ref)) :
  successes (o :: os) = successes [o] ++ successes os.
Proof. destruct o; reflexivity. Qed.

(** The guarded loop calls every source once, in order, each on the state
    the previous one left, and gathers the references of those that
    returned. *)
Lemma collect_loop (sources : list (M World ref)) :
  forall (acc : list ref) st,
    for_fold sources (fun acc extract => guarded_extract extract acc) acc st
    = (inr (acc ++ successes (fst (attempts sources st))), snd (attempts sources st)).
Proof.
  induction sources as [|src sources IH]; intros acc st.
  - simpl. rewrite app_nil_r. reflexivity.
  - cbn [for_fold attempts].
    rewrite (bind_inr _ _ _ _ _ (guarded_extract_run src acc st)).
    rewrite IH.
    destruct (src st) as [o st1]. cbn [fst snd].
    destruct (attempts sources st1) as [os st2]. cbn [fst snd].
    rewrite (successes_cons o os), app_assoc. reflexivity.
Qed.

(** Reading the frames behind valid references. *)
Lemma deref_all (refs : list ref) :
  forall (frames acc : list DataFrame) st,
    Forall2 (fun r d => heap st !! r = Some d) refs frames ->
    for_fold refs (fun acc r => d <- deref r ;; ret (acc ++ [d])) acc st
    = (inr (acc ++ frames), st).
Proof.
  induction refs as [|r refs IH]; intros frames acc st Hall.
  - inversion Hall; subst. simpl. rewrite app_nil_r. reflexivity.
  - inversion Hall as [|? d ? frames' Hr Hrest]; subst.
    cbn [for_fold].
    rewrite (bind_inr _ _ _ (acc ++ [d]) st).
    2:{ rewrite (bind_inr _ _ _ d st); [reflexivity | apply deref_Some; exact Hr]. }
    rewrite (IH frames' (acc ++ [d]) st Hrest), <- app_assoc. reflexivity.
Qed.

Lemma assoc_map_names (f : string -> Series) (c : string) (names : list string) :
  c ∈ names -> assoc c (map (fun n => (n, f n)) names) = Some (f c).
Proof.
  induction names as [|n names IH]; intros Hin.
  - apply elem_of_nil in Hin. contradiction.
  - simpl. destruct (String.eqb n c) eqn:E.
    + apply String.eqb_eq in E. subst. reflexivity.
    + apply String.eqb_neq in E. apply elem_of_cons in Hin as [->|Hin]; [congruence|].
      apply IH. exact Hin.
Qed.

Lemma nth_flat_map_offset (c : string) (frames : list DataFrame) :
  Forall wf_frame frames ->
  forall k d i,
    frames !! k = Some d -> (i < len d)%nat ->
    nth (list_sum (map len (take k frames)) + i) (flat_map (column_or_na c) frames) NA
    = nth i (column_or_na c d) NA.
Proof.
  induction 1 as [|d0 frames Hd0 _ IH]; intros k d i Hk Hi; [discriminate|].
  destruct k as [|k]; cbn [take map list_sum flat_map].
  - injection Hk as ->. simpl. apply app_nth1.
    rewrite (column_or_na_length c d Hd0). exact Hi.
  - change (list_sum (len d0 :: map len (take k frames)))
      with (len d0 + list_sum (map len (take k frames))).
    rewrite <- Nat.add_assoc, <- (column_or_na_length c d0 Hd0), app_nth2_plus.
    apply IH; assumption.
Qed.

Lemma cell_at_column_or_na (c : string) (d : DataFrame) (i : nat) :
  nth i (column_or_na c d) NA = cell_at d c i.
Proof.
  unfold column_or_na, cell_at. destruct (getitem d c); [reflexivity|].
  apply nth_repeat.
Qed.

Lemma dtype_eqb_eq (a b : dtype) : dtype_eqb a b = true <-> a = b.
Proof. destruct a, b; simpl; split; (reflexivity || discriminate). Qed.

Lemma dtypes_of_elem (c : string) (t : dtype) (frames : list DataFrame) :
  t ∈ dtypes_of c frames ->
  exists d s, d ∈ frames /\ getitem d c = Some s /\ sdtype s = t.
Proof.
  induction frames as [|d frames IH]; simpl; intros Ht.
  - apply elem_of_nil in Ht. contradiction.
  - destruct (getitem d c) as [s|] eqn:Hs.
    + apply elem_of_cons in Ht as [->|Ht].
      * exists d, s. split; [left | auto].
      * destruct (IH Ht) as (d' & s' & Hd' & Hg & Hty).
        exists d', s'. split; [right; exact Hd' | auto].
    + destruct (IH Ht) as (d' & s' & Hd' & Hg & Hty).
      exists d', s'. split; [right; exact Hd' | auto].
Qed.

Lemma dtypes_of_nonempty (c : string) (frames : list DataFrame) :
  (exists d, d ∈ frames /\ c ∈ column_names d) -> dtypes_of c frames <> [].
Proof.
  induction frames as [|d frames IH]; intros (d' & Hd' & Hc); simpl.
  - apply elem_of_nil in Hd'. contradiction.
  - destruct (getitem d c) as [s|] eqn:Hs; [discriminate|].
    apply IH. apply elem_of_cons in Hd' as [->|Hd']; [|eauto].
    exfalso. apply assoc_None_names in Hs. exact (Hs Hc).
Qed.

Lemma concat_dtype_shared (c : string) (t : dtype) (frames : list DataFrame) :
  (exists d, d ∈ frames /\ c ∈ column_names d) ->
  (forall d s, d ∈ frames -> getitem d c = Some s -> sdtype s = t) ->
  concat_dtype c frames = t.
Proof.
  intros Hex Hall. unfold concat_dtype.
  assert (Hts : forall t', t' ∈ dtypes_of c frames -> t' = t).
  { intros t' Ht'. destruct (dtypes_of_elem c t' frames Ht') as (d & s & Hd & Hg & <-).
    exact (Hall d s Hd Hg). }
  pose proof (dtypes_of_nonempty c frames Hex) as Hne.
  destruct (dtypes_of c frames) as [|t0 ts]; [contradiction|].
  assert (Hfor : forallb (dtype_eqb t0) ts = true).
  { apply forallb_forall. intros x Hx. apply dtype_eqb_eq.
    rewrite (Hts t0 ltac:(left)). symmetry. apply Hts. right.
    apply list_elem_of_In. exact Hx. }
  rewrite Hfor. apply Hts. left.
Qed.

(** [pd.concat] of at least one frame stacks the frames in the order of
    the list. *)
Lemma pd_concat_stacked (frames : list DataFrame) :
  frames <> [] -> Forall wf_frame frames ->
  exists df, pd_concat frames = inr df /\ stacked frames df.
Proof.
  intros Hne Hwf. destruct frames as [|d0 frames]; [contradiction|].
  set (fs := d0 :: frames) in *.
  eexists. split; [reflexivity|].
  assert (Hnames : column_names
                     (mkFrame (map Z.of_nat (seq 0 (list_sum (map len fs))))
                        (map (fun name =>
                                (name, mkSeries (concat_dtype name fs)
                                                (flat_map (column_or_na name) fs)))
                             (union_names fs)))
                   = union_names fs).
  { unfold column_names. cbn [columns]. rewrite map_map. cbn [fst]. apply map_id. }
  assert (Hmem : forall c, c ∈ union_names fs
                           <-> exists d, d ∈ fs /\ c ∈ column_names d).
  { intros c. rewrite union_names_add, fold_names_elem. split.
    - intros [H|H]; [apply elem_of_nil in H; contradiction | exact H].
    - auto. }
  assert (Hget : forall c, c ∈ union_names fs ->
                   getitem (mkFrame (map Z.of_nat (seq 0 (list_sum (map len fs))))
                        (map (fun name =>
                                (name, mkSeries (concat_dtype name fs)
                                                (flat_map (column_or_na name) fs)))
                             (union_names fs))) c
                   = Some (mkSeries (concat_dtype c fs) (flat_map (column_or_na c) fs))).
  { intros c Hc. unfold getitem. cbn [columns].
    apply (assoc_map_names
             (fun name => mkSeries (concat_dtype name fs)
                                   (flat_map (column_or_na name) fs))).
    exact Hc. }
  unfold stacked. rewrite Hnames.
  split; [reflexivity|]. split; [|split; [exact Hmem|split]].
  - rewrite union_names_add. apply fold_names_NoDup. constructor.
  - intros c Hc. eexists. split; [apply Hget; exact Hc|]. cbn [svalues sdtype].
    split; [apply flat_map_column_length; exact Hwf|].
    intros t Ht. apply concat_dtype_shared; [apply Hmem; exact Hc | exact Ht].
  - intros c k d i Hc Hk Hi. unfold cell_at at 1. rewrite (Hget c Hc). cbn [svalues].
    rewrite (nth_flat_map_offset c fs Hwf k d i Hk Hi).
    apply cell_at_column_or_na.
Qed.

(** The combining call on references to frames. *)
Lemma concat_refs_run (refs : list ref) (frames : list DataFrame) st :
  refs <> [] ->
  Forall2 (fun r d => heap st !! r = Some d) refs frames ->
  Forall wf_frame frames ->
  exists df,
    concat_refs refs st
    = (inr (length (heap st)), mkState (heap st ++ [df]) (metrics_file st) (world st))
    /\ pd_concat frames = inr df
    /\ stacked frames df.
Proof.
  intros Hne Hall Hwf.
  assert (Hfr : frames <> []).
  { intros ->. inversion Hall; subst. contradiction. }
  destruct (pd_concat_stacked frames Hfr Hwf) as (df & Hcat & Hst).
  exists df. split; [|auto].
  unfold concat_refs.
  rewrite (bind_inr _ _ _ _ _ (deref_all refs frames [] st Hall)). simpl.
  rewrite (bind_inr _ _ _ df st); [reflexivity|].
  rewrite Hcat. reflexivity.
Qed.

(** The collection the specification words, over any list of sources. *)
Lemma spec_collect_run (sources : list (M World ref)) st :
  spec_collect sources st
  = match successes (fst (attempts sources st)) with
    | [] => (inl NoDataAvailable, snd (attempts sources st))
    | refs => concat_refs refs (snd (attempts sources st))
    end.
Proof.
  unfold spec_collect.
  rewrite (bind_inr _ _ _ _ _ (collect_loop sources [] st)). cbn [app].
  destruct (successes (fst (attempts sources st))); reflexivity.
Qed.

(** The collecting code of [run_pipeline] is that collection for the CSV
    source followed by the API source. *)
Lemma extract_and_combine_spec st :
  extract_and_combine st
  = spec_collect [extract_csv "data/raw/input.csv";
                  extract_api "https://api.example.com/data"] st.
Proof.
  unfold spec_collect, extract_and_combine. cbn [for_fold]. unfold bind.
  destruct (guarded_extract (extract_csv "data/raw/input.csv") [] st) as [[e|x] s1];
    [reflexivity|].
  destruct (guarded_extract (extract_api "https://api.example.com/data") x s1)
    as [[e|y] s2]; reflexivity.
Qed.

(** C5: the collecting code (lines 258-278) calls the CSV source and then
    the API source, the second on the state the first left and whatever
    the first did; an exception of a source is absorbed and not raised.
    If at least one returned, the frames of those that returned are
    stacked in source order into a new frame: rows renumbered from 0,
    the columns of either frame, each row holding its frame's values. If
    both raised, collection raises "No data sources available", and
    whenever collection raises, the stages of the run end there with
    that exception. The code is the collection the specification words
    for a list of sources, applied to these two; that collection calls
    every source of its list once and in order, and raises the same
    exception on the empty list. *)
Theorem collect_tolerates_failing_sources
    (config : list (string * json)) (st : state World) :
  (extract_and_combine st
   = match successes [fst (extract_csv "data/raw/input.csv" st);
                      fst (extract_api "https://api.example.com/data"
                             (snd (extract_csv "data/raw/input.csv" st)))] with
     | [] => (inl NoDataAvailable,
              snd (extract_api "https://api.example.com/data"
                     (snd (extract_csv "data/raw/input.csv" st))))
     | refs => concat_refs refs
                 (snd (extract_api "https://api.example.com/data"
                         (snd (extract_csv "data/raw/input.csv" st))))
     end)
  /\ (forall e1 e2,
        fst (extract_csv "data/raw/input.csv" st) = inl e1 ->
        fst (extract_api "https://api.example.com/data"
               (snd (extract_csv "data/raw/input.csv" st))) = inl e2 ->
        run_stages config st
        = (inl NoDataAvailable,
           snd (extract_api "https://api.example.com/data"
                  (snd (extract_csv "data/raw/input.csv" st)))))
  /\ (forall refs frames st1,
        refs <> [] ->
        Forall2 (fun r d => heap st1 !! r = Some d) refs frames ->
        Forall wf_frame frames ->
        exists df,
          concat_refs refs st1
          = (inr (length (heap st1)),
             mkState (heap st1 ++ [df]) (metrics_file st1) (world st1))
          /\ pd_concat frames = inr df
          /\ stacked frames df)
  /\ (forall e st1, extract_and_combine st = (inl e, st1) ->
                    run_stages config st = (inl e, st1))
  /\ extract_and_combine st
     = spec_collect [extract_csv "data/raw/input.csv";
                     extract_api "https://api.example.com/data"] st
  /\ (forall (sources : list (M World ref)) (st0 : state World),
        spec_collect sources st0
        = match successes (fst (attempts sources st0)) with
          | [] => (inl NoDataAvailable, snd (attempts sources st0))
          | refs => concat_refs refs (snd (attempts sources st0))
          end)
  /\ (forall (src : M World ref) (rest : list (M World ref)) (st0 : state World),
        attempts (src :: rest) st0
        = (fst (src st0) :: fst (attempts rest (snd (src st0))),
           snd (attempts rest (snd (src st0)))))
  /\ spec_collect [] st = (inl NoDataAvailable, st).
Proof.
  assert (Hcode : extract_and_combine st
   = match successes [fst (extract_csv "data/raw/input.csv" st);
                      fst (extract_api "https://api.example.com/data"
                             (snd (extract_csv "data/raw/input.csv" st)))] with
     | [] => (inl NoDataAvailable,
              snd (extract_api "https://api.example.com/data"
                     (snd (extract_csv "data/raw/input.csv" st))))
     | refs => concat_refs refs
                 (snd (extract_api "https://api.example.com/data"
                         (snd (extract_csv "data/raw/input.csv" st))))
     end).
  { rewrite extract_and_combine_spec, spec_collect_run. cbn [attempts].
    destruct (extract_csv "data/raw/input.csv" st) as [o1 s1]. cbn [fst snd].
    destruct (extract_api "https://api.example.com/data" s1) as [o2 s2]. reflexivity. }
  split; [exact Hcode|]. split; [|split; [|split; [|split; [|split; [|split]]]]].
  - intros e1 e2 H1 H2. unfold run_stages. apply bind_inl.
    rewrite Hcode, H1, H2. reflexivity.
  - intros refs frames st1. apply concat_refs_run.
  - intros e st1 Hfail. unfold run_stages. apply bind_inl. exact Hfail.
  - apply extract_and_combine_spec.
  - intros sources st0. apply spec_collect_run.
  - intros src rest st0. cbn [attempts].
    destruct (src st0) as [o s1]. cbn [fst snd].
    destruct (attempts rest s1) as [os s2]. reflexivity.
  - reflexivity.
Qed.

End Collect.

(** One source raises and one returns: the rows of the one that returned
    are collected and nothing is raised. *)
Example collect_csv_only :
  exists df,
    extract_and_combine (platform := Demo.csv_only) (Demo.boot [])
    = (inr 1, mkState [Demo.products; df] Absent 0)
    /\ columns df = columns Demo.products.
Proof. eexists. split; vm_compute; reflexivity. Qed.

(** Both sources raise. *)
Example collect_no_source :
  extract_and_combine (platform := Demo.no_source) (Demo.boot [])
  = (inl NoDataAvailable, Demo.boot []).
Proof. vm_compute. reflexivity. Qed.
(** ** C6 and C10: the run and its metrics record *)

Section Run.
Context {World : Type} {platform : Platform World}.
Implicit Types (st : state World) (config : list (string * json)).

Lemma run_stages_file config st :
  metrics_file (snd (run_stages config (started st))) = metrics_file st.
Proof. rewrite keeps_file_run_stages. reflexivity. Qed.

(** The handler at lines 317-328, run in state [st2] on a log that can
    be extended. *)
Lemma run_pipeline_handler_run (start_time : Z) (e : exn) (items : list json) st2 :
  log_items (metrics_file st2) = Some items ->
  run_pipeline_handler start_time e st2
  = (inl e,
     mkState (heap st2)
             (Holds (JList (items ++ [failed_metrics start_time
                                        (fst (datetime_now (world st2))) e])))
             (snd (datetime_now (world st2)))).
Proof.
  intros Hlog. unfold run_pipeline_handler.
  rewrite (bind_inr _ _ _ _ _ (external_run datetime_now st2)).
  rewrite (bind_inr _ _ _ tt
             (mkState (heap st2)
                (Holds (JList (items ++ [failed_metrics start_time
                                           (fst (datetime_now (world st2))) e])))
                (snd (datetime_now (world st2))))); [reflexivity|].
  exact (log_metrics_run _ items
           (mkState (heap st2) (metrics_file st2) (snd (datetime_now (world st2)))) Hlog).
Qed.

(** The handler on a log the recorder raises on: the recorder's exception
    leaves the handler, in place of the one it handles. *)
Lemma run_pipeline_handler_raises (start_time : Z) (e err : exn) st2 :
  recorder_error (metrics_file st2) = Some err ->
  run_pipeline_handler start_time e st2
  = (inl err, mkState (heap st2) (metrics_file st2) (snd (datetime_now (world st2)))).
Proof.
  intros Herr. unfold run_pipeline_handler.
  rewrite (bind_inr _ _ _ _ _ (external_run datetime_now st2)).
  apply bind_inl.
  exact (log_metrics_raises _ err
           (mkState (heap st2) (metrics_file st2) (snd (datetime_now (world st2)))) Herr).
Qed.

(** A run whose stages raise: the handler records the failure. *)
Lemma run_pipeline_stage_failure config st (e : exn) st2 (items : list json) :
  run_stages config (started st) = (inl e, st2) ->
  log_items (metrics_file st) = Some items ->
  run_pipeline config st
  = (inl e,
     mkState (heap st2)
             (Holds (JList (items ++ [failed_metrics (fst (datetime_now (world st)))
                                        (fst (datetime_now (world st2))) e])))
             (snd (datetime_now (world st2)))).
Proof.
  intros Hst Hlog. unfold run_pipeline.
  rewrite (bind_inr _ _ _ _ _ (external_run datetime_now st)). fold (started st).
  unfold try_except. rewrite run_pipeline_body_stages, Hst.
  pose proof (run_stages_file config st) as Hfile. rewrite Hst in Hfile. simpl in Hfile.
  apply run_pipeline_handler_run. rewrite Hfile. exact Hlog.
Qed.

(** A run whose stages all return: the success record is written. *)
Lemma run_pipeline_stage_success config st (tr : ref) (end_time : Z) st2
    (items : list json) :
  run_stages config (started st) = (inr (tr, end_time), st2) ->
  log_items (metrics_file st) = Some items ->
  exists d,
    heap st2 !! tr = Some d
    /\ run_pipeline config st
       = (inr tt,
          mkState (heap st2)
                  (Holds (JList (items ++ [success_metrics (fst (datetime_now (world st)))
                                             end_time (len d)])))
                  (world st2)).
Proof.
  intros Hst Hlog. destruct (run_stages_ref _ _ _ _ _ Hst) as [d Hd].
  exists d. split; [exact Hd|].
  pose proof (run_stages_file config st) as Hfile. rewrite Hst in Hfile. simpl in Hfile.
  unfold run_pipeline.
  rewrite (bind_inr _ _ _ _ _ (external_run datetime_now st)). fold (started st).
  unfold try_except. rewrite run_pipeline_body_stages, Hst.
  rewrite (bind_inr _ _ _ d st2); [|apply deref_Some; exact Hd].
  rewrite (log_metrics_run _ items st2); [reflexivity|]. rewrite Hfile. exact Hlog.
Qed.

(** A run on a log the recorder raises on: whatever the stages did, the
    recorder's exception leaves the run, the file is as it was, and the
    handler has read the clock. *)
Lemma run_pipeline_unrecorded config st (err : exn) :
  recorder_error (metrics_file st) = Some err ->
  run_pipeline config st
  = (inl err,
     mkState (heap (snd (run_stages config (started st))))
             (metrics_file st)
             (snd (datetime_now (world (snd (run_stages config (started st))))))).
Proof.
  intros Herr.
  pose proof (run_stages_file config st) as Hfile.
  unfold run_pipeline.
  rewrite (bind_inr _ _ _ _ _ (external_run datetime_now st)). fold (started st).
  unfold try_except. rewrite run_pipeline_body_stages.
  destruct (run_stages config (started st)) as [[e|[tr end_time]] st2] eqn:Hst;
    simpl in Hfile; cbn [snd].
  - rewrite (run_pipeline_handler_raises _ e err st2); [|rewrite Hfile; exact Herr].
    rewrite Hfile. reflexivity.
  - destruct (run_stages_ref _ _ _ _ _ Hst) as [d Hd].
    rewrite (bind_inr _ _ _ d st2); [|apply deref_Some; exact Hd].
    rewrite (log_metrics_raises _ err st2); [|rewrite Hfile; exact Herr].
    rewrite (run_pipeline_handler_raises _ err err st2); [|rewrite Hfile; exact Herr].
    rewrite Hfile. reflexivity.
Qed.

Lemma run_stages_stop config st : first_failure_ends_stages config st.
Proof.
  unfold first_failure_ends_stages, run_stages. repeat split; intros.
  - apply bind_inl. assumption.
  - erewrite bind_inr by eassumption. apply bind_inl. assumption.
  - do 2 (erewrite bind_inr by eassumption). apply bind_inl. assumption.
  - do 3 (erewrite bind_inr by eassumption). apply bind_inl. assumption.
  - do 4 (erewrite bind_inr by eassumption). apply bind_inl. assumption.
  - do 5 (erewrite bind_inr by eassumption). apply bind_inl. assumption.
Qed.

End Run.
(** C6, the code at a metrics file it cannot extend. With [{}] in the
    file (JSON that is not an array) every stage of the run returns, but
    [existing_metrics.append] raises AttributeError in [log_metrics], on
    the success path and again in the handler: the run raises and the
    file is left as it was, no record appended. With a file that is not
    valid UTF-8 the reading raises UnicodeDecodeError, which line 340
    does not catch, and the run ends the same way. *)
Lemma run_without_record :
  (exists tr end_time st2,
      run_stages (platform := Demo.csv_only) default_config
        (started (platform := Demo.csv_only) Demo.boot_with_object_log)
      = (inr (tr, end_time), st2))
  /\ fst (run_pipeline (platform := Demo.csv_only) default_config
            Demo.boot_with_object_log) = inl refused
  /\ metrics_file (snd (run_pipeline (platform := Demo.csv_only) default_config
                          Demo.boot_with_object_log))
     = Holds (JDict [])
  /\ (let undecodable :=
        PyErr "UnicodeDecodeError" "'utf-8' codec can't decode byte 0xff in position 0" in
      fst (run_pipeline (platform := Demo.csv_only) default_config
             (mkState [] (Broken undecodable) 0)) = inl undecodable
      /\ metrics_file (snd (run_pipeline (platform := Demo.csv_only) default_config
                              (mkState [] (Broken undecodable) 0)))
         = Broken undecodable).
Proof.
  split; [do 3 eexists; vm_compute; reflexivity|].
  split; [vm_compute; reflexivity|].
  split; [vm_compute; reflexivity|].
  split; vm_compute; reflexivity.
Qed.

(** X16: every invocation of [run_pipeline] that finds a metrics log the
    recorder can extend (absent, raising an exception line 340 catches,
    or holding a JSON array, and writable) appends exactly one record to
    it. If a stage (collecting, cleaning, enriching or a sink write)
    raises, the later stages are not run, the run raises the same
    exception, and the record has status 'failed', rows_processed 0 and
    the exception's text in its error field; if all stages return, the
    run returns and the record has status 'success' and rows_processed
    equal to the row count of the transformed table. *)
Theorem run_appends_one_record
    {World : Type} {platform : Platform World}
    (config : list (string * json)) (st : state World) (items : list json) :
  log_items (metrics_file st) = Some items ->
  let start_time := fst (datetime_now (world st)) in
  match run_stages config (started st) with
  | (inr (transformed_data, end_time), st2) =>
      exists d record,
        heap st2 !! transformed_data = Some d
        /\ record = success_metrics start_time end_time (len d)
        /\ run_pipeline config st
           = (inr tt, mkState (heap st2) (Holds (JList (items ++ [record]))) (world st2))
        /\ field "status" record = Some (JStr "success")
        /\ field "rows_processed" record = Some (JNum (inject_Z (Z.of_nat (len d))))
  | (inl e, st2) =>
      exists record,
        record = failed_metrics start_time (fst (datetime_now (world st2))) e
        /\ run_pipeline config st
           = (inl e, mkState (heap st2) (Holds (JList (items ++ [record])))
                             (snd (datetime_now (world st2))))
        /\ field "status" record = Some (JStr "failed")
        /\ field "rows_processed" record = Some (JNum 0)
        /\ field "error" record = Some (JStr (str_of_exn e))
  end
  /\ first_failure_ends_stages config (started st).
Proof.
  intros Hlog start_time. split; [|apply run_stages_stop].
  destruct (run_stages config (started st)) as [[e|[tr end_time]] st2] eqn:Hst.
  - eexists. split; [reflexivity|]. split.
    + rewrite (run_pipeline_stage_failure config st e st2 items Hst Hlog). reflexivity.
    + split; [reflexivity|]. split; reflexivity.
  - destruct (run_pipeline_stage_success config st tr end_time st2 items Hst Hlog)
      as (d & Hd & Hrun).
    exists d. eexists. split; [exact Hd|]. split; [reflexivity|].
    split; [rewrite Hrun; reflexivity|].
    split; reflexivity.
Qed.

Lemma run_appends_one_record_witness :
  log_items (metrics_file (Demo.boot [])) = Some []
  /\ exists st2 record,
       run_pipeline (platform := Demo.csv_only) default_config (Demo.boot [])
       = (inr tt, mkState (heap st2) (Holds (JList [record])) (world st2))
       /\ field "status" record = Some (JStr "success")
       /\ field "rows_processed" record = Some (JNum 2).
Proof.
  split; [reflexivity|].
  pose proof (run_appends_one_record (platform := Demo.csv_only)
                default_config (Demo.boot []) [] eq_refl)
    as [Hrun _].
  cbv zeta in Hrun.
  destruct (run_stages default_config (started (Demo.boot [])))
    as [[e|[tr end_time]] st2] eqn:Hst.
  - exfalso. revert Hst. vm_compute. discriminate.
  - destruct Hrun as (d & record & Hd & Hrec & Hrun & Hstatus & Hrows).
    exists st2, record. split; [exact Hrun|]. split; [exact Hstatus|].
    rewrite Hrows. revert Hd. revert Hst. vm_compute.
    intros [= <- <- <-]. vm_compute. intros [= <-]. reflexivity.
Defined.

(** C10: a run that raises never records an elapsed time: the record its
    handler appends has execution_time 0 (when the log cannot be extended
    the handler appends nothing). A run that returns has appended a record
    whose execution_time is the time between the clock reading at the
    start of the run and the reading taken after the last sink write, in
    seconds. *)
Theorem failed_run_records_zero_execution_time
    {World : Type} {platform : Platform World}
    (config : list (string * json)) (st : state World) :
  let start_time := fst (datetime_now (world st)) in
  match run_pipeline config st with
  | (inl e, st') =>
      (log_items (metrics_file st) = None /\ metrics_file st' = metrics_file st)
      \/ exists items end_time,
           log_items (metrics_file st) = Some items
           /\ metrics_file st'
              = Holds (JList (items ++ [failed_metrics start_time end_time e]))
           /\ field "execution_time" (failed_metrics start_time end_time e)
              = Some (JNum 0)
  | (inr _, st') =>
      exists items transformed_data end_time st2 d,
        run_stages config (started st) = (inr (transformed_data, end_time), st2)
        /\ heap st2 !! transformed_data = Some d
        /\ log_items (metrics_file st) = Some items
        /\ metrics_file st'
           = Holds (JList (items ++ [success_metrics start_time end_time (len d)]))
        /\ field "execution_time" (success_metrics start_time end_time (len d))
           = Some (JNum (total_seconds start_time end_time))
        /\ total_seconds start_time end_time
           = (inject_Z (end_time - start_time) / 1000000)%Q
  end.
Proof.
  intros start_time.
  destruct (log_items (metrics_file st)) as [items|] eqn:Hlog.
  - destruct (run_stages config (started st)) as [[e|[tr end_time]] st2] eqn:Hst.
    + rewrite (run_pipeline_stage_failure config st e st2 items Hst Hlog).
      right. exists items, (fst (datetime_now (world st2))). auto.
    + destruct (run_pipeline_stage_success config st tr end_time st2 items Hst Hlog)
        as (d & Hd & Hrun).
      rewrite Hrun. exists items, tr, end_time, st2, d. repeat split; auto.
  - destruct (proj1 (log_items_None (metrics_file st)) Hlog) as [err Herr].
    rewrite (run_pipeline_unrecorded config st err Herr). left. auto.
Qed.

(* ================================================================== *)
(** * Further properties of the cleaning stage *)

(** X1: [clean_data] never adds, removes, renames, reorders or retypes a
    column, never adds or reorders rows and never relabels them: the
    cleaned table has the column names of the input in the same order,
    each column with the dtype it had, its row labels are a subsequence
    of the input's (the index is not reset), and every column is as long
    as the index. *)
Theorem clean_data_keeps_schema_and_row_labels
    {World : Type} (st : state World) (r : ref) (t : DataFrame) :
  heap st !! r = Some t ->
  wf_frame t ->
  exists r' d' fresh,
    clean_data r st
    = (inr r', mkState (heap st ++ fresh) (metrics_file st) (world st))
    /\ (heap st ++ fresh) !! r' = Some d'
    /\ column_names d' = column_names t
    /\ (forall c s s', getitem t c = Some s -> getitem d' c = Some s' ->
                       sdtype s' = sdtype s)
    /\ sublist (index d') (index t)
    /\ len d' <= len t
    /\ wf_frame d'.
Proof.
  intros Hr Hwf.
  destruct (clean_data_run st r t Hr) as (r' & d' & fresh & Hrun & Hframe & Hd' & _).
  exists r', d', fresh. split; [exact Hrun|]. split; [exact Hd'|].
  unfold clean_frame in Hframe.
  set (d := drop_duplicates t) in *.
  pose proof (wf_drop_duplicates t Hwf) as Hwfd. fold d in Hwfd.
  destruct (shape_remove_outliers _ _ _ Hframe) as [Hnames Hidx].
  rewrite column_names_impute in Hnames. rewrite index_impute in Hidx.
  assert (Hsub : sublist (index d') (index t)).
  { etransitivity; [exact Hidx | apply index_drop_duplicates]. }
  split; [|split; [|split; [exact Hsub|split]]].
  - rewrite Hnames. apply column_names_drop_duplicates.
  - intros c s s' Hs Hs'.
    destruct (remove_outliers_column c _ _ _ _ Hframe Hs') as (s1 & Hs1 & Hdt & _).
    rewrite <- Hdt.
    destruct (getitem d c) as [s0|] eqn:Hs0.
    + rewrite (getitem_impute d c s0 (proj2 Hwfd) Hs0) in Hs1. injection Hs1 as <-.
      destruct (getitem_drop_duplicates t c s0 Hs0) as (s2 & mask & Hs2 & ->).
      rewrite Hs in Hs2. injection Hs2 as <-.
      change (sdtype (mask_series mask s)) with (sdtype s).
      destruct (sdtype s) eqn:E; try rewrite fillna_float_dtype; simpl; congruence.
    + assert (Hin : c ∈ column_names (impute d)) by (apply in_names_getitem; eauto).
      rewrite column_names_impute in Hin. apply in_names_getitem in Hin as [s0 Hs0'].
      congruence.
  - apply sublist_length. exact Hsub.
  - eapply wf_remove_outliers; [|exact Hframe]. apply wf_impute. exact Hwfd.
Qed.

Lemma clean_data_keeps_schema_and_row_labels_witness :
  exists r' d' fresh,
    clean_data 0 (Demo.boot [Demo.readings])
    = (inr r', mkState ([Demo.readings] ++ fresh) Absent 0)
    /\ ([Demo.readings] ++ fresh) !! r' = Some d'
    /\ column_names d' = ["label"; "a"; "b"]
    /\ sublist (index d') [0; 1; 2; 3; 4]%Z.
Proof.
  destruct (clean_data_keeps_schema_and_row_labels
              (Demo.boot [Demo.readings]) 0 Demo.readings)
    as (r' & d' & fresh & Hrun & Hd' & Hnames & _ & Hidx & _).
  - reflexivity.
  - split; [repeat constructor|].
    apply (bool_decide_unpack _). vm_compute. exact I.
  - exists r', d', fresh. auto.
Defined.

(** *** A numeric column without any value *)

Lemma numbers_take_mask_nil (mask : list bool) (vs : list cell) :
  numbers vs = [] -> numbers (take_mask mask vs) = [].
Proof.
  revert vs. induction mask as [|b mask IH]; intros [|v vs]; simpl; auto.
  destruct v; try discriminate; intros Hn; destruct b; simpl; auto.
Qed.

Lemma quantile_no_numbers (q : float) (s : Series) :
  numbers (svalues s) = [] -> quantile q s = None.
Proof. intros Hn. unfold quantile. rewrite Hn. reflexivity. Qed.

Lemma take_mask_all_false {A} (f : cell -> bool) (vs : list cell) (l : list A) :
  (forall c, f c = false) -> take_mask (map f vs) l = [].
Proof.
  intros Hf. revert l. induction vs as [|v vs IH]; intros [|x l]; simpl; auto.
  rewrite Hf. apply IH.
Qed.

Lemma len_getitem_mask_zero (d : DataFrame) (mask : list bool) :
  len d = 0 -> len (getitem_mask d mask) = 0.
Proof.
  unfold len, getitem_mask. simpl. intros H0.
  destruct (index d); [|discriminate]. rewrite take_mask_nil_r. reflexivity.
Qed.

Lemma remove_outliers_empties (c : string) (cols : list string) :
  forall d d',
    c ∈ cols ->
    (exists s, getitem d c = Some s /\ numbers (svalues s) = []) ->
    remove_outliers cols d = inr d' ->
    len d' = 0.
Proof.
  induction cols as [|col cols IH]; intros d d' Hin (s & Hs & Hn) Hrun.
  - apply elem_of_nil in Hin. contradiction.
  - simpl in Hrun. destruct (getitem d col) as [s0|] eqn:E0; [|discriminate].
    destruct (decide (c = col)) as [->|Hne].
    + rewrite Hs in E0. injection E0 as <-.
      revert Hrun. apply (remove_outliers_preserves (fun x => len x = 0)).
      * intros d1 mask. apply len_getitem_mask_zero.
      * unfold len, getitem_mask, outlier_mask. simpl.
        rewrite (take_mask_all_false (within (iqr_bounds s))); [reflexivity|].
        intros x. unfold iqr_bounds. rewrite !(quantile_no_numbers _ s Hn).
        destruct x; reflexivity.
    + apply elem_of_cons in Hin as [?|Hin]; [contradiction|].
      apply (IH (getitem_mask d (outlier_mask s0)) d' Hin); [|exact Hrun].
      exists (mask_series (outlier_mask s0) s). split.
      * rewrite getitem_getitem_mask, Hs. reflexivity.
      * simpl. apply numbers_take_mask_nil. exact Hn.
Qed.

(** X2: if a numeric column of the input holds no value at all (every
    entry missing), [clean_data] returns a table without any row: the
    column has no median to impute, its quartiles are NaN, and the test
    [(df[col] >= lower_bound) & (df[col] <= upper_bound)] is false for
    every row. *)
Theorem entirely_missing_numeric_column_empties_table
    {World : Type} (st : state World) (r : ref) (t : DataFrame)
    (c : string) (s : Series) :
  heap st !! r = Some t ->
  wf_frame t ->
  getitem t c = Some s ->
  sdtype s = number ->
  numbers (svalues s) = [] ->
  exists r' d' fresh,
    clean_data r st
    = (inr r', mkState (heap st ++ fresh) (metrics_file st) (world st))
    /\ (heap st ++ fresh) !! r' = Some d'
    /\ len d' = 0.
Proof.
  intros Hr Hwf Hs Hdt Hn.
  destruct (clean_data_run st r t Hr) as (r' & d' & fresh & Hrun & Hframe & Hd' & _).
  exists r', d', fresh. split; [exact Hrun|]. split; [exact Hd'|].
  unfold clean_frame in Hframe.
  set (d := drop_duplicates t) in *.
  pose proof (wf_drop_duplicates t Hwf) as [_ Hnd]. fold d in Hnd.
  assert (Hs0 : exists s0, getitem d c = Some s0 /\ sdtype s0 = number
                           /\ numbers (svalues s0) = []).
  { destruct (getitem d c) as [s0|] eqn:E.
    - destruct (getitem_drop_duplicates t c s0 E) as (s2 & mask & Hs2 & ->).
      rewrite Hs in Hs2. injection Hs2 as <-.
      exists (mask_series mask s). split; [reflexivity|]. split; [exact Hdt|].
      simpl. apply numbers_take_mask_nil. exact Hn.
    - assert (Hin : c ∈ column_names t) by (apply in_names_getitem; eauto).
      rewrite <- column_names_drop_duplicates in Hin.
      apply in_names_getitem in Hin as [s0 Hs0]. fold d in Hs0. congruence. }
  destruct Hs0 as (s0 & Hs0 & Hdt0 & Hn0).
  apply (remove_outliers_empties c _ _ _) with (3 := Hframe).
  - apply elem_of_select_dtypes; [exact Hnd|]. exists s0. rewrite Hdt0. auto.
  - exists s0. split; [|exact Hn0].
    rewrite (getitem_impute d c s0 Hnd Hs0), Hdt0.
    assert (Hm : median s0 = None) by (apply median_None; exact Hn0).
    rewrite Hm. reflexivity.
Qed.

Lemma entirely_missing_numeric_column_empties_table_witness :
  exists r' d' fresh,
    clean_data 0 (Demo.boot [Samples.unmeasured])
    = (inr r', mkState ([Samples.unmeasured] ++ fresh) Absent 0)
    /\ ([Samples.unmeasured] ++ fresh) !! r' = Some d'
    /\ len d' = 0.
Proof.
  apply (entirely_missing_numeric_column_empties_table
           (Demo.boot [Samples.unmeasured]) 0 Samples.unmeasured
           "weight" (mkSeries number [NA; NA; NA])).
  - reflexivity.
  - split; [repeat constructor|].
    apply (bool_decide_unpack _). vm_compute. exact I.
  - reflexivity.
  - reflexivity.
  - reflexivity.
Defined.

(** *** Deduplication leaves distinct rows *)

Lemma distinct_rows_scan (rs : list row) :
  forall seen,
    let kept := take_mask (map negb (duplicated_scan seen rs)) rs in
    Forall (fun r => existsb (row_eqb r) seen = false) kept
    /\ distinct_rows kept = true.
Proof.
  induction rs as [|r rs IH]; intros seen; simpl; [auto|].
  destruct (existsb (row_eqb r) seen) eqn:E; simpl.
  - apply IH.
  - destruct (IH (seen ++ [r])) as [Hseen Hdist].
    split.
    + constructor; [exact E|].
      eapply Forall_impl; [exact Hseen|]. simpl. intros x Hx.
      rewrite existsb_app in Hx. apply orb_false_iff in Hx. tauto.
    + rewrite Hdist, andb_true_r. apply negb_true_iff.
      apply not_true_iff_false. intros Hex. apply existsb_exists in Hex as (x & Hin & Heq).
      rewrite Forall_forall in Hseen. apply list_elem_of_In in Hin.
      specialize (Hseen x Hin). rewrite existsb_app in Hseen.
      apply orb_false_iff in Hseen as [_ Hx]. simpl in Hx. rewrite orb_false_r in Hx.
      rewrite row_eqb_sym in Hx. congruence.
Qed.

(** On distinct rows the scan flags nothing. *)
Lemma duplicated_scan_distinct (rs : list row) :
  forall seen,
    Forall (fun r => existsb (row_eqb r) seen = false) rs ->
    distinct_rows rs = true ->
    duplicated_scan seen rs = map (fun _ => false) rs.
Proof.
  induction rs as [|r rs IH]; intros seen Hseen Hdist; [reflexivity|].
  inversion Hseen as [|? ? Hr Hrest]; subst.
  simpl in Hdist. apply andb_true_iff in Hdist as [Hr' Hdist].
  apply negb_true_iff in Hr'.
  simpl. rewrite Hr. f_equal. apply IH; [|exact Hdist].
  rewrite Forall_forall in Hrest. apply Forall_forall. intros x Hx.
  rewrite existsb_app, (Hrest x Hx). simpl. rewrite orb_false_r.
  destruct (row_eqb x r) eqn:E; [|reflexivity].
  rewrite row_eqb_sym in E.
  assert (Hex : existsb (row_eqb r) rs = true).
  { apply existsb_exists. exists x. split; [apply list_elem_of_In; exact Hx | exact E]. }
  congruence.
Qed.

Lemma getitem_mask_all_true (d : DataFrame) :
  wf_frame d ->
  getitem_mask d (repeat true (len d)) = d.
Proof.
  intros [Hlen _]. destruct d as [idx cols]. unfold getitem_mask, len in *. simpl in *.
  rewrite take_mask_all_true. f_equal.
  induction Hlen as [|[n s] cols Hs _ IH]; simpl; [reflexivity|].
  rewrite IH. simpl in Hs. rewrite <- Hs, take_mask_all_true. destruct s; reflexivity.
Qed.

(** X3: the table [drop_duplicates] returns (line 94) has no two equal
    rows, and deduplicating it again changes nothing. *)
Theorem drop_duplicates_rows_distinct_and_idempotent (t : DataFrame) :
  wf_frame t ->
  columns t <> [] ->
  distinct_rows (rows (drop_duplicates t)) = true
  /\ drop_duplicates (drop_duplicates t) = drop_duplicates t.
Proof.
  intros Hwf Hcols.
  assert (Hdist : distinct_rows (rows (drop_duplicates t)) = true).
  { rewrite (rows_drop_duplicates t Hwf Hcols). unfold duplicated.
    apply (distinct_rows_scan (rows t) []). }
  split; [exact Hdist|].
  set (d := drop_duplicates t) in *.
  pose proof (wf_drop_duplicates t Hwf) as Hwfd. fold d in Hwfd.
  unfold drop_duplicates at 1. destruct (df_empty d); [reflexivity|].
  unfold duplicated.
  rewrite (duplicated_scan_distinct (rows d) []); [|apply Forall_forall; reflexivity|exact Hdist].
  rewrite map_map. simpl.
  replace (map (fun _ : row => true) (rows d)) with (repeat true (len d)).
  - apply getitem_mask_all_true. exact Hwfd.
  - rewrite <- (rows_length d). generalize (rows d). intros l.
    induction l as [|x l IH]; simpl; [reflexivity | rewrite IH; reflexivity].
Qed.

Lemma drop_duplicates_rows_distinct_and_idempotent_witness :
  distinct_rows (rows (drop_duplicates Demo.products)) = true
  /\ drop_duplicates (drop_duplicates Demo.products) = drop_duplicates Demo.products.
Proof.
  apply drop_duplicates_rows_distinct_and_idempotent.
  - split; [repeat constructor|].
    apply (bool_decide_unpack _). vm_compute. exact I.
  - discriminate.
Defined.

(** Deduplication runs before imputation, so the cleaned table can
    hold equal rows: in [Samples.half_known] the two rows differ only by a
    missing score, which imputation fills with the other row's score, and
    [clean_data] returns both rows, now equal. *)
Example clean_data_may_return_equal_rows :
  exists r' d',
    fst (clean_data 0 (Demo.boot [Samples.half_known])) = inr r'
    /\ heap (snd (clean_data 0 (Demo.boot [Samples.half_known]))) !! r' = Some d'
    /\ distinct_rows (rows Samples.half_known) = true
    /\ rows d' = [[num 1; num 5; Str "a"]; [num 1; num 5; Str "a"]]
    /\ distinct_rows (rows d') = false.
Proof.
  do 2 eexists. split; [vm_compute; reflexivity|].
  split; [vm_compute; reflexivity|].
  split; [vm_compute; reflexivity|].
  split; vm_compute; reflexivity.
Qed.

(* ================================================================== *)
(** * Further properties of the enrichment stage *)

Lemma has_column_names (d : DataFrame) (c : string) :
  has_column d c = true <-> c ∈ column_names d.
Proof. rewrite has_column_getitem, in_names_getitem. reflexivity. Qed.

Lemma column_names_setitem (d : DataFrame) (name : string) (s : Series) :
  column_names (setitem d name s)
  = column_names d ++ (if has_column d name then [] else [name]).
Proof.
  unfold column_names, setitem. simpl.
  destruct (has_column d name) eqn:E.
  - rewrite app_nil_r. apply names_assign_present. apply has_column_names. exact E.
  - apply names_assign_absent. intros Hin. apply has_column_names in Hin. congruence.
Qed.

Lemma wf_setitem (d : DataFrame) (name : string) (s : Series) :
  wf_frame d -> length (svalues s) = len d -> wf_frame (setitem d name s).
Proof.
  intros [Hlen Hnd] Hs.
  assert (Hnd' : NoDup (column_names (setitem d name s))).
  { apply column_names_setitem_NoDup. exact Hnd. }
  split; [|exact Hnd'].
  apply (Forall_columns_getitem (fun x => length (svalues x) = len (setitem d name s)));
    [exact Hnd'|].
  intros c x. destruct (decide (c = name)) as [->|Hne].
  - rewrite getitem_setitem_eq. intros [= <-]. exact Hs.
  - rewrite getitem_setitem_ne by exact Hne. intros Hx.
    apply (getitem_Forall (fun x => length (svalues x) = len d) d c x Hlen Hx).
Qed.

Lemma str_strip_title_length (s s' : Series) :
  str_strip_title s = inr s' -> length (svalues s') = length (svalues s).
Proof.
  unfold str_strip_title. destruct (str_accessor_ok s); [|discriminate].
  destruct (str_accessor_ok (str_map strip s)); [|discriminate].
  intros [= <-]. simpl. rewrite !length_map. reflexivity.
Qed.

Lemma normalize_step_shape (d d' : DataFrame) (col : string) :
  wf_frame d -> normalize_step d col = inr d' ->
  wf_frame d' /\ column_names d' = column_names d /\ index d' = index d.
Proof.
  intros Hwf. unfold normalize_step.
  destruct (existsb (String.eqb col) ["processed_at"]); [intros [= <-]; auto|].
  destruct (getitem d col) as [s|] eqn:Hs; [|discriminate].
  destruct (str_strip_title s) as [e|s'] eqn:Hst; [discriminate|].
  intros [= <-]. split; [|split; [|reflexivity]].
  - apply wf_setitem; [exact Hwf|]. rewrite (str_strip_title_length s s' Hst).
    apply (getitem_Forall (fun x => length (svalues x) = len d) d col s (proj1 Hwf) Hs).
  - rewrite column_names_setitem.
    assert (Hh : has_column d col = true) by (apply has_column_getitem; eauto).
    rewrite Hh. apply app_nil_r.
Qed.

Lemma normalize_loop_shape (cols : list string) :
  forall d,
    wf_frame d ->
    wf_frame (snd (normalize_loop cols d))
    /\ column_names (snd (normalize_loop cols d)) = column_names d
    /\ index (snd (normalize_loop cols d)) = index d.
Proof.
  induction cols as [|col cols IH]; intros d Hwf; simpl; [auto|].
  destruct (normalize_step d col) as [e|d1] eqn:Hstep; [simpl; auto|].
  destruct (normalize_step_shape d d1 col Hwf Hstep) as (Hwf1 & Hn1 & Hi1).
  destruct (IH d1 Hwf1) as (H1 & H2 & H3).
  rewrite H2, H3. auto.
Qed.

Lemma add_price_category_shape (t d1 : DataFrame) :
  wf_frame t -> add_price_category t = inr d1 ->
  wf_frame d1
  /\ index d1 = index t
  /\ column_names d1
     = column_names t
       ++ (if has_column t "price" && negb (has_column t "price_category")
           then ["price_category"] else []).
Proof.
  intros Hwf. unfold add_price_category.
  destruct (has_column t "price") eqn:Hp; simpl.
  - destruct (getitem t "price") as [s|] eqn:Hs; [|discriminate].
    unfold pd_cut. destruct (is_number (sdtype s)); [|discriminate].
    intros [= <-]. split; [|split; [reflexivity|]].
    + apply wf_setitem; [exact Hwf|]. simpl. rewrite length_map.
      apply (getitem_Forall (fun x => length (svalues x) = len t) t "price" s (proj1 Hwf) Hs).
    + rewrite column_names_setitem. destruct (has_column t "price_category"); reflexivity.
  - intros [= <-]. rewrite app_nil_r. auto.
Qed.

(** X6: [transform_data] never drops, adds, reorders or relabels rows,
    and never drops or reorders columns: when it returns, the table it
    was given has its row labels unchanged, its former columns in their
    former order, followed by the columns it lacked among 'price_category'
    (assigned when there is a 'price' column) and 'processed_at', in that
    order, every column as long as the index. *)
Theorem transform_data_keeps_rows_and_appends_columns
    {World : Type} {platform : Platform World}
    (st : state World) (r : ref) (t : DataFrame) :
  heap st !! r = Some t ->
  wf_frame t ->
  exists out t' w',
    transform_data r st
    = (out, mkState (<[r := t']> (heap st)) (metrics_file st) w')
    /\ index t' = index t
    /\ (forall r', out = inr r' ->
          column_names t' = column_names t ++ new_columns t
          /\ wf_frame t').
Proof.
  intros Hr Hwf. rewrite (transform_data_run st r t Hr).
  destruct (add_price_category t) as [e|d1] eqn:Hadd.
  - exists (inl e), t, (world st). split.
    + rewrite list_insert_id by exact Hr. destruct st; reflexivity.
    + split; [reflexivity | discriminate].
  - destruct (add_price_category_shape t d1 Hwf Hadd) as (Hwf1 & Hi1 & Hn1).
    set (now := fst (datetime_now (world st))).
    assert (Hwf2 : wf_frame (add_processed_at now d1)).
    { apply wf_setitem; [exact Hwf1|]. simpl. apply repeat_length. }
    destruct (normalize_loop_shape (select_dtypes is_object (add_processed_at now d1))
                _ Hwf2) as (Hwf3 & Hn3 & Hi3).
    exists (match fst (enrich_frame now d1) with None => inr r | Some e => inl e end),
           (snd (enrich_frame now d1)), (snd (datetime_now (world st))).
    split; [reflexivity|]. unfold enrich_frame.
    split; [rewrite Hi3; exact Hi1|].
    intros r' _. split; [|exact Hwf3].
    rewrite Hn3. unfold add_processed_at. rewrite column_names_setitem, Hn1.
    unfold new_columns. rewrite <- app_assoc. do 2 f_equal.
    assert (Hh : has_column d1 "processed_at" = has_column t "processed_at").
    { apply eq_true_iff_eq. rewrite !has_column_names, Hn1, elem_of_app.
      split; [|auto]. intros [H|H]; [exact H|].
      destruct (has_column t "price" && negb (has_column t "price_category")).
      - apply list_elem_of_singleton in H. discriminate.
      - apply elem_of_nil in H. contradiction. }
    rewrite Hh. reflexivity.
Qed.

Lemma transform_data_keeps_rows_and_appends_columns_witness :
  exists out t' w',
    transform_data (platform := Demo.csv_only) 0 (Demo.boot [Demo.products])
    = (out, mkState (<[0 := t']> [Demo.products]) Absent w')
    /\ index t' = [0; 1; 2]%Z
    /\ (forall r', out = inr r' ->
          column_names t' = ["id"; "price"; "name"] ++ ["price_category"; "processed_at"]
          /\ wf_frame t').
Proof.
  apply (transform_data_keeps_rows_and_appends_columns
           (platform := Demo.csv_only) (Demo.boot [Demo.products]) 0 Demo.products).
  - reflexivity.
  - split; [repeat constructor|].
    apply (bool_decide_unpack _). vm_compute. exact I.
Defined.

(* ================================================================== *)
(** * Further properties of the text normalisation *)

(** ** Characters *)

Lemma to_upper_cased (c : ascii) : is_cased (to_upper c) = is_cased c.
Proof. destruct c as [[] [] [] [] [] [] [] []]; reflexivity. Qed.

Lemma to_lower_cased (c : ascii) : is_cased (to_lower c) = is_cased c.
Proof. destruct c as [[] [] [] [] [] [] [] []]; reflexivity. Qed.

Lemma to_upper_space (c : ascii) : is_space (to_upper c) = is_space c.
Proof. destruct c as [[] [] [] [] [] [] [] []]; reflexivity. Qed.

Lemma to_lower_space (c : ascii) : is_space (to_lower c) = is_space c.
Proof. destruct c as [[] [] [] [] [] [] [] []]; reflexivity. Qed.

Lemma to_upper_idem (c : ascii) : to_upper (to_upper c) = to_upper c.
Proof. destruct c as [[] [] [] [] [] [] [] []]; reflexivity. Qed.

Lemma to_lower_idem (c : ascii) : to_lower (to_lower c) = to_lower c.
Proof. destruct c as [[] [] [] [] [] [] [] []]; reflexivity. Qed.

Lemma cased_flag (b : bool) (c : ascii) :
  is_cased (if b then to_lower c else to_upper c) = is_cased c.
Proof. destruct b; [apply to_lower_cased | apply to_upper_cased]. Qed.

Lemma space_flag (b : bool) (c : ascii) :
  is_space (if b then to_lower c else to_upper c) = is_space c.
Proof. destruct b; [apply to_lower_space | apply to_upper_space]. Qed.

Lemma space_not_cased (c : ascii) : is_space c = true -> is_cased c = false.
Proof.
  intros Hs. destruct (is_cased c) eqn:E; [|reflexivity].
  rewrite (cased_not_space c E) in Hs. discriminate.
Qed.

(** ** [title] *)

Lemma title_from_idem (v : string) :
  forall b, title_from b (title_from b v) = title_from b v.
Proof.
  induction v as [|c v IH]; intros b; simpl; [reflexivity|].
  f_equal.
  - destruct b; [apply to_lower_idem | apply to_upper_idem].
  - rewrite cased_flag. apply IH.
Qed.

Lemma title_from_empty (b : bool) (v : string) :
  title_from b v = EmptyString -> v = EmptyString.
Proof. destruct v; [reflexivity | discriminate]. Qed.

(** ** [strip] *)

Lemma lstrip_head (v : string) (c : ascii) (w : string) :
  lstrip v = String c w -> is_space c = false.
Proof.
  induction v as [|a v IH]; simpl; [discriminate|].
  destruct (is_space a) eqn:E; [exact IH|].
  intros [= <- _]. exact E.
Qed.

Lemma lstrip_fixed (c : ascii) (w : string) :
  is_space c = false -> lstrip (String c w) = String c w.
Proof. intros E. simpl. rewrite E. reflexivity. Qed.

Lemma rstrip_head (c : ascii) (w : string) :
  is_space c = false -> rstrip (String c w) = String c (rstrip w).
Proof. intros E. simpl. rewrite E. destruct (rstrip w); reflexivity. Qed.

Lemma rstrip_idem (v : string) : rstrip (rstrip v) = rstrip v.
Proof.
  induction v as [|c v IH]; simpl; [reflexivity|].
  destruct (rstrip v) as [|a r] eqn:E.
  - destruct (is_space c) eqn:Ec; simpl; [reflexivity|]. rewrite Ec. reflexivity.
  - change (rstrip (String c (String a r))) with
      (match rstrip (String a r) with
       | EmptyString => if is_space c then EmptyString else String c EmptyString
       | String x y => String c (String x y)
       end).
    rewrite IH. reflexivity.
Qed.

Lemma strip_idem (v : string) : strip (strip v) = strip v.
Proof.
  unfold strip. destruct (lstrip v) as [|c w] eqn:E; [reflexivity|].
  pose proof (lstrip_head v c w E) as Hc.
  rewrite (rstrip_head c w Hc), (lstrip_fixed c _ Hc), <- (rstrip_head c w Hc).
  apply rstrip_idem.
Qed.

Lemma lstrip_title (v : string) :
  lstrip (title_from false v) = title_from false (lstrip v).
Proof.
  induction v as [|c v IH]; simpl; [reflexivity|].
  rewrite to_upper_space. destruct (is_space c) eqn:E; [|reflexivity].
  rewrite (space_not_cased c E). exact IH.
Qed.

Lemma rstrip_title (v : string) :
  forall b, rstrip (title_from b v) = title_from b (rstrip v).
Proof.
  induction v as [|c v IH]; intros b; simpl; [reflexivity|].
  rewrite IH, space_flag. destruct (rstrip v) as [|a r]; simpl.
  - destruct (is_space c); reflexivity.
  - reflexivity.
Qed.

Lemma strip_title (v : string) : strip (title v) = title (strip v).
Proof. unfold strip, title. rewrite lstrip_title. apply rstrip_title. Qed.

Lemma title_strip_idem (v : string) :
  title (strip (title (strip v))) = title (strip v).
Proof.
  rewrite strip_title, strip_idem. unfold title. apply title_from_idem.
Qed.

Lemma lstrip_split (v : string) :
  exists pre,
    v = String.append pre (lstrip v)
    /\ forallb is_space (list_ascii_of_string pre) = true.
Proof.
  induction v as [|c v (pre & Hv & Hpre)]; simpl.
  - exists EmptyString. split; reflexivity.
  - destruct (is_space c) eqn:E.
    + exists (String c pre). simpl. rewrite E, Hpre. split; [|reflexivity].
      change (String c v = String c (String.append pre (lstrip v))).
      f_equal. exact Hv.
    + exists EmptyString. split; reflexivity.
Qed.

Lemma rstrip_split (v : string) :
  exists post,
    v = String.append (rstrip v) post
    /\ forallb is_space (list_ascii_of_string post) = true.
Proof.
  induction v as [|c v (post & Hv & Hpost)]; simpl.
  - exists EmptyString. split; reflexivity.
  - destruct (rstrip v) as [|a r] eqn:E.
    + change (v = post) in Hv. destruct (is_space c) eqn:Ec.
      * exists (String c post). simpl. rewrite Ec, Hpost.
        split; [|reflexivity].
        change (String c v = String c post). f_equal. exact Hv.
      * exists post. split; [|exact Hpost].
        change (String c v = String c post). f_equal. exact Hv.
    + exists post. split; [|exact Hpost].
      change (String c v = String c (String.append (String a r) post)).
      f_equal. exact Hv.
Qed.

Lemma rstrip_last (v : string) :
  forall (i : nat) (c : ascii),
    String.get i (rstrip v) = Some c ->
    S i = String.length (rstrip v) ->
    is_space c = false.
Proof.
  induction v as [|a v IH]; intros i c; simpl; [discriminate|].
  destruct (rstrip v) as [|b r] eqn:E.
  - destruct (is_space a) eqn:Ea; simpl; [discriminate|].
    destruct i as [|i]; [|discriminate]. intros [= <-] _. exact Ea.
  - destruct i as [|i]; [simpl; intros _ [=]|].
    intros Hget Hlen. apply (IH i c).
    + exact Hget.
    + simpl in Hlen |- *. lia.
Qed.

Lemma str_strip_title_inv (s s' : Series) :
  str_strip_title s = inr s' -> s' = str_map title (str_map strip s).
Proof.
  unfold str_strip_title. destruct (str_accessor_ok s); [|discriminate].
  destruct (str_accessor_ok (str_map strip s)); [|discriminate].
  intros [= <-]. reflexivity.
Qed.

Lemma str_strip_title_fixed (s : Series) :
  str_strip_title (str_map title (str_map strip s))
  = inr (str_map title (str_map strip s)).
Proof.
  rewrite str_strip_title_ok by apply str_accessor_ok_str_map.
  f_equal. rewrite (str_map_strip_title (str_map title (str_map strip s))).
  rewrite (str_map_strip_title s). simpl. f_equal.
  rewrite map_map. apply map_ext. intros [x|v|t|]; try reflexivity.
  f_equal. apply title_strip_idem.
Qed.

(** X7: the text normalisation of [transform_data] is idempotent: a
    column that [.str.strip().str.title()] has produced is left as it is
    when the same expression is applied to it again. (ASCII strings.) *)
Theorem text_normalisation_is_idempotent (s s' : Series) :
  str_strip_title s = inr s' ->
  str_strip_title s' = inr s'.
Proof.
  intros H. rewrite (str_strip_title_inv s s' H). apply str_strip_title_fixed.
Qed.

Lemma text_normalisation_is_idempotent_witness :
  str_strip_title
    (mkSeries object [Str "Ada Lovelace"; Str "O'Neil"; NA; Str "Iphone 15X"])
  = inr (mkSeries object [Str "Ada Lovelace"; Str "O'Neil"; NA; Str "Iphone 15X"]).
Proof.
  apply (text_normalisation_is_idempotent
           (mkSeries object [Str "  ada LOVELACE "; Str "o'neil"; NA; Str "iPhone 15x"])).
  reflexivity.
Defined.

(** X8: [str.strip], as the stage uses it, removes whitespace at the two
    ends and nothing else: the string is a run of whitespace, the stripped
    string, and a run of whitespace; the stripped string neither starts
    nor ends with a whitespace character. (ASCII strings.) *)
Theorem strip_removes_exactly_the_surrounding_whitespace (v : string) :
  exists pre post,
    v = String.append pre (String.append (strip v) post)
    /\ forallb is_space (list_ascii_of_string pre) = true
    /\ forallb is_space (list_ascii_of_string post) = true
    /\ (forall c w, strip v = String c w -> is_space c = false)
    /\ (forall i c, String.get i (strip v) = Some c ->
                    S i = String.length (strip v) -> is_space c = false).
Proof.
  destruct (lstrip_split v) as (pre & Hv & Hpre).
  destruct (rstrip_split (lstrip v)) as (post & Hl & Hpost).
  exists pre, post. unfold strip. repeat split.
  - rewrite <- Hl. exact Hv.
  - exact Hpre.
  - exact Hpost.
  - intros c w Hs. destruct (lstrip v) as [|a u] eqn:E; [discriminate|].
    pose proof (lstrip_head v a u E) as Ha.
    rewrite (rstrip_head a u Ha) in Hs. injection Hs as <- _. exact Ha.
  - apply rstrip_last.
Qed.

(* ================================================================== *)
(** * Further properties of the run *)

(** X9: when the recorder cannot extend the metrics file, every run
    raises the recorder's exception, whether its stages returned or
    raised: an exception raised by a stage is replaced by it. For a file
    holding JSON that is not an array that exception is the
    AttributeError of [existing_metrics.append]. The metrics file is left
    as it was, while the stages have run as in any other run: the objects
    are those they left and the clock has been read once more, by the
    handler. *)
Theorem unextendable_log_replaces_every_outcome
    {World : Type} {platform : Platform World}
    (config : list (string * json)) (st : state World) :
  log_items (metrics_file st) = None ->
  exists err,
    recorder_error (metrics_file st) = Some err
    /\ (forall v, metrics_file st = Holds v -> err = refused)
    /\ run_pipeline config st
       = (inl err,
          mkState (heap (snd (run_stages config (started st))))
                  (metrics_file st)
                  (snd (datetime_now (world (snd (run_stages config (started st))))))).
Proof.
  intros Hlog.
  destruct (proj1 (log_items_None (metrics_file st)) Hlog) as [err Herr].
  exists err. split; [exact Herr|]. split.
  - intros v Hv. rewrite Hv in Herr. unfold recorder_error in Herr. simpl in Herr.
    destruct v; try discriminate; injection Herr as <-; reflexivity.
  - apply run_pipeline_unrecorded. exact Herr.
Qed.

Lemma unextendable_log_replaces_every_outcome_witness :
  exists err,
    recorder_error (Holds (JStr "log")) = Some err
    /\ (forall v, Holds (JStr "log") = Holds v -> err = refused)
    /\ run_pipeline (platform := Demo.no_source) default_config
         (mkState [] (Holds (JStr "log")) 0)
       = (inl err,
          mkState (heap (snd (run_stages (platform := Demo.no_source) default_config
                                (started (platform := Demo.no_source)
                                   (mkState [] (Holds (JStr "log")) 0)))))
                  (Holds (JStr "log"))
                  (snd (datetime_now (Platform := Demo.no_source)
                          (world (snd (run_stages (platform := Demo.no_source)
                                         default_config
                                         (started (platform := Demo.no_source)
                                            (mkState [] (Holds (JStr "log")) 0)))))))).
Proof.
  apply (unextendable_log_replaces_every_outcome
           (platform := Demo.no_source) default_config
           (mkState [] (Holds (JStr "log")) 0)).
  reflexivity.
Defined.

(** X10: when the stages of a run return, the configuration has a
    'targets' section with the three paths, and the three sinks have
    each been called once, in the order database, CSV, JSON, each with
    the table [transform_data] returned: the table 'processed_products'
    at [config['targets']['database_path']] first, then
    [config['targets']['csv_path']], then
    [config['targets']['json_path']], each call in the world the
    previous one left, and each accepted. The end time is read after the
    JSON write; the loaders leave the objects as they were. *)
Theorem sinks_get_the_transformed_table_in_order
    {World : Type} {platform : Platform World}
    (config : list (string * json))
    (st : state World) (tr : ref) (end_time : Z) (st2 : state World) :
  run_stages config st = (inr (tr, end_time), st2) ->
  exists cleaned s2 s3 d targets database_path csv_path json_path,
    transform_data cleaned s2 = (inr tr, s3)
    /\ heap s3 !! tr = Some d
    /\ heap st2 = heap s3
    /\ lookup_field "targets" config = Some (JDict targets)
    /\ lookup_field "database_path" targets = Some database_path
    /\ lookup_field "csv_path" targets = Some csv_path
    /\ lookup_field "json_path" targets = Some json_path
    /\ let w1 := to_sql d "processed_products" database_path (world s3) in
       let w2 := to_csv d csv_path (snd w1) in
       let w3 := to_json d json_path (snd w2) in
       fst w1 = inr tt /\ fst w2 = inr tt /\ fst w3 = inr tt
       /\ datetime_now (snd w3) = (end_time, world st2).
Proof.
  unfold run_stages. intros Hrun.
  apply bind_inr_inv in Hrun as (c & s1 & _ & Hrun).
  apply bind_inr_inv in Hrun as (cl & s2 & _ & Hrun).
  apply bind_inr_inv in Hrun as (t & s3 & Htr & Hrun).
  apply bind_inr_inv in Hrun as (u1 & s4 & H1 & Hrun).
  apply bind_inr_inv in Hrun as (u2 & s5 & H2 & Hrun).
  apply bind_inr_inv in Hrun as (u3 & s6 & H3 & Hrun).
  apply bind_inr_inv in Hrun as (e & s7 & H4 & Hrun).
  injection Hrun as <- <- <-.
  rewrite external_run in H4. injection H4 as <- <-.
  apply (write_returns "database_path" (fun d p => to_sql d "processed_products" p))
    in H1 as (p1 & d1 & Hp1 & Hd1 & Ho1 & ->).
  apply (write_returns "csv_path" to_csv) in H2 as (p2 & d2 & Hp2 & Hd2 & Ho2 & ->).
  apply (write_returns "json_path" to_json) in H3 as (p3 & d3 & Hp3 & Hd3 & Ho3 & ->).
  cbn [heap world] in *.
  assert (d2 = d1) as -> by congruence.
  assert (d3 = d1) as -> by congruence.
  unfold config_target, subscript in Hp1, Hp2, Hp3.
  destruct (lookup_field "targets" config) as [tg|] eqn:Htg; [|discriminate].
  destruct tg as [| | | | |targets]; try discriminate.
  destruct (lookup_field "database_path" targets) as [q1|] eqn:E1; [|discriminate].
  destruct (lookup_field "csv_path" targets) as [q2|] eqn:E2; [|discriminate].
  destruct (lookup_field "json_path" targets) as [q3|] eqn:E3; [|discriminate].
  injection Hp1 as <-. injection Hp2 as <-. injection Hp3 as <-.
  exists cl, s2, s3, d1, targets, q1, q2, q3.
  split; [exact Htr|]. split; [exact Hd1|]. split; [reflexivity|].
  do 4 (split; [first [reflexivity | assumption]|]).
  cbv zeta. split; [exact Ho1|]. split; [exact Ho2|]. split; [exact Ho3|].
  apply surjective_pairing.
Qed.

Lemma sinks_get_the_transformed_table_in_order_witness :
  exists tr end_time st2,
    run_stages (platform := Samples.journal) default_config (mkState [] Absent [])
    = (inr (tr, end_time), st2)
    /\ world st2
       = ["read_csv"; "api"; "now";
          "to_sql processed_products data/output/warehouse.db";
          "to_csv data/output/processed_data.csv";
          "to_json data/output/processed_data.json"; "now"]
    /\ exists cleaned s2 s3 d targets database_path csv_path json_path,
         transform_data (platform := Samples.journal) cleaned s2 = (inr tr, s3)
         /\ heap s3 !! tr = Some d
         /\ heap st2 = heap s3
         /\ lookup_field "targets" default_config = Some (JDict targets)
         /\ lookup_field "database_path" targets = Some database_path
         /\ lookup_field "csv_path" targets = Some csv_path
         /\ lookup_field "json_path" targets = Some json_path
         /\ let w1 := to_sql (Platform := Samples.journal)
                        d "processed_products" database_path (world s3) in
            let w2 := to_csv (Platform := Samples.journal) d csv_path (snd w1) in
            let w3 := to_json (Platform := Samples.journal) d json_path (snd w2) in
            fst w1 = inr tt /\ fst w2 = inr tt /\ fst w3 = inr tt
            /\ datetime_now (Platform := Samples.journal) (snd w3) = (end_time, world st2).
Proof.
  destruct (run_stages (platform := Samples.journal) default_config (mkState [] Absent []))
    as [[e|[tr end_time]] st2] eqn:Hst.
  - exfalso. revert Hst. vm_compute. discriminate.
  - exists tr, end_time, st2. split; [reflexivity|]. split.
    + revert Hst. vm_compute. intros [= _ _ <-]. reflexivity.
    + apply (sinks_get_the_transformed_table_in_order
               (platform := Samples.journal) default_config
               (mkState [] Absent []) tr end_time st2).
      exact Hst.
Defined.

(* ================================================================== *)
(** * Further properties of the combining step *)

(** X11: the combining step, [pd.concat(extracted_data,
    ignore_index=True)], on tables whose columns line up by name: the
    labels of the sources' rows are discarded and the rows renumbered
    from 0; the combined table has each column name that occurs in some
    source and no other, each once, the columns of the first source
    first and in their order; every column is as long as the combined
    table. *)
Theorem concat_unites_columns_and_renumbers_rows
    (first : DataFrame) (others : list DataFrame) :
  Forall wf_frame (first :: others) ->
  exists df,
    pd_concat (first :: others) = inr df
    /\ wf_frame df
    /\ index df = map Z.of_nat (seq 0 (list_sum (map len (first :: others))))
    /\ (exists more, column_names df = column_names first ++ more)
    /\ (forall c, c ∈ column_names df
                  <-> exists d, d ∈ first :: others /\ c ∈ column_names d).
Proof.
  intros Hwf. eexists. split; [reflexivity|].
  set (frames := first :: others) in *.
  assert (Hnames : column_names
                     (mkFrame (map Z.of_nat (seq 0 (list_sum (map len frames))))
                        (map (fun name =>
                                (name, mkSeries (concat_dtype name frames)
                                                (flat_map (column_or_na name) frames)))
                             (union_names frames)))
                   = union_names frames).
  { unfold column_names. cbn [columns]. rewrite map_map. cbn [fst]. apply map_id. }
  rewrite Hnames. split; [|split; [reflexivity|split]].
  - split.
    + cbn [columns]. apply Forall_map. apply Forall_forall. intros name _. cbn [snd svalues].
      rewrite (flat_map_column_length name frames Hwf).
      unfold len. cbn [index]. rewrite length_map, length_seq. reflexivity.
    + rewrite Hnames, union_names_add. apply fold_names_NoDup. constructor.
  - rewrite union_names_add. subst frames. cbn [fold_left].
    assert (Hfirst : add_names (column_names first) [] = column_names first).
    { rewrite add_names_fresh; [reflexivity | | ].
      - inversion Hwf as [|? ? [_ Hnd] _]. exact Hnd.
      - intros n _ Hn. apply elem_of_nil in Hn. contradiction. }
    rewrite Hfirst. apply fold_names_prefix.
  - intros c. rewrite union_names_add, fold_names_elem. split.
    + intros [H|H]; [apply elem_of_nil in H; contradiction | exact H].
    + auto.
Qed.

Lemma concat_unites_columns_and_renumbers_rows_witness :
  exists df,
    pd_concat [Demo.products; Samples.half_known] = inr df
    /\ wf_frame df
    /\ index df = [0; 1; 2; 3; 4]%Z
    /\ (exists more, column_names df = ["id"; "price"; "name"] ++ more)
    /\ (forall c, c ∈ column_names df
                  <-> exists d, d ∈ [Demo.products; Samples.half_known]
                                /\ c ∈ column_names d).
Proof.
  apply (concat_unites_columns_and_renumbers_rows Demo.products [Samples.half_known]).
  repeat constructor; apply (bool_decide_unpack _); vm_compute; exact I.
Defined.

(* ================================================================== *)
(** * The configuration *)

Lemma lookup_dict_set (key k : string) (v : json) (fields : list (string * json)) :
  lookup_field key (dict_set k v fields)
  = if String.eqb k key then Some v else lookup_field key fields.
Proof.
  induction fields as [|[k0 x] rest IH]; simpl; [reflexivity|].
  destruct (String.eqb k0 k) eqn:E0; simpl.
  - apply String.eqb_eq in E0. subst k0. destruct (String.eqb k key); reflexivity.
  - rewrite IH. destruct (String.eqb k key) eqn:E; [|reflexivity].
    apply String.eqb_eq in E. subst key. rewrite E0. reflexivity.
Qed.

Lemma lookup_field_key (key : string) (v : json) (fields : list (string * json)) :
  lookup_field key fields = Some v -> key ∈ map fst fields.
Proof.
  induction fields as [|[k x] rest IH]; simpl; [discriminate|].
  destruct (String.eqb k key) eqn:E.
  - apply String.eqb_eq in E. subst. intros _. left.
  - intros H. right. apply IH. exact H.
Qed.

Lemma dict_merge_keeps_keys (key : string) (b : list (string * json)) :
  forall a,
    is_Some (lookup_field key a) -> is_Some (lookup_field key (dict_merge a b)).
Proof.
  unfold dict_merge.
  induction b as [|[k v] b IH]; intros a Ha; simpl; [exact Ha|].
  apply IH. rewrite lookup_dict_set.
  destruct (String.eqb k key); [eauto | exact Ha].
Qed.

(** X12: a configuration file that holds a mapping overrides the
    defaults one top-level section at a time: under each key of the file
    [load_config] returns the file's value as it is, nothing of the
    default section of that name being kept; under any other key it
    returns the default. *)
Theorem load_config_overrides_whole_sections
    (config : list (string * json)) (key : string) :
  NoDup (map fst config) ->
  lookup_field key (load_config (Holds (JDict config)))
  = match lookup_field key config with
    | Some v => Some v
    | None => lookup_field key default_config
    end.
Proof.
  unfold load_config, dict_merge. generalize default_config.
  induction config as [|[k v] config IH]; intros defaults Hnd; simpl; [reflexivity|].
  simpl in Hnd. apply NoDup_cons in Hnd as [Hk Hnd].
  rewrite (IH _ Hnd), lookup_dict_set.
  destruct (String.eqb k key) eqn:E;
    destruct (lookup_field key config) as [x|] eqn:Hx; try reflexivity.
  apply String.eqb_eq in E. subst key.
  exfalso. apply Hk. apply (lookup_field_key k x config Hx).
Qed.

Lemma load_config_overrides_whole_sections_witness :
  lookup_field "targets"
    (load_config (Holds (JDict [("targets", JDict [("csv_path", JStr "out.csv")])])))
  = match lookup_field "targets" [("targets", JDict [("csv_path", JStr "out.csv")])] with
    | Some v => Some v
    | None => lookup_field "targets" default_config
    end.
Proof.
  apply (load_config_overrides_whole_sections
           [("targets", JDict [("csv_path", JStr "out.csv")])] "targets").
  apply (bool_decide_unpack _). vm_compute. exact I.
Defined.

(** X13: whatever the configuration file is, missing, unreadable, not a
    mapping, or a mapping of any keys, the configuration [load_config]
    returns has a value under each of 'sources', 'targets' and
    'schedule'. *)
Theorem load_config_always_has_the_default_sections
    (config_file : file) (key : string) :
  key ∈ ["sources"; "targets"; "schedule"] ->
  is_Some (lookup_field key (load_config config_file)).
Proof.
  intros Hkey.
  assert (Hdef : is_Some (lookup_field key default_config)).
  { repeat (apply elem_of_cons in Hkey as [->|Hkey]; [eexists; reflexivity|]).
    apply elem_of_nil in Hkey. contradiction. }
  induction config_file as [|e|v|f IH e]; simpl; [exact Hdef | exact Hdef | | exact IH].
  destruct v; try exact Hdef.
  apply dict_merge_keeps_keys. exact Hdef.
Qed.

Lemma load_config_always_has_the_default_sections_witness :
  is_Some (lookup_field "schedule"
             (load_config (Holds (JDict [("schedule", JNull); ("retries", JNum 3)])))).
Proof.
  apply (load_config_always_has_the_default_sections
           (Holds (JDict [("schedule", JNull); ("retries", JNum 3)])) "schedule").
  right. right. left.
Defined.

(* ================================================================== *)
(** * Enriching a table a second time *)

Lemma assign_same (name : string) (s : Series) (cols : list (string * Series)) :
  assoc name cols = Some s -> assign name s cols = cols.
Proof.
  induction cols as [|[n old] cols IH]; simpl; [discriminate|].
  destruct (String.eqb n name) eqn:E.
  - intros [= ->]. reflexivity.
  - intros H. rewrite (IH H). reflexivity.
Qed.

Lemma setitem_same (d : DataFrame) (name : string) (s : Series) :
  getitem d name = Some s -> setitem d name s = d.
Proof.
  intros H. unfold setitem. rewrite (assign_same name s (columns d) H).
  destruct d; reflexivity.
Qed.

(** A text loop that ran to its end has normalised each listed column. *)
Lemma normalize_loop_done (cols : list string) :
  NoDup cols ->
  forall d,
    fst (normalize_loop cols d) = None ->
    forall c, c ∈ cols -> c <> "processed_at" ->
              exists s0, getitem d c = Some s0
                         /\ getitem (snd (normalize_loop cols d)) c
                            = Some (str_map title (str_map strip s0)).
Proof.
  induction 1 as [|col cols Hcol Hnd IH]; intros d Hrun c Hc Hne.
  - apply elem_of_nil in Hc. contradiction.
  - cbn [normalize_loop] in *. unfold normalize_step in *.
    destruct (existsb (String.eqb col) ["processed_at"]) eqn:Epa.
    + apply processed_at_test in Epa. subst col.
      apply elem_of_cons in Hc as [->|Hc]; [contradiction|].
      apply (IH d Hrun c Hc Hne).
    + destruct (getitem d col) as [s|] eqn:Hs; [|discriminate].
      destruct (str_strip_title s) as [e|s'] eqn:Hst; [discriminate|].
      apply str_strip_title_inv in Hst. subst s'.
      apply elem_of_cons in Hc as [->|Hc].
      * exists s. split; [exact Hs|].
        rewrite normalize_loop_untouched by exact Hcol. apply getitem_setitem_eq.
      * destruct (IH _ Hrun c Hc Hne) as (s0 & Hs0 & Hfin).
        exists s0. split; [|exact Hfin].
        rewrite getitem_setitem_ne in Hs0; [exact Hs0|].
        intros ->. contradiction.
Qed.

(** On columns that are already normalised the text loop changes
    nothing. *)
Lemma normalize_loop_fixed (cols : list string) (d : DataFrame) :
  (forall c, c ∈ cols -> c <> "processed_at" ->
             exists s, getitem d c = Some s /\ str_strip_title s = inr s) ->
  normalize_loop cols d = (None, d).
Proof.
  induction cols as [|col cols IH]; intros Hfix; [reflexivity|].
  cbn [normalize_loop]. 
  assert (Hstep : normalize_step d col = inr d).
  { unfold normalize_step.
    destruct (existsb (String.eqb col) ["processed_at"]) eqn:Epa; [reflexivity|].
    destruct (Hfix col) as (s & Hs & Hst); [left| |].
    - intros ->. simpl in Epa. discriminate.
    - rewrite Hs, Hst, (setitem_same d col s Hs). reflexivity. }
  rewrite Hstep. apply IH. intros c Hc Hne. apply Hfix; [right; exact Hc | exact Hne].
Qed.

(** The frame a successful enrichment leaves, enriched again at the
    clock reading [now2]. *)
Lemma enrich_again (t d1 : DataFrame) (now now2 : Z) :
  wf_frame t ->
  add_price_category t = inr d1 ->
  fst (enrich_frame now d1) = None ->
  let d3 := snd (enrich_frame now d1) in
  add_price_category d3 = inr d3
  /\ enrich_frame now2 d3 = (None, add_processed_at now2 d3).
Proof.
  intros Hwf Hadd Hrun d3.
  destruct (add_price_category_shape t d1 Hwf Hadd) as (Hwf1 & _ & _).
  pose proof (proj2 Hwf1) as Hnd1.
  destruct (enrich_frame_getitem now d1 Hnd1) as (Hother & Hpa & _).
  fold d3 in Hother, Hpa.
  set (d2 := add_processed_at now d1).
  assert (Hwf2 : wf_frame d2).
  { apply wf_setitem; [exact Hwf1|]. simpl. apply repeat_length. }
  destruct (normalize_loop_shape (select_dtypes is_object d2) d2 Hwf2) as (Hwf3 & Hn3 & Hi3).
  change (snd (normalize_loop (select_dtypes is_object d2) d2)) with d3 in Hwf3, Hn3, Hi3.
  assert (Hdone : forall c, c ∈ select_dtypes is_object d2 -> c <> "processed_at" ->
                    exists s0, getitem d2 c = Some s0
                               /\ getitem d3 c = Some (str_map title (str_map strip s0))).
  { apply normalize_loop_done; [|exact Hrun].
    apply NoDup_select_dtypes. exact (proj2 Hwf2). }
  split.
  - destruct (add_price_category_dtype t d1 Hadd) as [[Hnone ->]|(s & Hs & Hdt & ->)].
    + apply add_price_category_absent.
      destruct (getitem d3 "price") as [s|] eqn:Hs; [|reflexivity].
      exfalso.
      assert (Hin : "price" ∈ column_names d3) by (apply in_names_getitem; eauto).
      rewrite Hn3 in Hin. unfold d2, add_processed_at in Hin.
      rewrite column_names_setitem, elem_of_app in Hin.
      destruct Hin as [Hin|Hin].
      * apply in_names_getitem in Hin as [s' Hs']. congruence.
      * destruct (has_column t "processed_at").
        -- apply elem_of_nil in Hin. contradiction.
        -- apply list_elem_of_singleton in Hin. discriminate.
    + set (c := mkSeries category (map (cut_cell price_bins price_labels) (svalues s))) in *.
      assert (Hprice : getitem d3 "price" = Some s).
      { apply Hother; [|rewrite Hdt; discriminate|discriminate].
        rewrite getitem_setitem_ne by discriminate. exact Hs. }
      assert (Hcat : getitem d3 "price_category" = Some c).
      { apply Hother; [apply getitem_setitem_eq|discriminate|discriminate]. }
      rewrite (add_price_category_number d3 s Hprice Hdt).
      fold c. rewrite (setitem_same d3 "price_category" c Hcat). reflexivity.
  - unfold enrich_frame. apply normalize_loop_fixed.
    intros c Hc Hne.
    set (d4 := add_processed_at now2 d3) in *.
    assert (Hnd4 : NoDup (column_names d4)).
    { apply column_names_setitem_NoDup. exact (proj2 Hwf3). }
    apply (elem_of_select_dtypes is_object d4 c Hnd4) in Hc as (s & Hs & Hobj).
    unfold d4 in Hs. rewrite getitem_add_processed_at_ne in Hs by exact Hne.
    exists s. split; [unfold d4; rewrite getitem_add_processed_at_ne by exact Hne; exact Hs|].
    destruct (decide (c ∈ select_dtypes is_object d2)) as [Hin|Hnin].
    + destruct (Hdone c Hin Hne) as (s0 & _ & Hfin).
      rewrite Hs in Hfin. injection Hfin as ->. apply str_strip_title_fixed.
    + exfalso. apply Hnin.
      apply (elem_of_select_dtypes is_object d2 c (proj2 Hwf2)).
      exists s. split; [|exact Hobj].
      unfold d3, enrich_frame in Hs. fold d2 in Hs.
      rewrite normalize_loop_untouched in Hs by exact Hnin. exact Hs.
Qed.

(** X14: enriching a table a second time only renews its timestamp. If
    [transform_data] has returned for a table, calling it again on that
    table returns too and leaves the table as the first call left it but
    for the column 'processed_at', which holds the second clock reading:
    the price categories are computed anew to the same values and the
    text columns, being normalised already, stay as they are. (ASCII
    strings.) *)
Theorem transform_data_again_only_renews_the_timestamp
    {World : Type} {platform : Platform World}
    (st st1 : state World) (r r1 : ref) (t : DataFrame) :
  heap st !! r = Some t ->
  wf_frame t ->
  transform_data r st = (inr r1, st1) ->
  exists d,
    heap st1 !! r = Some d
    /\ transform_data r st1
       = (inr r,
          mkState (<[r := add_processed_at (fst (datetime_now (world st1))) d]> (heap st1))
                  (metrics_file st1)
                  (snd (datetime_now (world st1))))
    /\ column_names (add_processed_at (fst (datetime_now (world st1))) d) = column_names d
    /\ forall c, c <> "processed_at" ->
                 getitem (add_processed_at (fst (datetime_now (world st1))) d) c
                 = getitem d c.
Proof.
  intros Hr Hwf Hrun. rewrite (transform_data_run st r t Hr) in Hrun.
  destruct (add_price_category t) as [e|d1] eqn:Hadd; [discriminate|].
  cbv zeta in Hrun.
  set (now := fst (datetime_now (world st))) in *.
  destruct (fst (enrich_frame now d1)) as [e|] eqn:Hen; [discriminate|].
  injection Hrun as _ <-. cbn [heap world metrics_file].
  set (d3 := snd (enrich_frame now d1)).
  assert (Hlt : r < length (heap st)) by (eapply lookup_lt_Some; exact Hr).
  assert (Hd3 : <[r := d3]> (heap st) !! r = Some d3).
  { apply list_lookup_insert_eq. exact Hlt. }
  exists d3. split; [exact Hd3|].
  destruct (enrich_again t d1 now (fst (datetime_now (snd (datetime_now (world st)))))
              Hwf Hadd Hen) as [Hadd3 Hen3].
  fold d3 in Hadd3, Hen3.
  split; [|split].
  - rewrite (transform_data_run
               (mkState (<[r := d3]> (heap st)) (metrics_file st)
                        (snd (datetime_now (world st))))
               r d3 Hd3).
    cbn [heap world metrics_file].
    rewrite Hadd3. cbv zeta. rewrite Hen3. reflexivity.
  - unfold add_processed_at. rewrite column_names_setitem.
    assert (Hh : has_column d3 "processed_at" = true).
    { apply has_column_getitem.
      destruct (add_price_category_shape t d1 Hwf Hadd) as (Hwf1 & _ & _).
      destruct (enrich_frame_getitem now d1 (proj2 Hwf1)) as (_ & Hpa & _).
      eexists. exact Hpa. }
    rewrite Hh. apply app_nil_r.
  - intros c Hne. apply getitem_add_processed_at_ne. exact Hne.
Qed.

Lemma transform_data_again_only_renews_the_timestamp_witness :
  exists r1 st1 d,
    transform_data (platform := Demo.csv_only) 0 (Demo.boot [Demo.products]) = (inr r1, st1)
    /\ heap st1 !! 0 = Some d
    /\ transform_data (platform := Demo.csv_only) 0 st1
       = (inr 0,
          mkState (<[0 := add_processed_at
                            (fst (datetime_now (Platform := Demo.csv_only) (world st1))) d]>
                     (heap st1))
                  (metrics_file st1)
                  (snd (datetime_now (Platform := Demo.csv_only) (world st1))))
    /\ column_names (add_processed_at
                       (fst (datetime_now (Platform := Demo.csv_only) (world st1))) d)
       = column_names d
    /\ forall c, c <> "processed_at" ->
                 getitem (add_processed_at
                            (fst (datetime_now (Platform := Demo.csv_only) (world st1))) d) c
                 = getitem d c.
Proof.
  destruct (transform_data (platform := Demo.csv_only) 0 (Demo.boot [Demo.products]))
    as [[e|r1] st1] eqn:Hrun.
  - exfalso. revert Hrun. vm_compute. discriminate.
  - exists r1, st1.
    destruct (transform_data_again_only_renews_the_timestamp
                (platform := Demo.csv_only)
                (Demo.boot [Demo.products]) st1 0 r1 Demo.products) as (d & H).
    + reflexivity.
    + split; [repeat constructor|]. apply (bool_decide_unpack _). vm_compute. exact I.
    + exact Hrun.
    + exists d. split; [reflexivity | exact H].
Defined.
